(** * Collection-curves dashboard: the aggregation, scoring and curve pipeline

  A shallow embedding of the three client-side reductions of the
  dashboard,

  - [Providers]  : the provider table   (src/app/providers/page.tsx),
  - [Analytics]  : risk/performance scoring (src/app/analytics/page.tsx),
  - [Curves]     : collection curves    (the collection-curves page),

  together with the properties the specification states about them.

  Conventions of the model.
  - A JavaScript number that is always finite in the code (money totals,
    counters) is an exact rational [Q] in these three modules, and overflow
    to infinity is outside the model.  The properties stated over them
    are of the kind that binary64 rounding does not change: a formula in
    the code's own order of operations, a comparison, a count.  The one
    lemma that needs exact arithmetic, [exact_totals_conserved], says so.
  - Where the rounding matters, namely for the order in which the provider
    totals are added up, the statement is made over [Binary64], the
    provider aggregation with IEEE 754 binary64 numbers ([PrimFloat]).
  - A number that the code can turn into [NaN] (anything derived from a
    date that does not parse) is a [Js.num], a rational or [NaN].
  - A [Map] is an association list in insertion order, which is the order
    [Map.prototype.forEach] and [Map.prototype.values] visit it in.
  - [new Date()] reads a clock; the clock is an explicit argument. *)

From Stdlib Require Import List String ZArith QArith Qminmax Bool Arith Lia Lqa.
From Stdlib Require Import Permutation Sorted.
From Stdlib Require PrimFloat.
Import ListNotations.

Local Open Scope Q_scope.

(** ** JavaScript numbers *)

Module Js.

(** [x < y] on finite numbers, as a boolean. *)
Definition Qlt_bool (x y : Q) : bool := negb (Qle_bool y x).

(** [v || 0] for a nullable numeric column: [null] and [0] both give [0]. *)
Definition orZero (v : option Q) : Q :=
  match v with Some q => q | None => 0 end.

(** Truthiness of a nullable number: neither [null] nor [0]. *)
Definition truthyNum (v : option Q) : bool :=
  match v with Some q => negb (Qeq_bool q 0) | None => false end.

(** Truthiness of a nullable string: neither [null] nor the empty string.
    The result is the string itself when it is truthy. *)
Definition truthyStr (v : option string) : option string :=
  match v with
  | Some s => if String.eqb s EmptyString then None else Some s
  | None => None
  end.

(** Truthiness of a nullable boolean flag. *)
Definition truthyFlag (v : option bool) : bool :=
  match v with Some b => b | None => false end.

(** A number that may be [NaN]. *)
Definition num := option Q.
Definition NaN : num := None.
Definition fin (q : Q) : num := Some q.

Definition lift2 (f : Q -> Q -> Q) (a b : num) : num :=
  match a, b with
  | Some x, Some y => Some (f x y)
  | _, _ => None
  end.

Definition add := lift2 Qplus.
Definition sub := lift2 Qminus.
Definition mul := lift2 Qmult.

(** Division.  The pages only ever reach a zero denominator as [0 / 0]
    (or [NaN / 0]), which is [NaN]. *)
Definition div (a b : num) : num :=
  match a, b with
  | Some x, Some y => if Qeq_bool y 0 then None else Some (x / y)
  | _, _ => None
  end.

(** [Math.pow(a, n)] for an integer exponent. *)
Definition pow (a : num) (n : Z) : num := option_map (fun x => x ^ n) a.

(** [Math.min] and [Math.max] return [NaN] as soon as an argument is. *)
Definition min := lift2 Qmin.
Definition max := lift2 Qmax.

(** Comparisons with [NaN] are false. *)
Definition gt (a b : num) : bool :=
  match a, b with
  | Some x, Some y => Qlt_bool y x
  | _, _ => false
  end.

Definition ge (a b : num) : bool :=
  match a, b with
  | Some x, Some y => Qle_bool y x
  | _, _ => false
  end.

(** Order and equality of results, both false on [NaN]. *)
Definition le (a b : num) : Prop :=
  match a, b with
  | Some x, Some y => x <= y
  | _, _ => False
  end.

Definition eqv (a b : num) : Prop :=
  match a, b with
  | Some x, Some y => x == y
  | _, _ => False
  end.

(** Sum of a list of finite numbers, [xs.reduce((a, b) => a + b, 0)]. *)
Definition sum (xs : list Q) : Q := fold_left Qplus xs 0.

End Js.

(** ** Dates, as [new Date(column)] sees a nullable text column *)

Module JsDate.

(** What a date column of a row can hold. *)
Inductive column :=
| Null                 (* SQL NULL: [new Date(null)] is the epoch *)
| Empty                (* the empty string: falsy, and an invalid date *)
| Unparsable           (* a non-empty string that is not a date *)
| Parsed (ms : Z).     (* a date string, with its time value *)

Definition truthy (c : column) : bool :=
  match c with
  | Null | Empty => false
  | Unparsable | Parsed _ => true
  end.

(** [new Date(c).getTime()]; [None] is [NaN]. *)
Definition getTime (c : column) : option Z :=
  match c with
  | Null => Some 0%Z
  | Empty | Unparsable => None
  | Parsed ms => Some ms
  end.

(** Year and month (1..12) of a day count since the epoch, in the
    proleptic Gregorian calendar used by [toISOString]. *)
Definition civil (days : Z) : Z * Z :=
  let z := (days + 719468)%Z in
  let era := (z / 146097)%Z in
  let doe := (z - era * 146097)%Z in
  let yoe := ((doe - doe / 1460 + doe / 36524 - doe / 146096) / 365)%Z in
  let doy := (doe - (365 * yoe + yoe / 4 - yoe / 100))%Z in
  let mp := ((5 * doy + 2) / 153)%Z in
  let m := (if mp <? 10 then mp + 3 else mp - 9)%Z in
  let y := (yoe + era * 400 + (if m <=? 2 then 1 else 0))%Z in
  (y, m).

(** [toISOString().slice(0, 7)]: ["YYYY-MM"] for a four-digit year, and
    the sign and six digits of the year alone otherwise.  The key is kept
    structured: the year, and the month when the slice contains it. *)
Definition monthKey := (Z * option Z)%type.

Definition isoMonth (ms : Z) : monthKey :=
  let (y, m) := civil (ms / 86400000) in
  if ((0 <=? y) && (y <=? 9999))%Z then (y, Some m) else (y, None).

(** [new Date(c).toISOString().slice(0, 7)]; [None] when [toISOString]
    throws its [RangeError], which it does on an invalid date. *)
Definition toISOMonth (c : column) : option monthKey :=
  match getTime c with
  | Some ms => Some (isoMonth ms)
  | None => None
  end.

Definition monthKey_eqb (a b : monthKey) : bool :=
  (fst a =? fst b)%Z &&
  match snd a, snd b with
  | Some x, Some y => (x =? y)%Z
  | None, None => true
  | _, _ => false
  end.

End JsDate.

(** ** A row of the [fund_data] table *)

Module FundData.

Record t := {
  provider_name_per_tbr : option string;
  total_sent : option Q;
  total_repaid : option Q;
  case_status : option string;
  repaid : option bool;
  origination_date : JsDate.column;
  repayment_date : JsDate.column
}.

(** The provider of a row, when [if (!provider) return] lets it pass. *)
Definition provider (record : t) : option string :=
  Js.truthyStr (provider_name_per_tbr record).

End FundData.

(** ** [Map], in insertion order *)

Module JsMap.
Section Defs.

Context {K V : Type} (eqb : K -> K -> bool).

Fixpoint get (k : K) (m : list (K * V)) : option V :=
  match m with
  | [] => None
  | (k', v) :: m' => if eqb k k' then Some v else get k m'
  end.

Definition has (k : K) (m : list (K * V)) : bool :=
  match get k m with Some _ => true | None => false end.

(** [set] keeps the position of a key that is present and appends a new
    one. *)
Fixpoint set (k : K) (v : V) (m : list (K * V)) : list (K * V) :=
  match m with
  | [] => [(k, v)]
  | (k', v') :: m' =>
      if eqb k k' then (k', v) :: m' else (k', v') :: set k v m'
  end.

Definition keys (m : list (K * V)) : list K := map fst m.
Definition values (m : list (K * V)) : list V := map snd m.

(** The closed form of the idiom the three pages share,
    [if (!m.has(k)) m.set(k, fresh); const p = m.get(k); ...update p...]:
    the value under [k], or [fresh], is replaced by its update. *)
Definition upsert (k : K) (fresh : V) (f : V -> V) (m : list (K * V))
  : list (K * V) :=
  set k (f (match get k m with Some p => p | None => fresh end)) m.

End Defs.
End JsMap.

(** ** Arrays and sets *)

Module JsArray.
Section Defs.

Context {A : Type}.

(** [Array.from(new Set(xs))]: a [Set] keeps the first occurrence of each
    element, in insertion order. *)
Definition add (eqb : A -> A -> bool) (s : list A) (x : A) : list A :=
  if existsb (eqb x) s then s else s ++ [x].

Definition unique (eqb : A -> A -> bool) (xs : list A) : list A :=
  fold_left (add eqb) xs [].

(** [xs.sort(compare)].  The sort is stable, so for a comparator that
    orders the elements consistently the result does not depend on the
    engine's algorithm; it is computed here by insertion, an element going
    after the ones it compares greater than ([compare x y > 0]) and before
    the first one it does not. *)
Fixpoint insert (compare : A -> A -> Q) (x : A) (l : list A) : list A :=
  match l with
  | [] => [x]
  | y :: l' =>
      if Js.Qlt_bool 0 (compare x y) then y :: insert compare x l'
      else x :: l
  end.

Definition sort (compare : A -> A -> Q) (xs : list A) : list A :=
  fold_right (insert compare) [] xs.

(** [xs.slice(0, n)] *)
Definition slice0 (n : nat) (xs : list A) : list A := firstn n xs.

End Defs.
End JsArray.

(** Sum of a list of amounts, used to state totals. *)
Definition Qsum (l : list Q) : Q := fold_right Qplus 0 l.

(** ** The provider table (src/app/providers/page.tsx) *)

Module Providers.

(** The object kept per provider in [providerMap]. *)
Record Bucket := {
  provider_name_per_tbr : string;
  total_sent : Q;
  total_repaid : Q;
  case_count : nat;
  pending_cases : nat;
  closed_cases : nat;
  total_multiple : Q
}.

Definition newBucket (provider : string) : Bucket :=
  {| provider_name_per_tbr := provider;
     total_sent := 0;
     total_repaid := 0;
     case_count := 0;
     pending_cases := 0;
     closed_cases := 0;
     total_multiple := 0 |}.

(** [record.case_status === 'Pending'] *)
Definition isPending (record : FundData.t) : bool :=
  match FundData.case_status record with
  | Some s => String.eqb s "Pending"
  | None => false
  end.

(** The updates made to the bucket [p] of a record's provider. *)
Definition addRecord (p : Bucket) (record : FundData.t) : Bucket :=
  let sent := Js.orZero (FundData.total_sent record) in
  let repaid := Js.orZero (FundData.total_repaid record) in
  {| provider_name_per_tbr := provider_name_per_tbr p;
     total_sent := total_sent p + sent;
     total_repaid := total_repaid p + repaid;
     case_count := S (case_count p);
     pending_cases :=
       if isPending record then S (pending_cases p) else pending_cases p;
     closed_cases :=
       if isPending record then closed_cases p
       else if Js.truthyFlag (FundData.repaid record)
            then S (closed_cases p) else closed_cases p;
     total_multiple :=
       if Js.Qlt_bool 0 sent
       then total_multiple p + repaid / sent
       else total_multiple p |}.

Definition ProviderMap := list (string * Bucket).

(** The body of [data.forEach]. *)
Definition step (providerMap : ProviderMap) (record : FundData.t)
  : ProviderMap :=
  match FundData.provider record with
  | None => providerMap
  | Some provider =>
      let providerMap :=
        if JsMap.has String.eqb provider providerMap then providerMap
        else JsMap.set String.eqb provider (newBucket provider) providerMap in
      match JsMap.get String.eqb provider providerMap with
      | Some p =>
          JsMap.set String.eqb provider (addRecord p record) providerMap
      | None => providerMap
      end
  end.

Definition aggregate (data : list FundData.t) : ProviderMap :=
  fold_left step data [].

(** An element of [processedProviders]: the bucket with its two rates. *)
Record ProviderData := {
  bucket : Bucket;
  avg_multiple : Q;
  recovery_rate : Q
}.

Definition finish (p : Bucket) : ProviderData :=
  {| bucket := p;
     avg_multiple :=
       if (0 <? case_count p)%nat
       then total_multiple p / inject_Z (Z.of_nat (case_count p)) else 0;
     recovery_rate :=
       if Js.Qlt_bool 0 (total_sent p)
       then (total_repaid p / total_sent p) * 100 else 0 |}.

Definition fetchProviderData (data : list FundData.t) : list ProviderData :=
  map finish (JsMap.values (aggregate data)).

(** The records attributed to a provider, and those attributed to any. *)
Definition attributedTo (k : string) (record : FundData.t) : bool :=
  match FundData.provider record with
  | Some p => String.eqb p k
  | None => false
  end.

Definition hasProvider (record : FundData.t) : bool :=
  match FundData.provider record with Some _ => true | None => false end.

Definition sent (record : FundData.t) : Q :=
  Js.orZero (FundData.total_sent record).
Definition repaidAmount (record : FundData.t) : Q :=
  Js.orZero (FundData.total_repaid record).

(** *** The derived views of the page *)

(** [sortBy] *)
Inductive SortBy := SortName | SortInvested | SortRepaid | SortMultiple.

Section Views.

(** [name.toLowerCase().includes(searchTerm.toLowerCase())] and
    [a.localeCompare(b)], which depend on the runtime's Unicode tables and
    locale. *)
Variable matches : string -> string -> bool.
Variable localeCompare : string -> string -> Q.

(** The comparator of [filteredProviders]. *)
Definition compareBy (sortBy : SortBy) (a b : ProviderData) : Q :=
  match sortBy with
  | SortName =>
      localeCompare (provider_name_per_tbr (bucket a))
        (provider_name_per_tbr (bucket b))
  | SortInvested => total_sent (bucket b) - total_sent (bucket a)
  | SortRepaid => total_repaid (bucket b) - total_repaid (bucket a)
  | SortMultiple => avg_multiple b - avg_multiple a
  end.

Definition filteredProviders (providers : list ProviderData)
  (searchTerm : string) (sortBy : SortBy) : list ProviderData :=
  JsArray.sort (compareBy sortBy)
    (filter (fun p => matches (provider_name_per_tbr (bucket p)) searchTerm)
       providers).

Definition topProviders (providers : list ProviderData)
  (searchTerm : string) (sortBy : SortBy) : list ProviderData :=
  JsArray.slice0 10 (filteredProviders providers searchTerm sortBy).

End Views.

(** The portfolio totals, [providers.reduce(...)]. *)
Record Totals := {
  invested : Q;
  repaid : Q;
  cases : nat
}.

Definition totals (providers : list ProviderData) : Totals :=
  fold_left
    (fun acc p =>
       {| invested := invested acc + total_sent (bucket p);
          repaid := repaid acc + total_repaid (bucket p);
          cases := cases acc + case_count (bucket p) |})
    providers
    {| invested := 0; repaid := 0; cases := 0 |}.

(** The providers of the records that have one, in order. *)
Definition providersOf (data : list FundData.t) : list string :=
  flat_map (fun record => match FundData.provider record with
                          | Some k => [k]
                          | None => []
                          end) data.

End Providers.

(** A [ProviderData] spreads its bucket: [{...p, avg_multiple, recovery_rate}]. *)
Coercion Providers.bucket : Providers.ProviderData >-> Providers.Bucket.

(** ** Risk and performance scoring (src/app/analytics/page.tsx) *)

Declare Scope js_scope.
Delimit Scope js_scope with js.
Infix "+" := Js.add : js_scope.
Infix "-" := Js.sub : js_scope.
Infix "*" := Js.mul : js_scope.
Infix "/" := Js.div : js_scope.

Module Analytics.

(** A value of [monthlyPerformance]. *)
Record MonthPerf := {
  invested : Q;
  recovered : Q
}.

(** The object kept per provider in [providerAnalytics].  Its
    [gradeDistribution] map is created and never used; it is left out. *)
Record Provider := {
  provider : string;
  totalInvested : Q;
  totalRecovered : Q;
  caseCount : nat;
  recoveryTimes : list Js.num;
  monthlyPerformance : list (JsDate.monthKey * MonthPerf)
}.

Definition newProvider (provider : string) : Provider :=
  {| provider := provider;
     totalInvested := 0;
     totalRecovered := 0;
     caseCount := 0;
     recoveryTimes := [];
     monthlyPerformance := [] |}.

(** The exception [toISOString] throws on an invalid date. *)
Inductive error := RangeError.

Definition result (A : Type) : Type := (error + A)%type.

(** The days pushed on [recoveryTimes], when both dates are truthy.  A date
    that does not parse makes the difference [NaN]. *)
Definition recoveryDays (record : FundData.t) : option Js.num :=
  if JsDate.truthy (FundData.origination_date record)
     && JsDate.truthy (FundData.repayment_date record)
  then
    Some match JsDate.getTime (FundData.repayment_date record),
               JsDate.getTime (FundData.origination_date record) with
         | Some t2, Some t1 => Js.fin (inject_Z ((t2 - t1) / 86400000))
         | _, _ => Js.NaN
         end
  else None.

(** The updates to the month bucket of a record. *)
Definition addMonth (monthlyPerformance : list (JsDate.monthKey * MonthPerf))
  (month : JsDate.monthKey) (record : FundData.t)
  : list (JsDate.monthKey * MonthPerf) :=
  let monthlyPerformance :=
    if JsMap.has JsDate.monthKey_eqb month monthlyPerformance
    then monthlyPerformance
    else JsMap.set JsDate.monthKey_eqb month
           {| invested := 0; recovered := 0 |} monthlyPerformance in
  match JsMap.get JsDate.monthKey_eqb month monthlyPerformance with
  | Some monthData =>
      JsMap.set JsDate.monthKey_eqb month
        {| invested := invested monthData
                       + Js.orZero (FundData.total_sent record);
           recovered := recovered monthData
                        + Js.orZero (FundData.total_repaid record) |}
        monthlyPerformance
  | None => monthlyPerformance
  end.

Definition AnalyticsMap := list (string * Provider).

(** The body of [data.forEach]; [inl RangeError] when it throws. *)
Definition step (providerAnalytics : AnalyticsMap) (record : FundData.t)
  : result AnalyticsMap :=
  match FundData.provider record with
  | None => inr providerAnalytics
  | Some provider =>
      let providerAnalytics :=
        if JsMap.has String.eqb provider providerAnalytics
        then providerAnalytics
        else JsMap.set String.eqb provider (newProvider provider)
               providerAnalytics in
      match JsMap.get String.eqb provider providerAnalytics with
      | None => inr providerAnalytics
      | Some analytics =>
          match JsDate.toISOMonth (FundData.origination_date record) with
          | None => inl RangeError
          | Some month =>
              inr (JsMap.set String.eqb provider
                     {| provider := Analytics.provider analytics;
                        totalInvested :=
                          totalInvested analytics
                          + Js.orZero (FundData.total_sent record);
                        totalRecovered :=
                          totalRecovered analytics
                          + Js.orZero (FundData.total_repaid record);
                        caseCount := S (caseCount analytics);
                        recoveryTimes :=
                          match recoveryDays record with
                          | Some d => recoveryTimes analytics ++ [d]
                          | None => recoveryTimes analytics
                          end;
                        monthlyPerformance :=
                          addMonth (monthlyPerformance analytics) month
                            record |}
                     providerAnalytics)
          end
      end
  end.

(** [data.forEach(step)]: the first exception ends the loop. *)
Fixpoint forEach (data : list FundData.t) (providerAnalytics : AnalyticsMap)
  : result AnalyticsMap :=
  match data with
  | [] => inr providerAnalytics
  | record :: data' =>
      match step providerAnalytics record with
      | inl e => inl e
      | inr providerAnalytics' => forEach data' providerAnalytics'
      end
  end.

(** The constants computed per provider, in the order of the source. *)

Definition recoveryRate (analytics : Provider) : Q :=
  if Js.Qlt_bool 0 (totalInvested analytics)
  then totalRecovered analytics / totalInvested analytics
  else 0.

Definition nat_num (n : nat) : Js.num := Js.fin (inject_Z (Z.of_nat n)).

Definition avgRecoveryTime (analytics : Provider) : Js.num :=
  if (0 <? List.length (recoveryTimes analytics))%nat
  then (fold_left Js.add (recoveryTimes analytics) (Js.fin 0)
        / nat_num (List.length (recoveryTimes analytics)))%js
  else Js.fin 365.

Definition riskScore (recoveryRate avgRecoveryTime : Js.num) : Js.num :=
  Js.max (Js.fin 0) (Js.min (Js.fin 100)
    ((Js.fin 1 - recoveryRate) * Js.fin 50 +
     Js.min (avgRecoveryTime / Js.fin 365) (Js.fin 1) * Js.fin 50)%js).

Definition performanceScore (recoveryRate : Js.num) (caseCount : nat)
  (riskScore : Js.num) : Js.num :=
  Js.min (Js.fin 100)
    (recoveryRate * Js.fin 40 +
     Js.min (nat_num caseCount / Js.fin 10) (Js.fin 1) * Js.fin 20 +
     (Js.fin 1 - riskScore / Js.fin 100) * Js.fin 40)%js.

Definition recoveryVelocity (recoveryRate avgRecoveryTime : Js.num) : Js.num :=
  if Js.gt avgRecoveryTime (Js.fin 0)
  then ((recoveryRate * Js.fin 100) / (avgRecoveryTime / Js.fin 30))%js
  else Js.fin 0.

Definition monthlyRates (analytics : Provider) : list Q :=
  map (fun m => if Js.Qlt_bool 0 (invested m)
                then recovered m / invested m else 0)
      (JsMap.values (monthlyPerformance analytics)).

Section Consistency.

(** [Math.sqrt] on the non-negative rationals. *)
Variable sqrt : Q -> Q.

Definition consistency (monthlyRates : list Q) : Js.num :=
  let avgRate :=
    (Js.fin (Js.sum monthlyRates) / nat_num (List.length monthlyRates))%js in
  let variance :=
    (fold_left (fun sum rate => sum + Js.pow (Js.fin rate - avgRate) 2)
       monthlyRates (Js.fin 0)
     / nat_num (List.length monthlyRates))%js in
  Js.max (Js.fin 0)
    (Js.fin 100 - option_map sqrt variance * Js.fin 100)%js.

Definition efficiency (recoveryVelocity consistency performanceScore : Js.num)
  : Js.num :=
  Js.min (Js.fin 100)
    (recoveryVelocity * Js.fin 10 +
     consistency * Js.fin (3 # 10) +
     performanceScore * Js.fin (6 # 10))%js.

Definition investmentGrade (performanceScore : Js.num) : string :=
  if Js.ge performanceScore (Js.fin 90) then "A"
  else if Js.ge performanceScore (Js.fin 80) then "B"
  else if Js.ge performanceScore (Js.fin 70) then "C"
  else if Js.ge performanceScore (Js.fin 60) then "D"
  else if Js.ge performanceScore (Js.fin 50) then "E"
  else "F".

(** An element of [processedAnalytics]. *)
Record AnalyticsData := {
  a_provider : string;
  a_investmentGrade : string;
  a_riskScore : Js.num;
  a_performanceScore : Js.num;
  a_recoveryVelocity : Js.num;
  a_consistency : Js.num;
  a_volume : Q;
  a_efficiency : Js.num
}.

Definition score (analytics : Provider) : AnalyticsData :=
  let recoveryRate := Js.fin (recoveryRate analytics) in
  let avgRecoveryTime := avgRecoveryTime analytics in
  let riskScore := riskScore recoveryRate avgRecoveryTime in
  let performanceScore :=
    performanceScore recoveryRate (caseCount analytics) riskScore in
  let recoveryVelocity := recoveryVelocity recoveryRate avgRecoveryTime in
  let consistency := consistency (monthlyRates analytics) in
  let efficiency := efficiency recoveryVelocity consistency performanceScore in
  {| a_provider := provider analytics;
     a_investmentGrade := investmentGrade performanceScore;
     a_riskScore := riskScore;
     a_performanceScore := performanceScore;
     a_recoveryVelocity := recoveryVelocity;
     a_consistency := consistency;
     a_volume := totalInvested analytics;
     a_efficiency := efficiency |}.

(** The value passed to [setAnalyticsData], or the exception that the
    [catch] block logs instead. *)
Definition fetchAnalyticsData (data : list FundData.t)
  : result (list AnalyticsData) :=
  match forEach data [] with
  | inl e => inl e
  | inr providerAnalytics => inr (map score (JsMap.values providerAnalytics))
  end.

End Consistency.

(** *** The grade chart *)

(** [analyticsData.reduce(...)]: how many providers have each grade.  The
    grades are letters, not integer-like keys, so the object enumerates
    them in insertion order. *)
Definition gradeDistribution (analyticsData : list AnalyticsData)
  : list (string * nat) :=
  fold_left
    (fun acc item =>
       JsMap.set String.eqb (a_investmentGrade item)
         (match JsMap.get String.eqb (a_investmentGrade item) acc with
          | Some count => count
          | None => 0
          end + 1)%nat
         acc)
    analyticsData [].

Record GradeDatum := {
  grade : string;
  count : nat;
  percentage : Js.num
}.

Section GradeData.

(** [a.localeCompare(b)], which depends on the runtime's locale. *)
Variable localeCompare : string -> string -> Q.

Definition gradeData (analyticsData : list AnalyticsData) : list GradeDatum :=
  JsArray.sort (fun a b => localeCompare (grade a) (grade b))
    (map (fun entry =>
            {| grade := fst entry;
               count := snd entry;
               percentage :=
                 (nat_num (snd entry) / nat_num (List.length analyticsData)
                  * Js.fin 100)%js |})
       (gradeDistribution analyticsData)).

End GradeData.

End Analytics.

(** ** Collection curves (the collection-curves page) *)

Module Curves.

(** A value of a provider's curve: the totals of one month offset. *)
Record MonthData := {
  totalInvested : Q;
  totalRecovered : Q;
  caseCount : nat
}.

Definition newMonthData : MonthData :=
  {| totalInvested := 0; totalRecovered := 0; caseCount := 0 |}.

Definition ProviderCurve := list (nat * MonthData).
Definition CurveMap := list (string * ProviderCurve).

(** [Math.floor((repaidDate.getTime() - originDate.getTime()) / 30 days)],
    where [repaidDate] is the clock reading [now] when the repayment date
    is falsy.  [None] is [NaN]. *)
Definition monthsSince (now : Z) (record : FundData.t) : option Z :=
  let originDate := JsDate.getTime (FundData.origination_date record) in
  let repaidDate :=
    if JsDate.truthy (FundData.repayment_date record)
    then JsDate.getTime (FundData.repayment_date record)
    else Some now in
  match repaidDate, originDate with
  | Some t2, Some t1 => Some ((t2 - t1) / (1000 * 60 * 60 * 24 * 30))%Z
  | _, _ => None
  end.

(** The values [month] takes in
    [for (month = 0; month <= Math.min(monthsSince, 36); month++)]. *)
Definition months (monthsSince : option Z) : list nat :=
  match monthsSince with
  | Some n => seq 0 (Z.to_nat (Z.min n 36 + 1))
  | None => []
  end.

(** [monthsSince > 0] *)
Definition positive (monthsSince : option Z) : bool :=
  match monthsSince with
  | Some n => (0 <? n)%Z
  | None => false
  end.

(** [Math.min(month / monthsSince, 1)], only evaluated when
    [monthsSince > 0]. *)
Definition recoveryProgress (month : nat) (monthsSince : option Z) : Q :=
  match monthsSince with
  | Some n => Qmin (inject_Z (Z.of_nat month) / inject_Z n) 1
  | None => 0
  end.

(** The body of the [for] loop. *)
Definition addMonth (record : FundData.t) (monthsSince : option Z)
  (providerCurve : ProviderCurve) (month : nat) : ProviderCurve :=
  let providerCurve :=
    if JsMap.has Nat.eqb month providerCurve then providerCurve
    else JsMap.set Nat.eqb month newMonthData providerCurve in
  match JsMap.get Nat.eqb month providerCurve with
  | Some monthData =>
      JsMap.set Nat.eqb month
        {| totalInvested :=
             totalInvested monthData + Js.orZero (FundData.total_sent record);
           totalRecovered :=
             if Js.truthyNum (FundData.total_repaid record)
                && positive monthsSince
             then totalRecovered monthData
                  + Js.orZero (FundData.total_repaid record)
                    * recoveryProgress month monthsSince
             else totalRecovered monthData;
           caseCount := S (caseCount monthData) |}
        providerCurve
  | None => providerCurve
  end.

(** The body of [data.forEach], at clock reading [now]. *)
Definition step (now : Z) (curveMap : CurveMap) (record : FundData.t)
  : CurveMap :=
  match FundData.provider record with
  | None => curveMap
  | Some provider =>
      let monthsSince := monthsSince now record in
      let curveMap :=
        if JsMap.has String.eqb provider curveMap then curveMap
        else JsMap.set String.eqb provider [] curveMap in
      match JsMap.get String.eqb provider curveMap with
      | Some providerCurve =>
          JsMap.set String.eqb provider
            (fold_left (addMonth record monthsSince) (months monthsSince)
               providerCurve)
            curveMap
      | None => curveMap
      end
  end.

(** [data.forEach(step)].  [clock i] is what [new Date()] returns while the
    record at position [i] is processed. *)
Fixpoint accumulate (clock : nat -> Z) (data : list FundData.t)
  (curveMap : CurveMap) : CurveMap :=
  match data with
  | [] => curveMap
  | record :: data' =>
      accumulate (fun i => clock (S i)) data' (step (clock 0%nat) curveMap record)
  end.

(** A point of the curve. *)
Record CurveData := {
  month : nat;
  provider : string;
  recoveryRate : Q;
  cumulativeRecovery : Q;
  cases : nat
}.

Definition rate (data : MonthData) : Q :=
  if Js.Qlt_bool 0 (totalInvested data)
  then (totalRecovered data / totalInvested data) * 100
  else 0.

(** The body of [providerCurve.forEach]; the state is [cumulative] and the
    array [curves]. *)
Definition emit (provider : string) (st : Q * list CurveData)
  (entry : nat * MonthData) : Q * list CurveData :=
  let recoveryRate := rate (snd entry) in
  let cumulative := fst st + recoveryRate in
  (cumulative,
   snd st ++ [ {| month := fst entry;
                  provider := provider;
                  recoveryRate := recoveryRate;
                  cumulativeRecovery := cumulative;
                  cases := caseCount (snd entry) |} ]).

(** The body of [curveMap.forEach]. *)
Definition emitProvider (curves : list CurveData)
  (entry : string * ProviderCurve) : list CurveData :=
  snd (fold_left (emit (fst entry)) (snd entry) (0, curves)).

Definition toCurves (curveMap : CurveMap) : list CurveData :=
  fold_left emitProvider curveMap [].

(** The value passed to [setCurveData].  (The sorted provider list that is
    also set does not depend on the totals and is not modelled.) *)
Definition fetchCurveData (clock : nat -> Z) (data : list FundData.t)
  : list CurveData :=
  toCurves (accumulate clock data []).

(** The points of one provider, in the order they are emitted. *)
Definition pointsOf (p : string) (curves : list CurveData) : list CurveData :=
  filter (fun c => String.eqb (provider c) p) curves.

(** The month bucket of a provider after accumulation. *)
Definition bucketOf (curveMap : CurveMap) (p : string) (m : nat)
  : option MonthData :=
  match JsMap.get String.eqb p curveMap with
  | Some providerCurve => JsMap.get Nat.eqb m providerCurve
  | None => None
  end.

(** *** The derived views of the page *)

(** [timeRange] and [viewType] *)
Inductive TimeRange := Range6 | Range12 | Range24 | RangeAll.
Inductive ViewType := Cumulative | Monthly | Comparative.

(** [timeRange === 'all' || d.month <= parseInt(timeRange)] *)
Definition inTimeRange (timeRange : TimeRange) (d : CurveData) : bool :=
  match timeRange with
  | RangeAll => true
  | Range6 => (month d <=? 6)%nat
  | Range12 => (month d <=? 12)%nat
  | Range24 => (month d <=? 24)%nat
  end.

(** [selectedProviders.length === 0 || selectedProviders.includes(d.provider)] *)
Definition inProviders (selectedProviders : list string) (d : CurveData)
  : bool :=
  (List.length selectedProviders =? 0)%nat
  || existsb (String.eqb (provider d)) selectedProviders.

Definition filteredData (selectedProviders : list string)
  (timeRange : TimeRange) (curveData : list CurveData) : list CurveData :=
  filter (fun d => inProviders selectedProviders d && inTimeRange timeRange d)
    curveData.

(** [Array.from(new Set(filteredData.map(d => d.month))).sort((a, b) => a - b)] *)
Definition monthsArray (filteredData : list CurveData) : list nat :=
  JsArray.sort
    (fun a b => inject_Z (Z.of_nat a) - inject_Z (Z.of_nat b))
    (JsArray.unique Nat.eqb (map month filteredData)).

(** [viewType === 'cumulative' ? r.cumulativeRecovery : r.recoveryRate] *)
Definition shown (viewType : ViewType) (r : CurveData) : Q :=
  match viewType with
  | Cumulative => cumulativeRecovery r
  | _ => recoveryRate r
  end.

(** [Math.min(...xs)] and [Math.max(...xs)]; [None] is the infinity they
    return on an empty list. *)
Definition minOf (xs : list Q) : option Q :=
  match xs with
  | [] => None
  | x :: xs' => Some (fold_left Qmin xs' x)
  end.

Definition maxOf (xs : list Q) : option Q :=
  match xs with
  | [] => None
  | x :: xs' => Some (fold_left Qmax xs' x)
  end.

(** A point of the average curve. *)
Record AveragePoint := {
  av_month : nat;
  av_average : Js.num;
  av_min : option Q;
  av_max : option Q
}.

Definition averageCurve (viewType : ViewType) (filteredData : list CurveData)
  : list AveragePoint :=
  map (fun m =>
         let monthRecords :=
           filter (fun d => (month d =? m)%nat) filteredData in
         let avgRecovery :=
           Js.div
             (Js.fin (fold_left (fun sum r => sum + recoveryRate r)
                        monthRecords 0))
             (Js.fin (inject_Z (Z.of_nat (List.length monthRecords)))) in
         let avgCumulative :=
           Js.div
             (Js.fin (fold_left (fun sum r => sum + cumulativeRecovery r)
                        monthRecords 0))
             (Js.fin (inject_Z (Z.of_nat (List.length monthRecords)))) in
         {| av_month := m;
            av_average := match viewType with
                          | Cumulative => avgCumulative
                          | _ => avgRecovery
                          end;
            av_min := minOf (map (shown viewType) monthRecords);
            av_max := maxOf (map (shown viewType) monthRecords) |})
      (monthsArray filteredData).

End Curves.

(** ** Predicates and sample rows used below *)

(** Each bucket of a provider map carries its key as its name. *)
Definition named (m : Providers.ProviderMap) : Prop :=
  forall k p, In (k, p) m -> Providers.provider_name_per_tbr p = k.

(** A row of provider ["X"] with the given amounts, status and flag. *)
Definition sampleRecord (sent repaid : Q) (status : option string)
  (flag : option bool) : FundData.t :=
  {| FundData.provider_name_per_tbr := Some "X"%string;
     FundData.total_sent := Some sent;
     FundData.total_repaid := Some repaid;
     FundData.case_status := status;
     FundData.repaid := flag;
     FundData.origination_date := JsDate.Null;
     FundData.repayment_date := JsDate.Null |}.

(** A row of provider ["X"] whose origination date is a non-empty string
    that is not a date. *)
Definition invalidDateRecord : FundData.t :=
  {| FundData.provider_name_per_tbr := Some "X"%string;
     FundData.total_sent := Some 100;
     FundData.total_repaid := Some 50;
     FundData.case_status := Some "Closed"%string;
     FundData.repaid := Some true;
     FundData.origination_date := JsDate.Unparsable;
     FundData.repayment_date := JsDate.Null |}.

(** A provider aggregate with the given totals and nothing else. *)
Definition sampleProvider (invested recovered : Q) (cases : nat)
  : Analytics.Provider :=
  {| Analytics.provider := "X"%string;
     Analytics.totalInvested := invested;
     Analytics.totalRecovered := recovered;
     Analytics.caseCount := cases;
     Analytics.recoveryTimes := [];
     Analytics.monthlyPerformance := [] |}.

(** The points a provider's curve is converted to, with the running
    total started at [cumulative]: the closed form of
    [providerCurve.forEach(emit)]. *)
Fixpoint curvePoints (provider : string) (cumulative : Q)
  (providerCurve : Curves.ProviderCurve) : list Curves.CurveData :=
  match providerCurve with
  | [] => []
  | (month, data) :: rest =>
      let cumulative := cumulative + Curves.rate data in
      {| Curves.month := month;
         Curves.provider := provider;
         Curves.recoveryRate := Curves.rate data;
         Curves.cumulativeRecovery := cumulative;
         Curves.cases := Curves.caseCount data |}
      :: curvePoints provider cumulative rest
  end.

(** The update [Curves.addMonth] makes to a month bucket. *)
Definition addCase (record : FundData.t) (monthsSince : option Z)
  (month : nat) (monthData : Curves.MonthData) : Curves.MonthData :=
  {| Curves.totalInvested :=
       Curves.totalInvested monthData + Js.orZero (FundData.total_sent record);
     Curves.totalRecovered :=
       if Js.truthyNum (FundData.total_repaid record)
          && Curves.positive monthsSince
       then Curves.totalRecovered monthData
            + Js.orZero (FundData.total_repaid record)
              * Curves.recoveryProgress month monthsSince
       else Curves.totalRecovered monthData;
     Curves.caseCount := S (Curves.caseCount monthData) |}.

(** The months of a provider's curve are [0, 1, ..., n - 1], in order. *)
Definition contiguous (providerCurve : Curves.ProviderCurve) : Prop :=
  JsMap.keys providerCurve = seq 0 (List.length providerCurve).


(** A row of provider ["X"] with 100 sent and 50 repaid, originated at the
    epoch and repaid ten 30-day months later. *)
Definition tenMonthRecord : FundData.t :=
  {| FundData.provider_name_per_tbr := Some "X"%string;
     FundData.total_sent := Some 100;
     FundData.total_repaid := Some 50;
     FundData.case_status := Some "Closed"%string;
     FundData.repaid := Some true;
     FundData.origination_date := JsDate.Parsed 0;
     FundData.repayment_date := JsDate.Parsed 25920000000 |}.

(** A row of provider ["X"] that has not been repaid yet. *)
Definition ongoingRecord : FundData.t :=
  {| FundData.provider_name_per_tbr := Some "X"%string;
     FundData.total_sent := Some 100;
     FundData.total_repaid := None;
     FundData.case_status := Some "Pending"%string;
     FundData.repaid := None;
     FundData.origination_date := JsDate.Parsed 0;
     FundData.repayment_date := JsDate.Null |}.

(** The number [Providers.compareBy] orders the rows by, largest first. *)
Definition sortKey (sortBy : Providers.SortBy) (p : Providers.ProviderData)
  : Q :=
  match sortBy with
  | Providers.SortName => 0
  | Providers.SortInvested => Providers.total_sent p
  | Providers.SortRepaid => Providers.total_repaid p
  | Providers.SortMultiple => Providers.avg_multiple p
  end.

(** The update [Analytics.step] makes to the object of a record's
    provider, once the month of the record is known. *)
Definition analyticsAdd (record : FundData.t) (month : JsDate.monthKey)
  (analytics : Analytics.Provider) : Analytics.Provider :=
  {| Analytics.provider := Analytics.provider analytics;
     Analytics.totalInvested :=
       Analytics.totalInvested analytics
       + Js.orZero (FundData.total_sent record);
     Analytics.totalRecovered :=
       Analytics.totalRecovered analytics
       + Js.orZero (FundData.total_repaid record);
     Analytics.caseCount := S (Analytics.caseCount analytics);
     Analytics.recoveryTimes :=
       match Analytics.recoveryDays record with
       | Some d => Analytics.recoveryTimes analytics ++ [d]
       | None => Analytics.recoveryTimes analytics
       end;
     Analytics.monthlyPerformance :=
       Analytics.addMonth (Analytics.monthlyPerformance analytics) month
         record |}.

(** [Analytics.step] on a record it does not throw on. *)
Definition analyticsStep (providerAnalytics : Analytics.AnalyticsMap)
  (record : FundData.t) : Analytics.AnalyticsMap :=
  match FundData.provider record,
        JsDate.getTime (FundData.origination_date record) with
  | Some k, Some ms =>
      JsMap.upsert String.eqb k (Analytics.newProvider k)
        (analyticsAdd record (JsDate.isoMonth ms)) providerAnalytics
  | _, _ => providerAnalytics
  end.

(** A record the analytics loop accepts: it has no provider, or its
    origination date has a time value. *)
Definition accepted (record : FundData.t) : Prop :=
  Providers.hasProvider record = true ->
  JsDate.getTime (FundData.origination_date record) <> None.

(** What the analytics loop keeps true of the object of a provider. *)
Record AnalyticsInv (analytics : Analytics.Provider) : Prop := {
  inv_months :
    (1 <= List.length (Analytics.monthlyPerformance analytics)
     <= Analytics.caseCount analytics)%nat;
  inv_times :
    (List.length (Analytics.recoveryTimes analytics)
     <= Analytics.caseCount analytics)%nat;
  inv_keys : NoDup (JsMap.keys (Analytics.monthlyPerformance analytics))
}.

(** The body of the reduction in [Analytics.gradeDistribution]. *)
Definition gradeStep (acc : list (string * nat))
  (item : Analytics.AnalyticsData) : list (string * nat) :=
  JsMap.set String.eqb (Analytics.a_investmentGrade item)
    (match JsMap.get String.eqb (Analytics.a_investmentGrade item) acc with
     | Some count => count
     | None => 0
     end + 1)%nat
    acc.

(** The last month a time range shows, when it has one. *)
Definition rangeBound (timeRange : Curves.TimeRange) : option nat :=
  match timeRange with
  | Curves.Range6 => Some 6%nat
  | Curves.Range12 => Some 12%nat
  | Curves.Range24 => Some 24%nat
  | Curves.RangeAll => None
  end.

(** The number of cases counted in a month of a provider's curve, 0 when
    the month has no bucket. *)
Definition casesAt (providerCurve : Curves.ProviderCurve) (m : nat) : nat :=
  match JsMap.get Nat.eqb m providerCurve with
  | Some d => Curves.caseCount d
  | None => 0
  end.

(** What the accumulation keeps true of a provider's curve: the months
    are 0, 1, ..., at most up to 36; the bucket of month 0 has nothing
    recovered; every bucket counts at least one case, and a later month
    never counts more cases than an earlier one. *)
Record CurveInv (providerCurve : Curves.ProviderCurve) : Prop := {
  cinv_contiguous : contiguous providerCurve;
  cinv_length : (List.length providerCurve <= 37)%nat;
  cinv_start :
    forall d, JsMap.get Nat.eqb 0%nat providerCurve = Some d ->
              Curves.totalRecovered d == 0;
  cinv_cases :
    forall m d, JsMap.get Nat.eqb m providerCurve = Some d ->
                (1 <= Curves.caseCount d)%nat;
  cinv_decreasing :
    forall m, (casesAt providerCurve (S m) <= casesAt providerCurve m)%nat
}.

(** No month bucket has a negative recovered total. *)
Definition recoveredNonneg (providerCurve : Curves.ProviderCurve) : Prop :=
  Forall (fun d => 0 <= Curves.totalRecovered d) (JsMap.values providerCurve).

(** ** The provider table in binary64

    The totals of the provider table are JavaScript numbers, that is
    binary64 floating-point numbers, and their additions round.  This
    module is the aggregation of [Providers] with every number a [float]
    and every operation the IEEE 754 one; it is what statements that
    depend on the order of the additions are made about. *)

Module Binary64.

Import PrimFloat.

(** [v || 0] for a nullable numeric column: [null], [NaN], [0] and [-0]
    all give [0]. *)
Definition orZero (v : option float) : float :=
  match v with
  | Some x =>
      if PrimFloat.eqb x x && negb (PrimFloat.eqb x 0%float) then x
      else 0%float
  | None => 0%float
  end.

(** The columns of a row of [fund_data] that the provider table reads. *)
Module FundData.

Record t := {
  provider_name_per_tbr : option string;
  total_sent : option float;
  total_repaid : option float;
  case_status : option string;
  repaid : option bool
}.

(** The provider of a row, when [if (!provider) return] lets it pass. *)
Definition provider (record : t) : option string :=
  Js.truthyStr (provider_name_per_tbr record).

End FundData.

(** The aggregation of src/app/providers/page.tsx. *)
Module Providers.

(** The object kept per provider in [providerMap]. *)
Record Bucket := {
  provider_name_per_tbr : string;
  total_sent : float;
  total_repaid : float;
  case_count : float;
  pending_cases : float;
  closed_cases : float;
  total_multiple : float
}.

Definition newBucket (provider : string) : Bucket :=
  {| provider_name_per_tbr := provider;
     total_sent := 0%float;
     total_repaid := 0%float;
     case_count := 0%float;
     pending_cases := 0%float;
     closed_cases := 0%float;
     total_multiple := 0%float |}.

(** [record.case_status === 'Pending'] *)
Definition isPending (record : FundData.t) : bool :=
  match FundData.case_status record with
  | Some s => String.eqb s "Pending"
  | None => false
  end.

(** The updates made to the bucket [p] of a record's provider. *)
Definition addRecord (p : Bucket) (record : FundData.t) : Bucket :=
  {| provider_name_per_tbr := provider_name_per_tbr p;
     total_sent :=
       PrimFloat.add (total_sent p) (orZero (FundData.total_sent record));
     total_repaid :=
       PrimFloat.add (total_repaid p)
         (orZero (FundData.total_repaid record));
     case_count := PrimFloat.add (case_count p) 1%float;
     pending_cases :=
       if isPending record then PrimFloat.add (pending_cases p) 1%float
       else pending_cases p;
     closed_cases :=
       if isPending record then closed_cases p
       else if Js.truthyFlag (FundData.repaid record)
            then PrimFloat.add (closed_cases p) 1%float
            else closed_cases p;
     total_multiple :=
       match FundData.total_sent record with
       | Some sent =>
           if PrimFloat.ltb 0%float sent
           then PrimFloat.add (total_multiple p)
                  (PrimFloat.div (orZero (FundData.total_repaid record))
                     sent)
           else total_multiple p
       | None => total_multiple p
       end |}.

Definition ProviderMap := list (string * Bucket).

(** The body of [data.forEach]. *)
Definition step (providerMap : ProviderMap) (record : FundData.t)
  : ProviderMap :=
  match FundData.provider record with
  | None => providerMap
  | Some provider =>
      let providerMap :=
        if JsMap.has String.eqb provider providerMap then providerMap
        else JsMap.set String.eqb provider (newBucket provider) providerMap in
      match JsMap.get String.eqb provider providerMap with
      | Some p =>
          JsMap.set String.eqb provider (addRecord p record) providerMap
      | None => providerMap
      end
  end.

Definition aggregate (data : list FundData.t) : ProviderMap :=
  fold_left step data [].

(** An element of [processedProviders]. *)
Record ProviderData := {
  bucket : Bucket;
  avg_multiple : float;
  recovery_rate : float
}.

Definition finish (p : Bucket) : ProviderData :=
  {| bucket := p;
     avg_multiple :=
       if PrimFloat.ltb 0%float (case_count p)
       then PrimFloat.div (total_multiple p) (case_count p)
       else 0%float;
     recovery_rate :=
       if PrimFloat.ltb 0%float (total_sent p)
       then PrimFloat.mul
              (PrimFloat.div (total_repaid p) (total_sent p)) 100%float
       else 0%float |}.

Definition fetchProviderData (data : list FundData.t) : list ProviderData :=
  map finish (JsMap.values (aggregate data)).

(** The portfolio totals, [providers.reduce(...)]. *)
Record Totals := {
  invested : float;
  repaid : float;
  cases : float
}.

Definition totals (providers : list ProviderData) : Totals :=
  fold_left
    (fun acc p =>
       {| invested := PrimFloat.add (invested acc) (total_sent (bucket p));
          repaid :=
            PrimFloat.add (repaid acc) (total_repaid (bucket p));
          cases := PrimFloat.add (cases acc) (case_count (bucket p)) |})
    providers
    {| invested := 0%float; repaid := 0%float; cases := 0%float |}.

(** The records attributed to a provider, and those attributed to any. *)
Definition attributedTo (k : string) (record : FundData.t) : bool :=
  match FundData.provider record with
  | Some p => String.eqb p k
  | None => false
  end.

Definition hasProvider (record : FundData.t) : bool :=
  match FundData.provider record with Some _ => true | None => false end.

Definition sent (record : FundData.t) : float :=
  orZero (FundData.total_sent record).
Definition repaidAmount (record : FundData.t) : float :=
  orZero (FundData.total_repaid record).

(** The sum of a list of amounts, added from left to right from 0. *)
Definition sum (xs : list float) : float := fold_left PrimFloat.add xs 0%float.

(** A row with a provider and an amount sent, and three such rows in which
    provider ["X"] has a record before and a record after the one of
    ["Y"]: 0.1, 0.1 and 0.4 to the nearest binary64. *)
Definition row (name : string) (amount : float) : FundData.t :=
  {| FundData.provider_name_per_tbr := Some name;
     FundData.total_sent := Some amount;
     FundData.total_repaid := None;
     FundData.case_status := None;
     FundData.repaid := None |}.

Definition interleaved : list FundData.t :=
  [row "X" 0x1.999999999999ap-4%float;
   row "Y" 0x1.999999999999ap-4%float;
   row "X" 0x1.999999999999ap-2%float].

(** 0.59999999999999998 and 0.60000000000000009, the two neighbours of
    0.6 that the two orders of addition give. *)
Definition below_six_tenths : float := 0x1.3333333333333p-1%float.
Definition above_six_tenths : float := 0x1.3333333333334p-1%float.

End Providers.

End Binary64.

(** ** Further predicates and sample rows *)

(** Each bucket of a binary64 provider map carries its key as its name. *)
Definition b64_named (m : Binary64.Providers.ProviderMap) : Prop :=
  forall k p, In (k, p) m -> Binary64.Providers.provider_name_per_tbr p = k.

(** The records of provider [k] that have something sent: those whose
    multiple is added to [total_multiple]. *)
Definition withSent (k : string) (record : FundData.t) : bool :=
  Providers.attributedTo k record && Js.Qlt_bool 0 (Providers.sent record).

(** A row of provider ["Y"] with 100 sent and 100 repaid, originated at
    the epoch and repaid ten 30-day months later. *)
Definition otherProviderRecord : FundData.t :=
  {| FundData.provider_name_per_tbr := Some "Y"%string;
     FundData.total_sent := Some 100;
     FundData.total_repaid := Some 100;
     FundData.case_status := Some "Closed"%string;
     FundData.repaid := Some true;
     FundData.origination_date := JsDate.Parsed 0;
     FundData.repayment_date := JsDate.Parsed 25920000000 |}.

(** The records of provider [k] whose origination date falls in the month
    [month]: those added to that month bucket of the provider. *)
Definition inMonth (k : string) (month : JsDate.monthKey)
  (record : FundData.t) : bool :=
  Providers.attributedTo k record
  && match JsDate.toISOMonth (FundData.origination_date record) with
     | Some m => JsDate.monthKey_eqb m month
     | None => false
     end.

(** * Properties *)

(** ** Finite numbers *)

Lemma Qlt_bool_iff (x y : Q) : Js.Qlt_bool x y = true <-> x < y.
Proof.
  unfold Js.Qlt_bool. rewrite negb_true_iff, <- not_true_iff_false, Qle_bool_iff.
  split; [apply Qnot_le_lt | apply Qlt_not_le].
Qed.

Lemma Qlt_bool_false (x y : Q) : Js.Qlt_bool x y = false <-> y <= x.
Proof.
  unfold Js.Qlt_bool. rewrite negb_false_iff. apply Qle_bool_iff.
Qed.

(** ** Facts about [Map] *)

Section MapFacts.

Context {K V : Type} (eqb : K -> K -> bool).
Hypothesis eqb_eq : forall a b, eqb a b = true <-> a = b.

Lemma map_eqb_refl k : eqb k k = true.
Proof. now apply eqb_eq. Qed.

Lemma map_eqb_neq a b : a <> b -> eqb a b = false.
Proof.
  intros H. destruct (eqb a b) eqn:E; [|reflexivity].
  apply eqb_eq in E. contradiction.
Qed.

Lemma get_set_same k v (m : list (K * V)) : JsMap.get eqb k (JsMap.set eqb k v m) = Some v.
Proof.
  induction m as [|[k' v'] m IH]; simpl.
  - now rewrite map_eqb_refl.
  - destruct (eqb k k') eqn:E; simpl; rewrite E; auto.
Qed.

Lemma get_set_other k k' v (m : list (K * V)) : k <> k' -> JsMap.get eqb k' (JsMap.set eqb k v m) = JsMap.get eqb k' m.
Proof.
  intros Hne. induction m as [|[k0 v0] m IH]; simpl.
  - rewrite map_eqb_neq; auto.
  - destruct (eqb k k0) eqn:E; simpl.
    + apply eqb_eq in E. subst k0. rewrite map_eqb_neq; auto.
    + now rewrite IH.
Qed.

Lemma get_None_notin k (m : list (K * V)) : JsMap.get eqb k m = None <-> ~ In k (JsMap.keys m).
Proof.
  induction m as [|[k' v'] m IH]; simpl.
  - tauto.
  - destruct (eqb k k') eqn:E.
    + apply eqb_eq in E. subst. split; [discriminate | tauto].
    + rewrite IH. split.
      * intros H [H1|H1]; [subst; rewrite map_eqb_refl in E; discriminate | tauto].
      * tauto.
Qed.

Lemma set_present k v (m : list (K * V)) :
  JsMap.get eqb k m <> None -> JsMap.keys (JsMap.set eqb k v m) = JsMap.keys m.
Proof.
  induction m as [|[k' v'] m IH]; simpl; intros H.
  - congruence.
  - destruct (eqb k k') eqn:E; simpl; [reflexivity|].
    now rewrite IH.
Qed.

Lemma set_absent k v (m : list (K * V)) :
  JsMap.get eqb k m = None -> JsMap.set eqb k v m = m ++ [(k, v)].
Proof.
  induction m as [|[k' v'] m IH]; simpl; intros H.
  - reflexivity.
  - destruct (eqb k k') eqn:E; [discriminate|].
    now rewrite IH.
Qed.

Lemma keys_set_NoDup k v (m : list (K * V)) : NoDup (JsMap.keys m) -> NoDup (JsMap.keys (JsMap.set eqb k v m)).
Proof.
  intros H. destruct (JsMap.get eqb k m) eqn:G.
  - rewrite set_present; [assumption | congruence].
  - rewrite set_absent by assumption. unfold JsMap.keys. rewrite map_app. simpl.
    apply NoDup_app; [assumption | repeat constructor; simpl; tauto |].
    intros x Hx [Hx'|[]]. subst x. now apply get_None_notin in G.
Qed.

Lemma get_In k v (m : list (K * V)) : JsMap.get eqb k m = Some v -> In (k, v) m.
Proof.
  induction m as [|[k' v'] m IH]; simpl; [discriminate|].
  destruct (eqb k k') eqn:E.
  - intros [= ->]. apply eqb_eq in E. subst. now left.
  - intros H. right. auto.
Qed.

Lemma In_get k v (m : list (K * V)) : NoDup (JsMap.keys m) -> In (k, v) m -> JsMap.get eqb k m = Some v.
Proof.
  induction m as [|[k' v'] m IH]; simpl; [tauto|].
  intros Hnd [H|H].
  - injection H as -> ->. now rewrite map_eqb_refl.
  - inversion Hnd as [|? ? Hni Hnd']; subst.
    destruct (eqb k k') eqn:E.
    + apply eqb_eq in E. subst. exfalso. apply Hni.
      change k' with (fst (k', v)). now apply in_map.
    + auto.
Qed.

(** Every value of the updated map is the new one or an old one. *)
Lemma values_set_Forall (P : V -> Prop) k v (m : list (K * V)) :
  Forall P (JsMap.values m) -> P v -> Forall P (JsMap.values (JsMap.set eqb k v m)).
Proof.
  intros H Hv. induction m as [|[k' v'] m IH]; simpl in *.
  - auto.
  - inversion H; subst. destruct (eqb k k'); simpl; auto.
Qed.

Lemma get_Forall (P : V -> Prop) k v (m : list (K * V)) :
  Forall P (JsMap.values m) -> JsMap.get eqb k m = Some v -> P v.
Proof.
  intros H G. apply get_In in G. rewrite Forall_forall in H. apply H.
  change v with (snd (k, v)). now apply in_map.
Qed.

End MapFacts.

(** ** The look-up-or-create idiom *)

Section UpsertFacts.

Context {K V : Type} (eqb : K -> K -> bool).
Hypothesis eqb_eq : forall a b, eqb a b = true <-> a = b.

Lemma set_set k v v' (m : list (K * V)) :
  JsMap.set eqb k v' (JsMap.set eqb k v m) = JsMap.set eqb k v' m.
Proof.
  induction m as [|[k0 v0] m IH]; simpl.
  - now rewrite (map_eqb_refl eqb eqb_eq).
  - destruct (eqb k k0) eqn:E; simpl; rewrite E; [reflexivity|].
    now rewrite IH.
Qed.

(** The idiom as the pages write it is [JsMap.upsert]. *)
Lemma upsert_idiom k fresh (f : V -> V) (m : list (K * V)) :
  (let m' := if JsMap.has eqb k m then m else JsMap.set eqb k fresh m in
   match JsMap.get eqb k m' with
   | Some p => JsMap.set eqb k (f p) m'
   | None => m'
   end) = JsMap.upsert eqb k fresh f m.
Proof.
  unfold JsMap.upsert, JsMap.has. destruct (JsMap.get eqb k m) as [p|] eqn:G; simpl.
  - now rewrite G.
  - rewrite (get_set_same eqb eqb_eq). apply set_set.
Qed.

Lemma get_upsert_same k fresh f (m : list (K * V)) :
  JsMap.get eqb k (JsMap.upsert eqb k fresh f m)
  = Some (f (match JsMap.get eqb k m with Some p => p | None => fresh end)).
Proof. apply (get_set_same eqb eqb_eq). Qed.

Lemma get_upsert_other k k' fresh f (m : list (K * V)) :
  k <> k' ->
  JsMap.get eqb k' (JsMap.upsert eqb k fresh f m) = JsMap.get eqb k' m.
Proof. apply (get_set_other eqb eqb_eq). Qed.

Lemma upsert_NoDup k fresh f (m : list (K * V)) :
  NoDup (JsMap.keys m) -> NoDup (JsMap.keys (JsMap.upsert eqb k fresh f m)).
Proof. apply (keys_set_NoDup eqb eqb_eq). Qed.

Lemma upsert_Forall (P : V -> Prop) k fresh f (m : list (K * V)) :
  Forall P (JsMap.values m) -> P fresh -> (forall p, P p -> P (f p)) ->
  Forall P (JsMap.values (JsMap.upsert eqb k fresh f m)).
Proof.
  intros Hm Hfresh Hf. apply values_set_Forall; [assumption|].
  apply Hf. destruct (JsMap.get eqb k m) eqn:G; [|assumption].
  eapply (get_Forall eqb eqb_eq); eassumption.
Qed.

(** The total of a measure over the values moves by the change under [k]. *)
Lemma Qsum_set (g : V -> Q) k v (m : list (K * V)) :
  Qsum (map g (JsMap.values (JsMap.set eqb k v m)))
  == Qsum (map g (JsMap.values m)) + g v
     - match JsMap.get eqb k m with Some o => g o | None => 0 end.
Proof.
  induction m as [|[k0 v0] m IH]; simpl.
  - ring.
  - destruct (eqb k k0) eqn:E; simpl.
    + ring.
    + rewrite IH. ring.
Qed.

Lemma Qsum_upsert (g : V -> Q) k fresh f (m : list (K * V)) (d : Q) :
  g fresh == 0 ->
  (forall p, g (f p) == g p + d) ->
  Qsum (map g (JsMap.values (JsMap.upsert eqb k fresh f m)))
  == Qsum (map g (JsMap.values m)) + d.
Proof.
  intros Hfresh Hf. unfold JsMap.upsert. rewrite Qsum_set, Hf.
  destruct (JsMap.get eqb k m); [ring | rewrite Hfresh; ring].
Qed.

End UpsertFacts.

(** ** The provider table *)

Section ProviderFacts.

Import Providers.

Lemma string_eqb_eq (a b : string) : String.eqb a b = true <-> a = b.
Proof. apply String.eqb_eq. Qed.

(** [step] is an upsert of the record's provider. *)
Lemma step_upsert m record :
  step m record =
  match FundData.provider record with
  | Some k =>
      JsMap.upsert String.eqb k (newBucket k) (fun p => addRecord p record) m
  | None => m
  end.
Proof.
  unfold step. destruct (FundData.provider record) as [k|]; [|reflexivity].
  apply (upsert_idiom String.eqb string_eqb_eq k (newBucket k)
           (fun p => addRecord p record) m).
Qed.

(** The measures of the conservation law: how much a record adds. *)
Lemma step_total (g : Bucket -> Q) (h : FundData.t -> Q) m record :
  (forall k, g (newBucket k) == 0) ->
  (forall p r, g (addRecord p r) == g p + h r) ->
  Qsum (map g (JsMap.values (step m record)))
  == Qsum (map g (JsMap.values m))
     + (if hasProvider record then h record else 0).
Proof.
  intros Hnew Hadd. rewrite step_upsert. unfold hasProvider.
  destruct (FundData.provider record) as [k|].
  - apply Qsum_upsert; auto.
  - ring.
Qed.

Lemma aggregate_total (g : Bucket -> Q) (h : FundData.t -> Q) data :
  (forall k, g (newBucket k) == 0) ->
  (forall p r, g (addRecord p r) == g p + h r) ->
  forall m,
  Qsum (map g (JsMap.values (fold_left step data m)))
  == Qsum (map g (JsMap.values m)) + Qsum (map h (filter hasProvider data)).
Proof.
  intros Hnew Hadd. induction data as [|r data IH]; intros m; simpl.
  - ring.
  - rewrite IH, (step_total g h) by assumption.
    destruct (hasProvider r); simpl; ring.
Qed.

(** The bucket of one provider only sees the records attributed to it. *)
Lemma get_step k m record :
  JsMap.get String.eqb k (step m record) =
  if attributedTo k record
  then Some (addRecord
               (match JsMap.get String.eqb k m with
                | Some p => p | None => newBucket k end) record)
  else JsMap.get String.eqb k m.
Proof.
  rewrite step_upsert. unfold attributedTo.
  destruct (FundData.provider record) as [k'|]; [|reflexivity].
  destruct (String.eqb k' k) eqn:E.
  - apply String.eqb_eq in E. subst k'.
    exact (get_upsert_same String.eqb string_eqb_eq k (newBucket k)
             (fun p => addRecord p record) m).
  - apply (get_upsert_other String.eqb string_eqb_eq).
    intros ->. rewrite String.eqb_refl in E. discriminate.
Qed.

Lemma get_aggregate_total (g : Bucket -> Q) (h : FundData.t -> Q) k data :
  (forall k, g (newBucket k) == 0) ->
  (forall p r, g (addRecord p r) == g p + h r) ->
  forall m,
  match JsMap.get String.eqb k (fold_left step data m) with
  | Some p =>
      g p == match JsMap.get String.eqb k m with Some p0 => g p0 | None => 0 end
             + Qsum (map h (filter (attributedTo k) data))
  | None => JsMap.get String.eqb k m = None /\ filter (attributedTo k) data = []
  end.
Proof.
  intros Hnew Hadd. induction data as [|r data IH]; intros m; simpl.
  - destruct (JsMap.get String.eqb k m); [ring | auto].
  - specialize (IH (step m r)). rewrite get_step in IH.
    destruct (JsMap.get String.eqb k (fold_left step data (step m r))) as [p|].
    + rewrite IH. destruct (attributedTo k r); simpl; [|ring].
      rewrite Hadd. destruct (JsMap.get String.eqb k m); [ring|].
      rewrite Hnew. ring.
    + destruct (attributedTo k r); [destruct IH; discriminate | assumption].
Qed.

Lemma set_In {A} (k : string) (v : A) m x :
  In x (JsMap.set String.eqb k v m) -> In x m \/ x = (k, v).
Proof.
  induction m as [|[k0 v0] m IH]; simpl.
  - intros [H|[]]; auto.
  - destruct (String.eqb k k0) eqn:E; simpl.
    + apply String.eqb_eq in E. subst k0. intros [H|H]; auto.
    + intros [H|H]; auto. destruct (IH H); auto.
Qed.

Lemma step_named m record : named m -> named (step m record).
Proof.
  intros Hm. rewrite step_upsert.
  destruct (FundData.provider record) as [k|]; [|assumption].
  intros k' p Hin. apply set_In in Hin. destruct Hin as [Hin|Hin].
  - now apply Hm.
  - injection Hin as -> ->. simpl.
    destruct (JsMap.get String.eqb k m) as [p0|] eqn:G; [|reflexivity].
    apply Hm. now apply (get_In String.eqb string_eqb_eq).
Qed.

Lemma step_NoDup m record :
  NoDup (JsMap.keys m) -> NoDup (JsMap.keys (step m record)).
Proof.
  intros H. rewrite step_upsert.
  destruct (FundData.provider record); [|assumption].
  now apply (upsert_NoDup String.eqb string_eqb_eq).
Qed.

Lemma aggregate_keys data :
  forall m, NoDup (JsMap.keys m) -> named m ->
  NoDup (JsMap.keys (fold_left step data m)) /\ named (fold_left step data m).
Proof.
  induction data as [|r data IH]; intros m Hnd Hn; simpl.
  - auto.
  - apply IH; [now apply step_NoDup | now apply step_named].
Qed.

Lemma named_keys m :
  named m -> map provider_name_per_tbr (JsMap.values m) = JsMap.keys m.
Proof.
  induction m as [|[k p] m IH]; intros H; simpl.
  - reflexivity.
  - rewrite IH.
    + f_equal. apply H. now left.
    + intros k' p' Hin. apply H. now right.
Qed.

Lemma aggregate_Forall (P : Bucket -> Prop) data :
  (forall k, P (newBucket k)) ->
  (forall p r, P p -> P (addRecord p r)) ->
  forall m, Forall P (JsMap.values m) ->
  Forall P (JsMap.values (fold_left step data m)).
Proof.
  intros Hnew Hadd. induction data as [|r data IH]; intros m Hm; simpl.
  - assumption.
  - apply IH. rewrite step_upsert.
    destruct (FundData.provider r) as [k|]; [|assumption].
    apply (upsert_Forall String.eqb string_eqb_eq); auto.
Qed.

End ProviderFacts.

(** The counters count records, one at a time. *)
Lemma get_aggregate_count k data :
  forall m,
  match JsMap.get String.eqb k (fold_left Providers.step data m) with
  | Some p =>
      Providers.case_count p
      = (match JsMap.get String.eqb k m with
         | Some p0 => Providers.case_count p0 | None => 0 end
         + List.length (filter (Providers.attributedTo k) data))%nat
  | None => True
  end.
Proof.
  induction data as [|r data IH]; intros m; simpl.
  - destruct (JsMap.get String.eqb k m); [lia | exact I].
  - specialize (IH (Providers.step m r)). rewrite get_step in IH.
    destruct (JsMap.get String.eqb k (fold_left Providers.step data (Providers.step m r)));
      [|exact I].
    rewrite IH. destruct (Providers.attributedTo k r); simpl; [|lia].
    destruct (JsMap.get String.eqb k m); simpl; lia.
Qed.

Lemma In_fetchProviderData p data :
  In p (Providers.fetchProviderData data) ->
  JsMap.get String.eqb (Providers.provider_name_per_tbr p)
    (Providers.aggregate data) = Some (Providers.bucket p).
Proof.
  unfold Providers.fetchProviderData. intros Hin.
  apply in_map_iff in Hin. destruct Hin as [b [<- Hb]].
  apply in_map_iff in Hb. destruct Hb as [[k b'] [Heq Hin]]. simpl in Heq. subst b'.
  destruct (aggregate_keys data [] (NoDup_nil _)) as [Hnd Hn]; [intros ? ? []|].
  simpl. rewrite (Hn k b Hin).
  now apply (In_get String.eqb string_eqb_eq).
Qed.

Lemma map_fetchProviderData {A} (g : Providers.Bucket -> A) data :
  map (fun p : Providers.ProviderData => g p) (Providers.fetchProviderData data)
  = map g (JsMap.values (Providers.aggregate data)).
Proof.
  unfold Providers.fetchProviderData. rewrite map_map. now apply map_ext.
Qed.

(** In exact arithmetic the per-provider totals conserve the input: summed
    over the provider buckets, [total_sent] is the sum of the amounts sent
    of the records that have a provider, and likewise [total_repaid]; each
    provider has one bucket, whose totals are the sums over the records of
    its own provider.  (The page's binary64 additions round, and there the
    two grand totals can differ in the last place: see [Binary64].) *)
Lemma exact_totals_conserved (data : list FundData.t) :
  let out := Providers.fetchProviderData data in
  Qsum (map (fun p : Providers.ProviderData => Providers.total_sent p) out)
    == Qsum (map Providers.sent (filter Providers.hasProvider data))
  /\ Qsum (map (fun p : Providers.ProviderData => Providers.total_repaid p) out)
    == Qsum (map Providers.repaidAmount (filter Providers.hasProvider data))
  /\ NoDup (map (fun p : Providers.ProviderData => Providers.provider_name_per_tbr p) out)
  /\ (forall p, In p out ->
        Providers.total_sent p
          == Qsum (map Providers.sent
                     (filter (Providers.attributedTo
                                (Providers.provider_name_per_tbr p)) data))
        /\ Providers.total_repaid p
          == Qsum (map Providers.repaidAmount
                     (filter (Providers.attributedTo
                                (Providers.provider_name_per_tbr p)) data)))
  /\ (forall r k, In r data -> FundData.provider r = Some k ->
        exists p, In p out /\ Providers.provider_name_per_tbr p = k).
Proof.
  intros out. subst out.
  assert (Hsent : forall p r, Providers.total_sent (Providers.addRecord p r)
                    == Providers.total_sent p + Providers.sent r)
    by (intros; simpl; reflexivity).
  assert (Hrep : forall p r, Providers.total_repaid (Providers.addRecord p r)
                    == Providers.total_repaid p + Providers.repaidAmount r)
    by (intros; simpl; reflexivity).
  assert (Hnew1 : forall k, Providers.total_sent (Providers.newBucket k) == 0)
    by (intros; simpl; reflexivity).
  assert (Hnew2 : forall k, Providers.total_repaid (Providers.newBucket k) == 0)
    by (intros; simpl; reflexivity).
  destruct (aggregate_keys data [] (NoDup_nil _)) as [Hnd Hn]; [intros ? ? []|].
  fold (Providers.aggregate data) in Hnd, Hn.
  repeat split.
  - rewrite map_fetchProviderData. unfold Providers.aggregate.
    rewrite (aggregate_total _ Providers.sent data Hnew1 Hsent []). simpl. ring.
  - rewrite map_fetchProviderData. unfold Providers.aggregate.
    rewrite (aggregate_total _ Providers.repaidAmount data Hnew2 Hrep []).
    simpl. ring.
  - rewrite map_fetchProviderData, (named_keys _ Hn). exact Hnd.
  - apply In_fetchProviderData in H. unfold Providers.aggregate in H.
    pose proof (get_aggregate_total _ Providers.sent
                  (Providers.provider_name_per_tbr p) data Hnew1 Hsent []) as G.
    rewrite H in G. simpl in G. rewrite G. ring.
  - apply In_fetchProviderData in H. unfold Providers.aggregate in H.
    pose proof (get_aggregate_total _ Providers.repaidAmount
                  (Providers.provider_name_per_tbr p) data Hnew2 Hrep []) as G.
    rewrite H in G. simpl in G. rewrite G. ring.
  - intros r k Hr Hk.
    pose proof (get_aggregate_total _ Providers.sent k data Hnew1 Hsent []) as G.
    destruct (JsMap.get String.eqb k (fold_left Providers.step data []))
      as [b|] eqn:E.
    + exists (Providers.finish b). split.
      * unfold Providers.fetchProviderData. apply in_map.
        apply (get_In String.eqb string_eqb_eq) in E.
        change b with (snd (k, b)). now apply in_map.
      * simpl. apply Hn. now apply (get_In String.eqb string_eqb_eq).
    + destruct G as [_ G]. exfalso.
      assert (Hin : In r (filter (Providers.attributedTo k) data)).
      { apply filter_In. split; [assumption|].
        unfold Providers.attributedTo. rewrite Hk. apply String.eqb_refl. }
      rewrite G in Hin. destruct Hin.
Qed.


(** *** The totals, in binary64 *)

Lemma b64_step_upsert m record :
  Binary64.Providers.step m record =
  match Binary64.FundData.provider record with
  | Some k =>
      JsMap.upsert String.eqb k (Binary64.Providers.newBucket k)
        (fun p => Binary64.Providers.addRecord p record) m
  | None => m
  end.
Proof.
  unfold Binary64.Providers.step.
  destruct (Binary64.FundData.provider record) as [k|]; [|reflexivity].
  apply (upsert_idiom String.eqb string_eqb_eq k
           (Binary64.Providers.newBucket k)
           (fun p => Binary64.Providers.addRecord p record) m).
Qed.

Lemma b64_get_step k m record :
  JsMap.get String.eqb k (Binary64.Providers.step m record) =
  if Binary64.Providers.attributedTo k record
  then Some (Binary64.Providers.addRecord
               (match JsMap.get String.eqb k m with
                | Some p => p
                | None => Binary64.Providers.newBucket k
                end) record)
  else JsMap.get String.eqb k m.
Proof.
  rewrite b64_step_upsert. unfold Binary64.Providers.attributedTo.
  destruct (Binary64.FundData.provider record) as [k'|]; [|reflexivity].
  destruct (String.eqb k' k) eqn:E.
  - apply String.eqb_eq in E. subst k'.
    exact (get_upsert_same String.eqb string_eqb_eq k
             (Binary64.Providers.newBucket k)
             (fun p => Binary64.Providers.addRecord p record) m).
  - apply (get_upsert_other String.eqb string_eqb_eq).
    intros ->. rewrite String.eqb_refl in E. discriminate.
Qed.

(** A total of a bucket is the left-to-right sum of what the records of
    its provider add, whatever the addition is. *)
Lemma b64_get_aggregate_in_order (g : Binary64.Providers.Bucket -> PrimFloat.float)
  (h : Binary64.FundData.t -> PrimFloat.float) k data :
  (forall p r, g (Binary64.Providers.addRecord p r)
               = PrimFloat.add (g p) (h r)) ->
  forall m,
  match JsMap.get String.eqb k (fold_left Binary64.Providers.step data m) with
  | Some p =>
      g p = fold_left PrimFloat.add
              (map h (filter (Binary64.Providers.attributedTo k) data))
              (g match JsMap.get String.eqb k m with
                 | Some p0 => p0
                 | None => Binary64.Providers.newBucket k
                 end)
      /\ (JsMap.get String.eqb k m <> None
          \/ filter (Binary64.Providers.attributedTo k) data <> [])
  | None =>
      JsMap.get String.eqb k m = None
      /\ filter (Binary64.Providers.attributedTo k) data = []
  end.
Proof.
  intros Hadd. induction data as [|r data IH]; intros m; simpl.
  - destruct (JsMap.get String.eqb k m); [|auto].
    split; [reflexivity | left; discriminate].
  - specialize (IH (Binary64.Providers.step m r)). rewrite b64_get_step in IH.
    destruct (JsMap.get String.eqb k
                (fold_left Binary64.Providers.step data
                   (Binary64.Providers.step m r))) as [p|].
    + destruct (Binary64.Providers.attributedTo k r); simpl.
      * destruct IH as [IH _].
        rewrite IH, Hadd. split; [reflexivity | right; discriminate].
      * exact IH.
    + destruct (Binary64.Providers.attributedTo k r);
        [destruct IH; discriminate | exact IH].
Qed.

Lemma b64_aggregate_keys data :
  forall m, NoDup (JsMap.keys m) -> b64_named m ->
  NoDup (JsMap.keys (fold_left Binary64.Providers.step data m))
  /\ b64_named (fold_left Binary64.Providers.step data m).
Proof.
  induction data as [|r data IH]; intros m Hnd Hn; simpl.
  - auto.
  - apply IH; rewrite b64_step_upsert;
      destruct (Binary64.FundData.provider r) as [k|]; try assumption.
    + now apply (upsert_NoDup String.eqb string_eqb_eq).
    + intros k' p Hin. apply set_In in Hin. destruct Hin as [Hin|Hin].
      * now apply Hn.
      * injection Hin as -> ->. simpl.
        destruct (JsMap.get String.eqb k m) as [p0|] eqn:G; [|reflexivity].
        apply Hn. now apply (get_In String.eqb string_eqb_eq).
Qed.

Lemma b64_In_fetchProviderData p data :
  In p (Binary64.Providers.fetchProviderData data) ->
  JsMap.get String.eqb
    (Binary64.Providers.provider_name_per_tbr (Binary64.Providers.bucket p))
    (Binary64.Providers.aggregate data)
  = Some (Binary64.Providers.bucket p).
Proof.
  unfold Binary64.Providers.fetchProviderData. intros Hin.
  apply in_map_iff in Hin. destruct Hin as [b [<- Hb]].
  apply in_map_iff in Hb. destruct Hb as [[k b'] [Heq Hin]].
  simpl in Heq. subst b'.
  destruct (b64_aggregate_keys data [] (NoDup_nil _)) as [Hnd Hn];
    [intros ? ? []|].
  simpl. rewrite (Hn k b Hin).
  now apply (In_get String.eqb string_eqb_eq).
Qed.

(** C1, as stated, fails: the page adds binary64 numbers, and grouping the
    records by provider changes the order of the additions.  For the three
    records X: 0.1, Y: 0.1, X: 0.4 the bucket totals add up to
    0.59999999999999998 and the amounts of the records to
    0.60000000000000009. *)
Lemma provider_totals_not_conserved :
  Binary64.Providers.invested
    (Binary64.Providers.totals
       (Binary64.Providers.fetchProviderData Binary64.Providers.interleaved))
  = Binary64.Providers.below_six_tenths
  /\ Binary64.Providers.sum
       (map Binary64.Providers.sent
          (filter Binary64.Providers.hasProvider
             Binary64.Providers.interleaved))
     = Binary64.Providers.above_six_tenths
  /\ PrimFloat.eqb
       (Binary64.Providers.sum
          (map (fun p => Binary64.Providers.total_sent
                           (Binary64.Providers.bucket p))
             (Binary64.Providers.fetchProviderData
                Binary64.Providers.interleaved)))
       (Binary64.Providers.sum
          (map Binary64.Providers.sent
             (filter Binary64.Providers.hasProvider
                Binary64.Providers.interleaved)))
     = false.
Proof. repeat split; vm_compute; reflexivity. Qed.

(** C1, amended.  For every sequence of records, each provider has one
    bucket; the [total_sent] of a bucket is the sum of the amounts sent of
    exactly the records of its provider, added in record order from 0 with
    the page's own (binary64) addition, and likewise [total_repaid]; every
    record that has a provider is counted in the bucket of that provider,
    and in no other. *)
Theorem bucket_totals_in_record_order (data : list Binary64.FundData.t) :
  let out := Binary64.Providers.fetchProviderData data in
  NoDup (map (fun p => Binary64.Providers.provider_name_per_tbr
                         (Binary64.Providers.bucket p)) out)
  /\ (forall p, In p out ->
        let k := Binary64.Providers.provider_name_per_tbr
                   (Binary64.Providers.bucket p) in
        Binary64.Providers.total_sent (Binary64.Providers.bucket p)
        = Binary64.Providers.sum
            (map Binary64.Providers.sent
               (filter (Binary64.Providers.attributedTo k) data))
        /\ Binary64.Providers.total_repaid (Binary64.Providers.bucket p)
           = Binary64.Providers.sum
               (map Binary64.Providers.repaidAmount
                  (filter (Binary64.Providers.attributedTo k) data))
        /\ filter (Binary64.Providers.attributedTo k) data <> [])
  /\ (forall r k, In r data -> Binary64.FundData.provider r = Some k ->
        exists p, In p out
                  /\ Binary64.Providers.provider_name_per_tbr
                       (Binary64.Providers.bucket p) = k).
Proof.
  intros out. subst out.
  destruct (b64_aggregate_keys data [] (NoDup_nil _)) as [Hnd Hn];
    [intros ? ? []|].
  split; [|split].
  - unfold Binary64.Providers.fetchProviderData. rewrite map_map. simpl.
    replace (map (fun x => Binary64.Providers.provider_name_per_tbr x)
               (JsMap.values (Binary64.Providers.aggregate data)))
      with (JsMap.keys (Binary64.Providers.aggregate data)); [exact Hnd|].
    unfold JsMap.keys, JsMap.values. rewrite map_map.
    apply map_ext_in. intros [k b] Hin. simpl. symmetry. now apply Hn.
  - intros p Hin k. apply b64_In_fetchProviderData in Hin. fold k in Hin.
    unfold Binary64.Providers.aggregate in Hin.
    pose proof (b64_get_aggregate_in_order Binary64.Providers.total_sent
                  Binary64.Providers.sent k data (fun _ _ => eq_refl) [])
      as G1.
    pose proof (b64_get_aggregate_in_order Binary64.Providers.total_repaid
                  Binary64.Providers.repaidAmount k data
                  (fun _ _ => eq_refl) []) as G2.
    rewrite Hin in G1, G2. simpl in G1, G2.
    destruct G1 as [G1 [G|G]]; [now elim G|]. destruct G2 as [G2 _].
    split; [exact G1|]. split; [exact G2 | exact G].
  - intros r k Hr Hk.
    pose proof (b64_get_aggregate_in_order Binary64.Providers.total_sent
                  Binary64.Providers.sent k data (fun _ _ => eq_refl) [])
      as G.
    destruct (JsMap.get String.eqb k
                (fold_left Binary64.Providers.step data [])) as [b|] eqn:E.
    + exists (Binary64.Providers.finish b). split.
      * unfold Binary64.Providers.fetchProviderData. apply in_map.
        apply (get_In String.eqb string_eqb_eq) in E.
        change b with (snd (k, b)). now apply in_map.
      * simpl. apply Hn. now apply (get_In String.eqb string_eqb_eq).
    + destruct G as [_ G]. exfalso.
      assert (Hin : In r (filter (Binary64.Providers.attributedTo k) data)).
      { apply filter_In. split; [assumption|].
        unfold Binary64.Providers.attributedTo. rewrite Hk.
        apply String.eqb_refl. }
      rewrite G in Hin. destruct Hin.
Qed.

Lemma bucket_totals_in_record_order_witness :
  exists p,
    In p (Binary64.Providers.fetchProviderData Binary64.Providers.interleaved)
    /\ Binary64.Providers.provider_name_per_tbr (Binary64.Providers.bucket p)
       = "X"%string
    /\ Binary64.Providers.total_sent (Binary64.Providers.bucket p)
       = Binary64.Providers.sum
           (map Binary64.Providers.sent
              (filter (Binary64.Providers.attributedTo "X")
                 Binary64.Providers.interleaved)).
Proof.
  destruct (bucket_totals_in_record_order Binary64.Providers.interleaved)
    as [_ [Hsum Hrow]].
  destruct (Hrow _ "X"%string (or_introl eq_refl) eq_refl) as [p [Hin Hname]].
  exists p. split; [exact Hin|]. split; [exact Hname|].
  destruct (Hsum p Hin) as [H _]. rewrite Hname in H. exact H.
Defined.

(** *** The counters *)

(** C10.  In every provider bucket the pending and the closed cases
    together are at most the cases: a record attributed to the bucket
    raises [case_count] by one, which makes it the number of records of
    that provider, and raises at most one of the two other counters. *)
Theorem pending_closed_bounded (data : list FundData.t) :
  forall p, In p (Providers.fetchProviderData data) ->
    (Providers.pending_cases p + Providers.closed_cases p
       <= Providers.case_count p)%nat
    /\ Providers.case_count p
       = List.length (filter (Providers.attributedTo
                                (Providers.provider_name_per_tbr p)) data)
    /\ forall r,
        let p' := Providers.addRecord p r in
        Providers.case_count p' = S (Providers.case_count p)
        /\ (Providers.pending_cases p' + Providers.closed_cases p'
              <= S (Providers.pending_cases p + Providers.closed_cases p))%nat.
Proof.
  intros p Hin. repeat split.
  - assert (H : Forall (fun b => (Providers.pending_cases b
                                  + Providers.closed_cases b
                                  <= Providers.case_count b)%nat)
                  (JsMap.values (Providers.aggregate data))).
    { apply aggregate_Forall.
      - intros k. simpl. lia.
      - intros b r Hb. simpl.
        destruct (Providers.isPending r);
          [|destruct (Js.truthyFlag (FundData.repaid r))]; lia.
      - constructor. }
    rewrite Forall_forall in H. apply H.
    unfold Providers.fetchProviderData in Hin. apply in_map_iff in Hin.
    destruct Hin as [b [<- Hb]]. exact Hb.
  - apply In_fetchProviderData in Hin. unfold Providers.aggregate in Hin.
    pose proof (get_aggregate_count (Providers.provider_name_per_tbr p) data [])
      as G.
    rewrite Hin in G. simpl in G. exact G.
  - simpl. destruct (Providers.isPending r);
      [|destruct (Js.truthyFlag (FundData.repaid r))]; lia.
Qed.

Lemma pending_closed_bounded_witness :
  let data := [sampleRecord 1000 500 (Some "Closed"%string) (Some true);
               sampleRecord 500 500 (Some "Pending"%string) None] in
  let p := {| Providers.bucket :=
                {| Providers.provider_name_per_tbr := "X";
                   Providers.total_sent := 1500;
                   Providers.total_repaid := 1000;
                   Providers.case_count := 2;
                   Providers.pending_cases := 1;
                   Providers.closed_cases := 1;
                   Providers.total_multiple := 750000 # 500000 |};
              Providers.avg_multiple := 750000 # 1000000;
              Providers.recovery_rate := 100000 # 1500 |} in
  In p (Providers.fetchProviderData data)
  /\ (Providers.pending_cases p + Providers.closed_cases p
      <= Providers.case_count p)%nat.
Proof.
  intros data p.
  assert (Hin : In p (Providers.fetchProviderData data))
    by (left; reflexivity).
  split; [exact Hin|].
  exact (proj1 (pending_closed_bounded data p Hin)).
Defined.

Lemma isPending_false record :
  FundData.case_status record <> Some "Pending"%string ->
  Providers.isPending record = false.
Proof.
  unfold Providers.isPending. intros H.
  destruct (FundData.case_status record) as [s|]; [|reflexivity].
  destruct (String.eqb s "Pending") eqn:E; [|reflexivity].
  apply String.eqb_eq in E. subst s. now elim H.
Qed.

Lemma isPending_true record :
  FundData.case_status record = Some "Pending"%string ->
  Providers.isPending record = true.
Proof. unfold Providers.isPending. now intros ->. Qed.

(** C5, as stated, fails.  The two records as the claim writes them, with
    the statuses "closed" and "pending" and no repaid flag, aggregate to a
    bucket with 2 cases, 0 pending and 0 closed: the page compares the
    status with the literal 'Pending' and counts a case as closed by its
    [repaid] flag, not by its status.  With the statuses "Closed" and
    "Pending" and the flag not set, the bucket has 1 pending case and still
    0 closed ones. *)
Lemma example_as_written_counts_nothing :
  map (fun p : Providers.ProviderData =>
         (Providers.case_count p, Providers.pending_cases p,
          Providers.closed_cases p))
    (Providers.fetchProviderData
       [sampleRecord 1000 500 (Some "closed"%string) None;
        sampleRecord 500 500 (Some "pending"%string) None])
  = [(2%nat, 0%nat, 0%nat)]
  /\ map (fun p : Providers.ProviderData =>
            (Providers.case_count p, Providers.pending_cases p,
             Providers.closed_cases p))
       (Providers.fetchProviderData
          [sampleRecord 1000 500 (Some "Closed"%string) (Some false);
           sampleRecord 500 500 (Some "Pending"%string) None])
     = [(2%nat, 1%nat, 0%nat)].
Proof. split; reflexivity. Qed.

(** C5, amended.  A first record of provider X with 1000 sent and 500
    repaid whose status is not 'Pending' and whose [repaid] flag is set,
    and a second one of X with 500 sent and 500 repaid whose status is
    'Pending', aggregate to the single bucket X with [total_sent] 1500,
    [total_repaid] 1000, [case_count] 2, [pending_cases] 1 and
    [closed_cases] 1; its recovery rate, repaid over sent, is 0.667 to
    three decimals (the table stores it in percent, 66.67 to two
    decimals, and the scoring computes the same ratio from the same two
    records when their origination dates have a time value).  In general a record raises
    [pending_cases] when its status is exactly 'Pending', and otherwise
    raises [closed_cases] when its [repaid] flag is truthy. *)
Theorem example_two_records (r1 r2 : FundData.t) :
  FundData.provider_name_per_tbr r1 = Some "X"%string ->
  FundData.total_sent r1 = Some 1000 ->
  FundData.total_repaid r1 = Some 500 ->
  FundData.case_status r1 <> Some "Pending"%string ->
  FundData.repaid r1 = Some true ->
  FundData.provider_name_per_tbr r2 = Some "X"%string ->
  FundData.total_sent r2 = Some 500 ->
  FundData.total_repaid r2 = Some 500 ->
  FundData.case_status r2 = Some "Pending"%string ->
  (exists p : Providers.ProviderData,
      Providers.fetchProviderData [r1; r2] = [p]
      /\ JsMap.get String.eqb "X"%string (Providers.aggregate [r1; r2])
         = Some (Providers.bucket p)
      /\ Providers.total_sent p == 1500
      /\ Providers.total_repaid p == 1000
      /\ Providers.case_count p = 2%nat
      /\ Providers.pending_cases p = 1%nat
      /\ Providers.closed_cases p = 1%nat
      /\ 6665 # 10000 <= Providers.total_repaid p / Providers.total_sent p
      /\ Providers.total_repaid p / Providers.total_sent p < 6675 # 10000
      /\ 66665 # 1000 <= Providers.recovery_rate p
      /\ Providers.recovery_rate p < 66675 # 1000)
  /\ (JsDate.getTime (FundData.origination_date r1) <> None ->
      JsDate.getTime (FundData.origination_date r2) <> None ->
      exists a : Analytics.Provider,
        Analytics.forEach [r1; r2] [] = inr [("X"%string, a)]
        /\ Analytics.totalInvested a == 1500
        /\ Analytics.totalRecovered a == 1000
        /\ Analytics.caseCount a = 2%nat
        /\ 6665 # 10000 <= Analytics.recoveryRate a
        /\ Analytics.recoveryRate a < 6675 # 10000)
  /\ (forall (p : Providers.Bucket) (r : FundData.t),
        let p' := Providers.addRecord p r in
        (FundData.case_status r = Some "Pending"%string ->
           Providers.pending_cases p' = S (Providers.pending_cases p)
           /\ Providers.closed_cases p' = Providers.closed_cases p)
        /\ (FundData.case_status r <> Some "Pending"%string ->
            Js.truthyFlag (FundData.repaid r) = true ->
              Providers.pending_cases p' = Providers.pending_cases p
              /\ Providers.closed_cases p' = S (Providers.closed_cases p))
        /\ (FundData.case_status r <> Some "Pending"%string ->
            Js.truthyFlag (FundData.repaid r) = false ->
              Providers.pending_cases p' = Providers.pending_cases p
              /\ Providers.closed_cases p' = Providers.closed_cases p)).
Proof.
  intros Hp1 Hs1 Hr1 Hst1 Hf1 Hp2 Hs2 Hr2 Hst2.
  apply isPending_false in Hst1. apply isPending_true in Hst2.
  split; [|split].
  - assert (Hagg : Providers.aggregate [r1; r2]
                   = [("X"%string,
                       Providers.addRecord
                         (Providers.addRecord (Providers.newBucket "X") r1) r2)]).
    { unfold Providers.aggregate. simpl. rewrite !step_upsert.
      unfold FundData.provider. rewrite Hp1, Hp2. reflexivity. }
    eexists. split; [|split].
    + unfold Providers.fetchProviderData. rewrite Hagg. reflexivity.
    + rewrite Hagg. reflexivity.
    + simpl. rewrite Hst1, Hst2, Hs1, Hs2, Hr1, Hr2, Hf1. simpl.
      repeat split; try reflexivity; try (vm_compute; congruence).
  - intros Hd1 Hd2.
    destruct (JsDate.getTime (FundData.origination_date r1)) as [t1|] eqn:E1;
      [|now elim Hd1].
    destruct (JsDate.getTime (FundData.origination_date r2)) as [t2|] eqn:E2;
      [|now elim Hd2].
    unfold Analytics.forEach, Analytics.step, FundData.provider,
      JsDate.toISOMonth.
    rewrite Hp1, Hp2, E1, E2. cbn. eexists. split; [reflexivity|].
    unfold Analytics.recoveryRate. cbn. rewrite Hs1, Hs2, Hr1, Hr2.
    repeat split; try reflexivity; try (vm_compute; congruence).
  - intros p r p'. subst p'. simpl. repeat split.
    + now rewrite (isPending_true r H).
    + now rewrite (isPending_true r H).
    + now rewrite (isPending_false r H).
    + now rewrite (isPending_false r H), H0.
    + now rewrite (isPending_false r H).
    + now rewrite (isPending_false r H), H0.
Qed.

Lemma example_two_records_witness :
  exists p : Providers.ProviderData,
    Providers.fetchProviderData
      [sampleRecord 1000 500 (Some "Closed"%string) (Some true);
       sampleRecord 500 500 (Some "Pending"%string) None] = [p]
    /\ Providers.total_sent p == 1500
    /\ Providers.total_repaid p == 1000
    /\ Providers.case_count p = 2%nat
    /\ Providers.pending_cases p = 1%nat
    /\ Providers.closed_cases p = 1%nat.
Proof.
  destruct (example_two_records
              (sampleRecord 1000 500 (Some "Closed"%string) (Some true))
              (sampleRecord 500 500 (Some "Pending"%string) None))
    as [[p [H1 [_ [H2 [H3 [H4 [H5 [H6 _]]]]]]]] _];
    try reflexivity; try discriminate.
  exists p. repeat split; assumption.
Defined.

(** ** Scoring *)

(** C3.  The letter grade is a function of the performance score with six
    bands, closed below and tried from the top: 90 gives A, 89.999 gives B,
    50 gives E and 49.999 gives F; in general a score of at least 90 is an
    A, of at least 80 a B, of at least 70 a C, of at least 60 a D, of at
    least 50 an E, and anything else an F. *)
Theorem grade_bands :
  Analytics.investmentGrade (Js.fin 90) = "A"%string
  /\ Analytics.investmentGrade (Js.fin (89999 # 1000)) = "B"%string
  /\ Analytics.investmentGrade (Js.fin 50) = "E"%string
  /\ Analytics.investmentGrade (Js.fin (49999 # 1000)) = "F"%string
  /\ (forall p : Q,
        (90 <= p -> Analytics.investmentGrade (Js.fin p) = "A"%string)
        /\ (80 <= p < 90 -> Analytics.investmentGrade (Js.fin p) = "B"%string)
        /\ (70 <= p < 80 -> Analytics.investmentGrade (Js.fin p) = "C"%string)
        /\ (60 <= p < 70 -> Analytics.investmentGrade (Js.fin p) = "D"%string)
        /\ (50 <= p < 60 -> Analytics.investmentGrade (Js.fin p) = "E"%string)
        /\ (p < 50 -> Analytics.investmentGrade (Js.fin p) = "F"%string))
  /\ (forall sqrt analytics,
        Analytics.a_investmentGrade (Analytics.score sqrt analytics)
        = Analytics.investmentGrade
            (Analytics.a_performanceScore (Analytics.score sqrt analytics))).
Proof.
  repeat split; try reflexivity; intros H;
    unfold Analytics.investmentGrade, Js.ge, Js.fin;
    repeat match goal with
      | |- context [Qle_bool ?a ?b] =>
          let E := fresh "E" in
          destruct (Qle_bool a b) eqn:E;
          [apply Qle_bool_iff in E
          |apply not_true_iff_false in E; rewrite Qle_bool_iff in E];
          try lra
      end;
    try reflexivity.
Qed.

(** The scores of finite inputs, as rationals. *)
Lemma riskScore_fin (r avg : Q) :
  Analytics.riskScore (Js.fin r) (Js.fin avg)
  = Js.fin (Qmax 0 (Qmin 100 ((1 - r) * 50 + Qmin (avg / 365) 1 * 50))).
Proof. reflexivity. Qed.

Lemma performanceScore_fin (r risk : Q) (n : nat) :
  Analytics.performanceScore (Js.fin r) n (Js.fin risk)
  = Js.fin (Qmin 100
              (r * 40 + Qmin (inject_Z (Z.of_nat n) / 10) 1 * 20
               + (1 - risk / 100) * 40)).
Proof. reflexivity. Qed.

(** C2.  With an empty list of recovery durations the average recovery time
    is the default 365 days, and the risk score is
    clamp(0, 100, (1 - recoveryRate) * 50 + min(365 / 365, 1) * 50), where
    the recovery rate is recovered over invested when the invested total is
    positive and 0 otherwise.  The score is determined by the two totals. *)
Theorem risk_score_default (sqrt : Q -> Q) (analytics : Analytics.Provider) :
  Analytics.recoveryTimes analytics = [] ->
  Analytics.avgRecoveryTime analytics = Js.fin 365
  /\ (0 < Analytics.totalInvested analytics ->
        Analytics.recoveryRate analytics
        == Analytics.totalRecovered analytics
           / Analytics.totalInvested analytics)
  /\ (~ 0 < Analytics.totalInvested analytics ->
        Analytics.recoveryRate analytics == 0)
  /\ Analytics.a_riskScore (Analytics.score sqrt analytics)
     = Js.fin (Qmax 0 (Qmin 100
                 ((1 - Analytics.recoveryRate analytics) * 50
                  + Qmin (365 / 365) 1 * 50)))
  /\ (forall sqrt' other,
        Analytics.recoveryTimes other = [] ->
        Analytics.totalInvested other = Analytics.totalInvested analytics ->
        Analytics.totalRecovered other = Analytics.totalRecovered analytics ->
        Analytics.a_riskScore (Analytics.score sqrt' other)
        = Analytics.a_riskScore (Analytics.score sqrt analytics)).
Proof.
  intros Hempty.
  assert (Havg : Analytics.avgRecoveryTime analytics = Js.fin 365)
    by (unfold Analytics.avgRecoveryTime; now rewrite Hempty).
  repeat split.
  - exact Havg.
  - intros H. unfold Analytics.recoveryRate.
    apply Qlt_bool_iff in H. now rewrite H.
  - intros H. unfold Analytics.recoveryRate.
    destruct (Js.Qlt_bool 0 (Analytics.totalInvested analytics)) eqn:E;
      [apply Qlt_bool_iff in E; contradiction | reflexivity].
  - simpl. rewrite Havg. apply riskScore_fin.
  - intros sqrt' other Ho Hi Hr. simpl. rewrite Havg.
    unfold Analytics.avgRecoveryTime, Analytics.recoveryRate.
    now rewrite Ho, Hi, Hr.
Qed.

Lemma risk_score_default_witness :
  Analytics.recoveryTimes (sampleProvider 1500 1000 2) = []
  /\ Analytics.avgRecoveryTime (sampleProvider 1500 1000 2) = Js.fin 365
  /\ Js.eqv (Analytics.a_riskScore
               (Analytics.score (fun x => x) (sampleProvider 1500 1000 2)))
            (Js.fin (200 # 3)).
Proof.
  split; [reflexivity|].
  destruct (risk_score_default (fun x => x) (sampleProvider 1500 1000 2)
              eq_refl) as [H1 [_ [_ [H2 _]]]].
  split; [exact H1|]. rewrite H2. reflexivity.
Defined.

Lemma performanceScore_le (r1 r2 avg : Q) (caseCount : nat) :
  r1 <= r2 ->
  Js.le
    (Analytics.performanceScore (Js.fin r1) caseCount
       (Analytics.riskScore (Js.fin r1) (Js.fin avg)))
    (Analytics.performanceScore (Js.fin r2) caseCount
       (Analytics.riskScore (Js.fin r2) (Js.fin avg))).
Proof.
  intros Hr. rewrite !riskScore_fin, !performanceScore_fin. unfold Js.le, Js.fin.
  set (t := Qmin (avg / 365) 1 * 50).
  set (v := Qmin (inject_Z (Z.of_nat caseCount) / 10) 1 * 20).
  assert (Hrisk : Qmax 0 (Qmin 100 ((1 - r2) * 50 + t))
                  <= Qmax 0 (Qmin 100 ((1 - r1) * 50 + t))).
  { apply Q.max_le_compat_l, Q.min_le_compat_l. lra. }
  apply Q.min_le_compat_l.
  set (k1 := Qmax 0 (Qmin 100 ((1 - r1) * 50 + t))) in *.
  set (k2 := Qmax 0 (Qmin 100 ((1 - r2) * 50 + t))) in *.
  assert (E : forall k, k / 100 == k * (1 # 100)) by (intros; field).
  rewrite !E. lra.
Qed.

(** C4.  The performance score does not decrease when the recovery rate
    grows, the average recovery time and the case count being fixed; the
    risk score inside it is recomputed from the recovery rate.  The score is
    min(100, recoveryRate * 40 + min(caseCount / 10, 1) * 20
    + (1 - riskScore / 100) * 40).  Monotonicity holds of the formula, and
    so of the scores of two provider aggregates that
    agree on the average recovery time and on the case count. *)
Theorem performance_monotone (r1 r2 avg : Q) (caseCount : nat) :
  r1 <= r2 ->
  Js.le
    (Analytics.performanceScore (Js.fin r1) caseCount
       (Analytics.riskScore (Js.fin r1) (Js.fin avg)))
    (Analytics.performanceScore (Js.fin r2) caseCount
       (Analytics.riskScore (Js.fin r2) (Js.fin avg)))
  /\ (forall r risk : Q,
        Analytics.performanceScore (Js.fin r) caseCount (Js.fin risk)
        = Js.fin (Qmin 100
                    (r * 40 + Qmin (inject_Z (Z.of_nat caseCount) / 10) 1 * 20
                     + (1 - risk / 100) * 40)))
  /\ (forall sqrt a1 a2,
        Analytics.recoveryRate a1 = r1 ->
        Analytics.recoveryRate a2 = r2 ->
        Analytics.avgRecoveryTime a1 = Js.fin avg ->
        Analytics.avgRecoveryTime a2 = Js.fin avg ->
        Analytics.caseCount a1 = caseCount ->
        Analytics.caseCount a2 = caseCount ->
        Js.le (Analytics.a_performanceScore (Analytics.score sqrt a1))
              (Analytics.a_performanceScore (Analytics.score sqrt a2))).
Proof.
  intros Hr. split; [|split].
  - now apply performanceScore_le.
  - intros r risk. apply performanceScore_fin.
  - intros sqrt a1 a2 H1 H2 H3 H4 H5 H6. simpl.
    rewrite H1, H2, H3, H4, H5, H6. now apply performanceScore_le.
Qed.

Lemma performance_monotone_witness :
  (1 # 2) <= (2 # 3)
  /\ Js.le
       (Analytics.performanceScore (Js.fin (1 # 2)) 2
          (Analytics.riskScore (Js.fin (1 # 2)) (Js.fin 180)))
       (Analytics.performanceScore (Js.fin (2 # 3)) 2
          (Analytics.riskScore (Js.fin (2 # 3)) (Js.fin 180))).
Proof.
  assert (H : (1 # 2) <= (2 # 3)) by (vm_compute; discriminate).
  split; [exact H | exact (proj1 (performance_monotone (1 # 2) (2 # 3) 180 2 H))].
Defined.




(** C9.  The scoring computation does raise an error: a single record whose
    origination date is a string that is not a date makes [toISOString]
    throw, and no score is produced for any provider.  The provider table
    and the curve page accept the same record. *)
Theorem analytics_invalid_date_throws :
  (forall sqrt,
     Analytics.fetchAnalyticsData sqrt [invalidDateRecord]
     = inl Analytics.RangeError)
  /\ (forall sqrt,
        Analytics.fetchAnalyticsData sqrt
          [sampleRecord 1000 500 None None; invalidDateRecord]
        = inl Analytics.RangeError)
  /\ List.length (Providers.fetchProviderData [invalidDateRecord]) = 1%nat
  /\ (forall clock, Curves.fetchCurveData clock [invalidDateRecord] = []).
Proof. repeat split. Qed.

(** ** Collection curves *)

Lemma nat_eqb_eq (a b : nat) : Nat.eqb a b = true <-> a = b.
Proof. apply Nat.eqb_eq. Qed.

Lemma addMonth_upsert record monthsSince providerCurve month :
  Curves.addMonth record monthsSince providerCurve month
  = JsMap.upsert Nat.eqb month Curves.newMonthData
      (addCase record monthsSince month) providerCurve.
Proof.
  unfold Curves.addMonth.
  apply (upsert_idiom Nat.eqb nat_eqb_eq month Curves.newMonthData
           (addCase record monthsSince month) providerCurve).
Qed.

Lemma curve_step_upsert now curveMap record :
  Curves.step now curveMap record =
  match FundData.provider record with
  | Some k =>
      JsMap.upsert String.eqb k []
        (fold_left (Curves.addMonth record (Curves.monthsSince now record))
           (Curves.months (Curves.monthsSince now record)))
        curveMap
  | None => curveMap
  end.
Proof.
  unfold Curves.step. destruct (FundData.provider record) as [k|]; [|reflexivity].
  apply (upsert_idiom String.eqb string_eqb_eq k []
           (fold_left (Curves.addMonth record (Curves.monthsSince now record))
              (Curves.months (Curves.monthsSince now record))) curveMap).
Qed.

(** *** The months of a curve stay contiguous *)

Lemma keys_length {A B} (m : list (A * B)) :
  List.length (JsMap.keys m) = List.length m.
Proof. apply length_map. Qed.

Lemma addMonth_contiguous record monthsSince providerCurve month :
  contiguous providerCurve ->
  (month <= List.length providerCurve)%nat ->
  contiguous (Curves.addMonth record monthsSince providerCurve month)
  /\ List.length (Curves.addMonth record monthsSince providerCurve month)
     = Nat.max (List.length providerCurve) (S month).
Proof.
  unfold contiguous. intros Hc Hle. rewrite addMonth_upsert. unfold JsMap.upsert.
  destruct (JsMap.get Nat.eqb month providerCurve) as [d|] eqn:G.
  - assert (Hlt : (month < List.length providerCurve)%nat).
    { apply (get_In Nat.eqb nat_eqb_eq) in G.
      apply (in_map fst) in G. simpl in G.
      fold (JsMap.keys providerCurve) in G.
      rewrite Hc in G. apply in_seq in G. lia. }
    assert (Hk : JsMap.keys (JsMap.set Nat.eqb month
                               (addCase record monthsSince month d) providerCurve)
                 = JsMap.keys providerCurve)
      by (apply (set_present Nat.eqb); congruence).
    assert (Hl : List.length (JsMap.set Nat.eqb month
                                (addCase record monthsSince month d) providerCurve)
                 = List.length providerCurve)
      by (rewrite <- !keys_length, Hk; reflexivity).
    rewrite Hk, Hl. split; [assumption | lia].
  - assert (Heq : month = List.length providerCurve).
    { apply (get_None_notin Nat.eqb nat_eqb_eq) in G. rewrite Hc in G.
      rewrite in_seq in G. lia. }
    rewrite (set_absent Nat.eqb) by assumption.
    unfold JsMap.keys. rewrite map_app, length_app. simpl.
    fold (JsMap.keys providerCurve). rewrite Hc, <- Heq.
    replace (month + 1)%nat with (S month) by lia.
    split; [now rewrite seq_S | lia].
Qed.

Lemma loop_contiguous record monthsSince (k : nat) :
  forall providerCurve,
  contiguous providerCurve ->
  contiguous (fold_left (Curves.addMonth record monthsSince) (seq 0 k)
                providerCurve)
  /\ List.length (fold_left (Curves.addMonth record monthsSince) (seq 0 k)
                    providerCurve)
     = Nat.max (List.length providerCurve) k.
Proof.
  induction k as [|k IH]; intros providerCurve Hc.
  - simpl. split; [assumption | lia].
  - rewrite seq_S, fold_left_app. simpl.
    destruct (IH providerCurve Hc) as [Hc' Hl'].
    destruct (addMonth_contiguous record monthsSince _ k Hc') as [Hc'' Hl''];
      [lia|].
    split; [assumption | lia].
Qed.

Lemma months_seq monthsSince :
  exists k, Curves.months monthsSince = seq 0 k.
Proof.
  destruct monthsSince as [n|]; simpl; [eauto | now exists 0%nat].
Qed.

Lemma accumulate_contiguous data :
  forall clock curveMap,
  Forall contiguous (JsMap.values curveMap) ->
  Forall contiguous (JsMap.values (Curves.accumulate clock data curveMap)).
Proof.
  induction data as [|r data IH]; intros clock curveMap H; simpl.
  - assumption.
  - apply IH. rewrite curve_step_upsert.
    destruct (FundData.provider r) as [k|]; [|assumption].
    apply (upsert_Forall String.eqb string_eqb_eq); [assumption|reflexivity|].
    intros c Hc.
    destruct (months_seq (Curves.monthsSince (clock 0%nat) r)) as [n ->].
    now apply loop_contiguous.
Qed.

Lemma accumulate_NoDup data :
  forall clock curveMap,
  NoDup (JsMap.keys curveMap) ->
  NoDup (JsMap.keys (Curves.accumulate clock data curveMap)).
Proof.
  induction data as [|r data IH]; intros clock curveMap H; simpl.
  - assumption.
  - apply IH. rewrite curve_step_upsert.
    destruct (FundData.provider r); [|assumption].
    now apply (upsert_NoDup String.eqb string_eqb_eq).
Qed.

(** *** Invested totals stay non-negative *)


(** *** Conversion of the map to points *)

Lemma emit_fold p providerCurve :
  forall cumulative curves,
  snd (fold_left (Curves.emit p) providerCurve (cumulative, curves))
  = curves ++ curvePoints p cumulative providerCurve.
Proof.
  induction providerCurve as [|[m d] rest IH]; intros cumulative curves; simpl.
  - now rewrite app_nil_r.
  - unfold Curves.emit at 2. simpl. rewrite IH, <- app_assoc. reflexivity.
Qed.

Lemma toCurves_fold curveMap :
  forall curves,
  fold_left Curves.emitProvider curveMap curves
  = curves ++ flat_map (fun e => curvePoints (fst e) 0 (snd e)) curveMap.
Proof.
  induction curveMap as [|[k c] rest IH]; intros curves; simpl.
  - now rewrite app_nil_r.
  - rewrite IH. unfold Curves.emitProvider. simpl.
    rewrite emit_fold, <- app_assoc. reflexivity.
Qed.

Lemma pointsOf_curvePoints p k providerCurve :
  forall cumulative,
  Curves.pointsOf p (curvePoints k cumulative providerCurve)
  = if String.eqb k p then curvePoints k cumulative providerCurve else [].
Proof.
  unfold Curves.pointsOf.
  induction providerCurve as [|[m d] rest IH]; intros cumulative; simpl.
  - now destruct (String.eqb k p).
  - rewrite IH. now destruct (String.eqb k p).
Qed.

Lemma pointsOf_toCurves p curveMap :
  NoDup (JsMap.keys curveMap) ->
  Curves.pointsOf p (Curves.toCurves curveMap)
  = match JsMap.get String.eqb p curveMap with
    | Some providerCurve => curvePoints p 0 providerCurve
    | None => []
    end.
Proof.
  unfold Curves.toCurves. rewrite toCurves_fold. simpl.
  induction curveMap as [|[k c] rest IH]; intros Hnd; simpl.
  - reflexivity.
  - inversion Hnd as [|? ? Hni Hnd']; subst.
    unfold Curves.pointsOf in *. rewrite filter_app.
    fold (Curves.pointsOf p (curvePoints k 0 c)).
    rewrite pointsOf_curvePoints, IH by assumption.
    rewrite (String.eqb_sym p k).
    destruct (String.eqb k p) eqn:E.
    + apply String.eqb_eq in E. subst k.
      apply (get_None_notin String.eqb string_eqb_eq) in Hni.
      rewrite Hni. apply app_nil_r.
    + reflexivity.
Qed.

Lemma curvePoints_month p providerCurve :
  forall cumulative,
  map Curves.month (curvePoints p cumulative providerCurve)
  = JsMap.keys providerCurve.
Proof.
  induction providerCurve as [|[m d] rest IH]; intros cumulative; simpl.
  - reflexivity.
  - now rewrite IH.
Qed.

Lemma curvePoints_nth p providerCurve :
  forall cumulative i pt,
  nth_error (curvePoints p cumulative providerCurve) i = Some pt ->
  exists d,
    nth_error providerCurve i = Some (Curves.month pt, d)
    /\ Curves.recoveryRate pt = Curves.rate d
    /\ Curves.cases pt = Curves.caseCount d
    /\ Curves.cumulativeRecovery pt
       == cumulative
          + Qsum (map Curves.recoveryRate
                    (firstn (S i) (curvePoints p cumulative providerCurve))).
Proof.
  induction providerCurve as [|[m d] rest IH]; intros cumulative i pt H.
  - destruct i; discriminate.
  - destruct i as [|i].
    + simpl in H. injection H as <-. exists d. simpl.
      repeat split; try reflexivity. ring.
    + simpl in H. apply IH in H. destruct H as [d' [H1 [H2 [H3 H4]]]].
      exists d'. repeat split; try assumption.
      rewrite H4. simpl. ring.
Qed.




(** *** A single case *)

Lemma accumulate_single clock record p :
  FundData.provider record = Some p ->
  Curves.accumulate clock [record] []
  = [(p, fold_left
           (Curves.addMonth record (Curves.monthsSince (clock 0%nat) record))
           (Curves.months (Curves.monthsSince (clock 0%nat) record)) [])].
Proof.
  intros H. simpl. rewrite curve_step_upsert, H. reflexivity.
Qed.

Lemma fetch_single clock record p :
  FundData.provider record = Some p ->
  Curves.fetchCurveData clock [record]
  = curvePoints p 0
      (fold_left
         (Curves.addMonth record (Curves.monthsSince (clock 0%nat) record))
         (Curves.months (Curves.monthsSince (clock 0%nat) record)) []).
Proof.
  intros H. unfold Curves.fetchCurveData. rewrite (accumulate_single _ _ p H).
  unfold Curves.toCurves. simpl. unfold Curves.emitProvider. simpl.
  now rewrite emit_fold.
Qed.

Lemma orZero_falsy v : Js.truthyNum v = false -> Js.orZero v == 0.
Proof.
  destruct v as [q|]; simpl; [|reflexivity].
  rewrite negb_false_iff. apply Qeq_bool_eq.
Qed.

Lemma recoveryProgress_linear (month : nat) (n : Z) :
  (0 < n)%Z -> (Z.of_nat month <= n)%Z ->
  Curves.recoveryProgress month (Some n)
  == inject_Z (Z.of_nat month) / inject_Z n.
Proof.
  intros Hn Hm. unfold Curves.recoveryProgress. apply Q.min_l.
  apply Qle_shift_div_r.
  - change 0 with (inject_Z 0). now rewrite <- Zlt_Qlt.
  - rewrite Qmult_1_l. now rewrite <- Zle_Qle.
Qed.

(** What one case adds to a month bucket it is active in. *)
Lemma addMonth_apportions record (n : Z) providerCurve (month : nat) :
  exists d',
    JsMap.get Nat.eqb month
      (Curves.addMonth record (Some n) providerCurve month) = Some d'
    /\ (let old := match JsMap.get Nat.eqb month providerCurve with
                   | Some d => d | None => Curves.newMonthData end in
        Curves.totalInvested d'
        == Curves.totalInvested old + Js.orZero (FundData.total_sent record)
        /\ ((0 < n)%Z -> (Z.of_nat month <= n)%Z ->
            Curves.totalRecovered d'
            == Curves.totalRecovered old
               + Js.orZero (FundData.total_repaid record)
                 * (inject_Z (Z.of_nat month) / inject_Z n))
        /\ ((n <= 0)%Z ->
            Curves.totalRecovered d' == Curves.totalRecovered old)).
Proof.
  rewrite addMonth_upsert. eexists. split.
  - apply (get_upsert_same Nat.eqb nat_eqb_eq).
  - unfold addCase.
    cbn [Curves.totalInvested Curves.totalRecovered Curves.positive].
    split; [reflexivity|]. split.
    + intros Hn Hm.
      assert (Hpos : (0 <? n)%Z = true) by now apply Z.ltb_lt.
      rewrite Hpos, andb_true_r.
      destruct (Js.truthyNum (FundData.total_repaid record)) eqn:T.
      * now rewrite (recoveryProgress_linear month n Hn Hm).
      * rewrite (orZero_falsy _ T). ring.
    + intros Hn.
      assert (Hpos : (0 <? n)%Z = false) by now apply Z.ltb_ge.
      rewrite Hpos, andb_false_r. reflexivity.
Qed.

(** C6.  A single case with 100 sent, 50 repaid and ten elapsed months gives
    the months 0 to 10, with a recovery rate of 0% at month 0, 25% at
    month 5 and 50% at month 10: the bucket of month m holds 100 invested
    and 50 * (m / 10) recovered.  In general a case adds its amount sent to
    the invested total of every month it is active in, once, and adds
    amount_repaid * (m / monthsSince) to the recovered total of month m
    when monthsSince is positive, and nothing otherwise. *)
Theorem single_case_curve (clock : nat -> Z) (record : FundData.t)
  (p : string) :
  FundData.provider record = Some p ->
  FundData.total_sent record = Some 100 ->
  FundData.total_repaid record = Some 50 ->
  Curves.monthsSince (clock 0%nat) record = Some 10%Z ->
  let pts := Curves.fetchCurveData clock [record] in
  map Curves.month pts = seq 0 11
  /\ (forall pt, In pt pts ->
        Curves.provider pt = p
        /\ exists d,
             Curves.bucketOf (Curves.accumulate clock [record] []) p
               (Curves.month pt) = Some d
             /\ Curves.totalInvested d == 100
             /\ Curves.totalRecovered d
                == 50 * (inject_Z (Z.of_nat (Curves.month pt)) / 10)
             /\ Curves.recoveryRate pt
                == Curves.totalRecovered d / Curves.totalInvested d * 100)
  /\ (exists p0 p5 p10,
        nth_error pts 0 = Some p0 /\ Curves.recoveryRate p0 == 0
        /\ nth_error pts 5 = Some p5 /\ Curves.recoveryRate p5 == 25
        /\ nth_error pts 10 = Some p10 /\ Curves.recoveryRate p10 == 50)
  /\ (forall (r : FundData.t) (n : Z) providerCurve (month : nat),
        exists d',
          JsMap.get Nat.eqb month
            (Curves.addMonth r (Some n) providerCurve month) = Some d'
          /\ (let old := match JsMap.get Nat.eqb month providerCurve with
                         | Some d => d | None => Curves.newMonthData end in
              Curves.totalInvested d'
              == Curves.totalInvested old + Js.orZero (FundData.total_sent r)
              /\ ((0 < n)%Z -> (Z.of_nat month <= n)%Z ->
                  Curves.totalRecovered d'
                  == Curves.totalRecovered old
                     + Js.orZero (FundData.total_repaid r)
                       * (inject_Z (Z.of_nat month) / inject_Z n))
              /\ ((n <= 0)%Z ->
                  Curves.totalRecovered d' == Curves.totalRecovered old))).
Proof.
  intros Hp Hs Hr Hm pts. subst pts.
  rewrite (fetch_single clock record p Hp), (accumulate_single clock record p Hp).
  rewrite Hm. unfold Curves.bucketOf, Curves.addMonth.
  rewrite Hs, Hr. cbn [JsMap.get]. rewrite String.eqb_refl.
  split; [reflexivity|]. split; [|split].
  - intros pt Hin. vm_compute in Hin.
    repeat (destruct Hin as [<-|Hin];
            [split; [reflexivity|]; eexists; split; [reflexivity|];
             repeat split; reflexivity|]).
    destruct Hin.
  - do 3 eexists.
    repeat (split; [reflexivity|]). reflexivity.
  - intros r n providerCurve month. apply addMonth_apportions.
Qed.

Lemma single_case_curve_witness :
  FundData.provider tenMonthRecord = Some "X"%string
  /\ Curves.monthsSince 0 tenMonthRecord = Some 10%Z
  /\ map Curves.month (Curves.fetchCurveData (fun _ => 0%Z) [tenMonthRecord])
     = seq 0 11.
Proof.
  split; [reflexivity|]. split; [reflexivity|].
  exact (proj1 (single_case_curve (fun _ => 0%Z) tenMonthRecord "X"
                  eq_refl eq_refl eq_refl eq_refl)).
Defined.

(** *** The clock *)

Lemma monthsSince_repaid now1 now2 record :
  JsDate.truthy (FundData.repayment_date record) = true ->
  Curves.monthsSince now1 record = Curves.monthsSince now2 record.
Proof. unfold Curves.monthsSince. now intros ->. Qed.

Lemma curve_step_clock now1 now2 curveMap record :
  (JsDate.truthy (FundData.repayment_date record) = false -> now1 = now2) ->
  Curves.step now1 curveMap record = Curves.step now2 curveMap record.
Proof.
  intros H.
  destruct (JsDate.truthy (FundData.repayment_date record)) eqn:T.
  - unfold Curves.step. now rewrite (monthsSince_repaid now1 now2 record T).
  - now rewrite (H eq_refl).
Qed.

Lemma accumulate_clock data :
  forall clock1 clock2 curveMap,
  (forall i r, nth_error data i = Some r ->
     JsDate.truthy (FundData.repayment_date r) = false ->
     clock1 i = clock2 i) ->
  Curves.accumulate clock1 data curveMap
  = Curves.accumulate clock2 data curveMap.
Proof.
  induction data as [|r data IH]; intros clock1 clock2 curveMap H; simpl.
  - reflexivity.
  - rewrite (curve_step_clock (clock1 0%nat) (clock2 0%nat) curveMap r).
    + apply IH. intros i r' Hi Hr'. exact (H (S i) r' Hi Hr').
    + intros Hr. exact (H 0%nat r eq_refl Hr).
Qed.

(** C8, as stated, fails: the curve of a case that has no repayment date
    is measured up to the current time, so two invocations on the same
    record, one at the origination date and one 30 days later, differ. *)
Lemma curves_not_idempotent :
  Curves.fetchCurveData (fun _ => 0%Z) [ongoingRecord]
  <> Curves.fetchCurveData (fun _ => 2592000000%Z) [ongoingRecord].
Proof.
  intros H. apply (f_equal (@List.length _)) in H. vm_compute in H.
  discriminate.
Qed.

(** C8, amended.  Two invocations of the pipeline (provider table, scoring
    and curve points) on the same records give the same output when they
    read the same time for every case that has no repayment date; in
    particular when every case has one, whatever the two clocks show.  Only
    the curve points read the clock. *)
Theorem pipeline_idempotent (sqrt : Q -> Q) (data : list FundData.t)
  (clock1 clock2 : nat -> Z) :
  (forall i r, nth_error data i = Some r ->
     JsDate.truthy (FundData.repayment_date r) = false ->
     clock1 i = clock2 i) ->
  (Providers.fetchProviderData data,
   Analytics.fetchAnalyticsData sqrt data,
   Curves.fetchCurveData clock1 data)
  = (Providers.fetchProviderData data,
     Analytics.fetchAnalyticsData sqrt data,
     Curves.fetchCurveData clock2 data).
Proof.
  intros H. unfold Curves.fetchCurveData.
  now rewrite (accumulate_clock data clock1 clock2 [] H).
Qed.

Lemma pipeline_idempotent_witness :
  Curves.fetchCurveData (fun _ => 0%Z) [tenMonthRecord; ongoingRecord]
  = Curves.fetchCurveData
      (fun i => match i with 1%nat => 0%Z | _ => 2592000000%Z end)
      [tenMonthRecord; ongoingRecord].
Proof.
  refine (f_equal snd
            (pipeline_idempotent (fun x => x) [tenMonthRecord; ongoingRecord]
               (fun _ => 0%Z)
               (fun i => match i with 1%nat => 0%Z | _ => 2592000000%Z end) _)).
  intros [|[|i]] r Hr Hd.
  - injection Hr as <-. discriminate Hd.
  - reflexivity.
  - destruct i; discriminate Hr.
Defined.

(** * Further properties of the pages *)

(** ** Sets and sorting *)

Section ArrayFacts.

Context {A : Type} (eqb : A -> A -> bool).
Hypothesis eqb_eq : forall a b, eqb a b = true <-> a = b.

Lemma existsb_eqb_In x (s : list A) : existsb (eqb x) s = true <-> In x s.
Proof.
  rewrite existsb_exists. split.
  - intros [y [Hy E]]. apply eqb_eq in E. now subst.
  - intros H. exists x. split; [assumption | now apply eqb_eq].
Qed.

Lemma add_In (s : list A) x y :
  In y (JsArray.add eqb s x) <-> In y s \/ y = x.
Proof.
  unfold JsArray.add. destruct (existsb (eqb x) s) eqn:E.
  - apply existsb_eqb_In in E. split; [auto | intros [H| ->]; assumption].
  - rewrite in_app_iff. simpl. split; intros [H|H]; auto.
    + destruct H as [H|[]]; auto.
Qed.

Lemma add_NoDup (s : list A) x : NoDup s -> NoDup (JsArray.add eqb s x).
Proof.
  intros H. unfold JsArray.add. destruct (existsb (eqb x) s) eqn:E.
  - assumption.
  - apply NoDup_app; [assumption | repeat constructor; simpl; tauto |].
    intros y Hy [<-|[]]. apply existsb_eqb_In in Hy. congruence.
Qed.

Lemma fold_add_spec (xs : list A) :
  forall s, NoDup s ->
  NoDup (fold_left (JsArray.add eqb) xs s)
  /\ forall y, In y (fold_left (JsArray.add eqb) xs s) <-> In y s \/ In y xs.
Proof.
  induction xs as [|x xs IH]; intros s Hs; simpl.
  - split; [assumption | tauto].
  - destruct (IH _ (add_NoDup s x Hs)) as [H1 H2]. split; [assumption|].
    intros y. rewrite H2, add_In. intuition (subst; auto).
Qed.

(** The keys of a map grow like a set. *)
Lemma keys_set_add {V} k (v : V) (m : list (A * V)) :
  JsMap.keys (JsMap.set eqb k v m) = JsArray.add eqb (JsMap.keys m) k.
Proof.
  unfold JsArray.add. induction m as [|[k' v'] m IH]; simpl.
  - reflexivity.
  - destruct (eqb k k') eqn:E; simpl; [reflexivity|].
    rewrite IH. now destruct (existsb (eqb k) (JsMap.keys m)).
Qed.

Lemma insert_Permutation (compare : A -> A -> Q) x l :
  Permutation.Permutation (JsArray.insert compare x l) (x :: l).
Proof.
  induction l as [|y l IH]; simpl.
  - reflexivity.
  - destruct (Js.Qlt_bool 0 (compare x y)); [|reflexivity].
    rewrite IH. apply Permutation.perm_swap.
Qed.

Lemma sort_Permutation (compare : A -> A -> Q) l :
  Permutation.Permutation (JsArray.sort compare l) l.
Proof.
  induction l as [|x l IH]; simpl.
  - reflexivity.
  - rewrite insert_Permutation. now constructor.
Qed.

Section Sorted.

Variable compare : A -> A -> Q.
Variable R : A -> A -> Prop.
Hypothesis R_le : forall x y, compare x y <= 0 -> R x y.
Hypothesis R_gt : forall x y, 0 < compare x y -> R y x.
Hypothesis R_trans : forall x y z, R x y -> R y z -> R x z.

Lemma insert_Sorted x l :
  Sorted.StronglySorted R l ->
  Sorted.StronglySorted R (JsArray.insert compare x l).
Proof.
  induction 1 as [|y l Hs IH Hy]; simpl.
  - repeat constructor.
  - destruct (Js.Qlt_bool 0 (compare x y)) eqn:E.
    + apply Qlt_bool_iff in E. constructor; [assumption|].
      rewrite Forall_forall. intros z Hz.
      apply (Permutation.Permutation_in _ (insert_Permutation compare x l)) in Hz.
      destruct Hz as [<-|Hz]; [now apply R_gt|].
      rewrite Forall_forall in Hy. now apply Hy.
    + apply Qlt_bool_false in E. constructor; [now constructor|].
      constructor; [now apply R_le|].
      rewrite Forall_forall in *. intros z Hz. eapply R_trans; [|now apply Hy].
      now apply R_le.
Qed.

Lemma sort_Sorted l : Sorted.StronglySorted R (JsArray.sort compare l).
Proof.
  induction l as [|x l IH]; simpl; [constructor | now apply insert_Sorted].
Qed.

End Sorted.

End ArrayFacts.

Lemma upsert_Forall_fresh {K V} (eqb : K -> K -> bool)
  (eqb_eq : forall a b, eqb a b = true <-> a = b)
  (P : V -> Prop) k fresh f (m : list (K * V)) :
  Forall P (JsMap.values m) -> P (f fresh) -> (forall p, P p -> P (f p)) ->
  Forall P (JsMap.values (JsMap.upsert eqb k fresh f m)).
Proof.
  intros Hm Hfresh Hf. apply values_set_Forall; [assumption|].
  destruct (JsMap.get eqb k m) eqn:G; [|assumption].
  apply Hf. eapply (get_Forall eqb eqb_eq); eassumption.
Qed.

(** ** The provider table, continued *)

Lemma aggregate_keys_unique data :
  forall m,
  JsMap.keys (fold_left Providers.step data m)
  = fold_left (JsArray.add String.eqb) (Providers.providersOf data)
      (JsMap.keys m).
Proof.
  induction data as [|r data IH]; intros m; simpl.
  - reflexivity.
  - rewrite IH, step_upsert. unfold Providers.providersOf at 2.
    destruct (FundData.provider r) as [k|]; simpl; [|reflexivity].
    unfold JsMap.upsert. now rewrite keys_set_add.
Qed.

(** X1.  The provider table has one row per provider: the names of its
    rows are the providers of the records that have one (neither null nor
    empty), each once, in the order they first appear.  In particular an
    input with no such record gives an empty table. *)
Theorem provider_rows_in_first_appearance_order (data : list FundData.t) :
  map (fun p : Providers.ProviderData => Providers.provider_name_per_tbr p)
    (Providers.fetchProviderData data)
  = JsArray.unique String.eqb (Providers.providersOf data)
  /\ (forall k,
        In k (map (fun p : Providers.ProviderData =>
                     Providers.provider_name_per_tbr p)
                (Providers.fetchProviderData data))
        <-> exists r, In r data /\ FundData.provider r = Some k)
  /\ (Providers.providersOf data = [] -> Providers.fetchProviderData data = []).
Proof.
  assert (Hnames :
    map (fun p : Providers.ProviderData => Providers.provider_name_per_tbr p)
      (Providers.fetchProviderData data)
    = JsArray.unique String.eqb (Providers.providersOf data)).
  { rewrite map_fetchProviderData.
    destruct (aggregate_keys data [] (NoDup_nil _)) as [_ Hn]; [intros ? ? []|].
    unfold Providers.aggregate. rewrite (named_keys _ Hn).
    now rewrite aggregate_keys_unique. }
  split; [exact Hnames|]. split.
  - intros k. rewrite Hnames. unfold JsArray.unique.
    rewrite (proj2 (fold_add_spec String.eqb string_eqb_eq _ [] (NoDup_nil _))).
    unfold Providers.providersOf. rewrite in_flat_map. split.
    + intros [[]|[r [Hr Hk]]]. exists r. split; [assumption|].
      destruct (FundData.provider r) as [k'|]; [|destruct Hk].
      destruct Hk as [->|[]]. reflexivity.
    + intros [r [Hr Hk]]. right. exists r. split; [assumption|].
      rewrite Hk. now left.
  - intros Hnone. rewrite Hnone in Hnames. simpl in Hnames.
    now apply map_eq_nil in Hnames.
Qed.

Lemma aggregate_case_count_pos data :
  forall m,
  Forall (fun b => (1 <= Providers.case_count b)%nat) (JsMap.values m) ->
  Forall (fun b => (1 <= Providers.case_count b)%nat)
    (JsMap.values (fold_left Providers.step data m)).
Proof.
  induction data as [|r data IH]; intros m Hm; simpl.
  - assumption.
  - apply IH. rewrite step_upsert.
    destruct (FundData.provider r) as [k|]; [|assumption].
    apply (upsert_Forall_fresh String.eqb string_eqb_eq); [assumption | |];
      intros; simpl; lia.
Qed.

(** *** Sums in the order of the records *)

Lemma fold_left_map_plus {A} (h : A -> Q) (l : list A) :
  forall s, fold_left (fun sum r => sum + h r) l s
            = fold_left Qplus (map h l) s.
Proof.
  induction l as [|x l IH]; intros s; simpl; [reflexivity | apply IH].
Qed.

Lemma fold_left_guarded {A} (c : A -> bool) (h : A -> Q) (l : list A) :
  forall s, fold_left (fun sum r => if c r then sum + h r else sum) l s
            = fold_left Qplus (map h (filter c l)) s.
Proof.
  induction l as [|x l IH]; intros s; simpl; [reflexivity|].
  destruct (c x); simpl; apply IH.
Qed.

Lemma filter_andb {A} (f g : A -> bool) (l : list A) :
  filter g (filter f l) = filter (fun x => f x && g x) l.
Proof.
  induction l as [|x l IH]; simpl; [reflexivity|].
  destruct (f x); simpl; [destruct (g x)|]; now rewrite IH.
Qed.

(** A field of a bucket that every record of the provider updates by [f]
    is the fold of [f] over the provider's records, in record order. *)
Lemma get_aggregate_fold {A} (g : Providers.Bucket -> A)
  (f : A -> FundData.t -> A) k data :
  (forall p r, g (Providers.addRecord p r) = f (g p) r) ->
  forall m,
  match JsMap.get String.eqb k (fold_left Providers.step data m) with
  | Some p =>
      g p = fold_left f (filter (Providers.attributedTo k) data)
              (g match JsMap.get String.eqb k m with
                 | Some p0 => p0
                 | None => Providers.newBucket k
                 end)
  | None => True
  end.
Proof.
  intros Hadd. induction data as [|r data IH]; intros m; simpl.
  - now destruct (JsMap.get String.eqb k m).
  - specialize (IH (Providers.step m r)). rewrite get_step in IH.
    destruct (JsMap.get String.eqb k
                (fold_left Providers.step data (Providers.step m r)));
      [|exact I].
    destruct (Providers.attributedTo k r); simpl; [|exact IH].
    now rewrite IH, Hadd.
Qed.

Lemma bucket_totals_in_order p data :
  In p (Providers.fetchProviderData data) ->
  let records := filter (Providers.attributedTo
                           (Providers.provider_name_per_tbr p)) data in
  Providers.total_sent p = Js.sum (map Providers.sent records)
  /\ Providers.total_repaid p = Js.sum (map Providers.repaidAmount records).
Proof.
  intros Hin records. subst records.
  apply In_fetchProviderData in Hin. unfold Providers.aggregate in Hin.
  pose proof (get_aggregate_fold Providers.total_sent
                (fun s r => s + Providers.sent r)
                (Providers.provider_name_per_tbr p) data
                (fun _ _ => eq_refl) []) as G1.
  pose proof (get_aggregate_fold Providers.total_repaid
                (fun s r => s + Providers.repaidAmount r)
                (Providers.provider_name_per_tbr p) data
                (fun _ _ => eq_refl) []) as G2.
  rewrite Hin in G1, G2. simpl in G1, G2.
  rewrite fold_left_map_plus in G1, G2. now split.
Qed.

(** X2.  Every row of the provider table has at least one case, so the
    guard of [avg_multiple] never takes its zero branch: [avg_multiple] is
    [total_multiple / case_count], where [case_count] is the number of the
    provider's records and [total_multiple] is the sum of repaid over sent,
    added in record order from 0, over those of the provider's records
    that have something sent.  A record with nothing sent adds nothing to
    the sum and still counts as a case. *)
Theorem avg_multiple_is_mean (data : list FundData.t) :
  forall p : Providers.ProviderData,
    In p (Providers.fetchProviderData data) ->
    let k := Providers.provider_name_per_tbr p in
    (1 <= Providers.case_count p)%nat
    /\ Providers.case_count p
       = List.length (filter (Providers.attributedTo k) data)
    /\ Providers.total_multiple p
       = Js.sum
           (map (fun r => Providers.repaidAmount r / Providers.sent r)
              (filter (withSent k) data))
    /\ Providers.avg_multiple p
       = Providers.total_multiple p
         / inject_Z (Z.of_nat (Providers.case_count p)).
Proof.
  intros p Hin k.
  assert (Hpos : (1 <= Providers.case_count p)%nat).
  { pose proof (aggregate_case_count_pos data [] (Forall_nil _)) as H.
    rewrite Forall_forall in H. apply H.
    unfold Providers.fetchProviderData in Hin. apply in_map_iff in Hin.
    destruct Hin as [b [<- Hb]]. exact Hb. }
  assert (Havg : Providers.avg_multiple p
                 = Providers.total_multiple p
                   / inject_Z (Z.of_nat (Providers.case_count p))).
  { unfold Providers.fetchProviderData in Hin. apply in_map_iff in Hin.
    destruct Hin as [b [<- Hb]]. simpl in *.
    destruct (Providers.case_count b); [lia | reflexivity]. }
  split; [exact Hpos|]. split; [|split; [|exact Havg]].
  - apply In_fetchProviderData in Hin. unfold Providers.aggregate in Hin.
    pose proof (get_aggregate_count k data []) as G. fold k in Hin.
    rewrite Hin in G. exact G.
  - apply In_fetchProviderData in Hin. unfold Providers.aggregate in Hin.
    pose proof (get_aggregate_fold Providers.total_multiple
                  (fun s r => if Js.Qlt_bool 0 (Providers.sent r)
                              then s + Providers.repaidAmount r
                                       / Providers.sent r
                              else s)
                  k data (fun _ _ => eq_refl) []) as G.
    fold k in Hin. rewrite Hin in G. simpl in G.
    rewrite G, fold_left_guarded, filter_andb. reflexivity.
Qed.

Lemma avg_multiple_is_mean_witness :
  let data := [sampleRecord 1000 500 (Some "Closed"%string) (Some true);
               sampleRecord 500 0 (Some "Pending"%string) None;
               sampleRecord 0 0 None None] in
  let p := {| Providers.bucket :=
                {| Providers.provider_name_per_tbr := "X";
                   Providers.total_sent := 1500;
                   Providers.total_repaid := 500;
                   Providers.case_count := 3;
                   Providers.pending_cases := 1;
                   Providers.closed_cases := 1;
                   Providers.total_multiple := 250000 # 500000 |};
              Providers.avg_multiple := 250000 # 1500000;
              Providers.recovery_rate := 50000 # 1500 |} in
  In p (Providers.fetchProviderData data)
  /\ (1 <= Providers.case_count p)%nat
  /\ Providers.case_count p = 3%nat.
Proof.
  intros data p.
  assert (Hin : In p (Providers.fetchProviderData data))
    by (left; reflexivity).
  split; [exact Hin|].
  destruct (avg_multiple_is_mean data p Hin) as [H1 [H2 _]].
  split; [exact H1 | exact H2].
Defined.

Lemma natsum_set {K V} (eqb : K -> K -> bool) (g : V -> nat) k v
  (m : list (K * V)) :
  (list_sum (map g (JsMap.values (JsMap.set eqb k v m)))
   + match JsMap.get eqb k m with Some o => g o | None => 0 end
   = list_sum (map g (JsMap.values m)) + g v)%nat.
Proof.
  induction m as [|[k0 v0] m IH]; simpl.
  - lia.
  - destruct (eqb k k0) eqn:E; simpl; lia.
Qed.

Lemma aggregate_count_total data :
  forall m,
  list_sum (map Providers.case_count
              (JsMap.values (fold_left Providers.step data m)))
  = (list_sum (map Providers.case_count (JsMap.values m))
     + List.length (filter Providers.hasProvider data))%nat.
Proof.
  induction data as [|r data IH]; intros m; simpl.
  - lia.
  - rewrite IH, step_upsert. unfold Providers.hasProvider.
    destruct (FundData.provider r) as [k|]; simpl; [|lia].
    unfold JsMap.upsert.
    pose proof (natsum_set String.eqb Providers.case_count k
                  (Providers.addRecord
                     match JsMap.get String.eqb k m with
                     | Some p => p
                     | None => Providers.newBucket k
                     end r) m) as H.
    destruct (JsMap.get String.eqb k m); simpl in *; lia.
Qed.

Lemma totals_in_order (l : list Providers.ProviderData) :
  forall acc,
  let t := fold_left
             (fun (acc : Providers.Totals) (p : Providers.ProviderData) =>
                {| Providers.invested :=
                     Providers.invested acc + Providers.total_sent p;
                   Providers.repaid :=
                     Providers.repaid acc + Providers.total_repaid p;
                   Providers.cases :=
                     Providers.cases acc + Providers.case_count p |})
             l acc in
  Providers.invested t
  = fold_left Qplus
      (map (fun p : Providers.ProviderData => Providers.total_sent p) l)
      (Providers.invested acc)
  /\ Providers.repaid t
     = fold_left Qplus
         (map (fun p : Providers.ProviderData => Providers.total_repaid p) l)
         (Providers.repaid acc)
  /\ Providers.cases t
     = (Providers.cases acc
        + list_sum (map (fun p : Providers.ProviderData =>
                           Providers.case_count p) l))%nat.
Proof.
  induction l as [|p l IH]; intros acc; simpl.
  - repeat split; lia.
  - destruct (IH {| Providers.invested :=
                      Providers.invested acc + Providers.total_sent p;
                    Providers.repaid :=
                      Providers.repaid acc + Providers.total_repaid p;
                    Providers.cases :=
                      (Providers.cases acc + Providers.case_count p)%nat |})
      as [H1 [H2 H3]].
    simpl in *. rewrite H1, H2, H3. repeat split; lia.
Qed.

Lemma fetch_names data :
  map (fun p : Providers.ProviderData => Providers.provider_name_per_tbr p)
    (Providers.fetchProviderData data)
  = JsArray.unique String.eqb (Providers.providersOf data).
Proof.
  rewrite map_fetchProviderData.
  destruct (aggregate_keys data [] (NoDup_nil _)) as [_ Hn]; [intros ? ? []|].
  unfold Providers.aggregate. rewrite (named_keys _ Hn).
  now rewrite aggregate_keys_unique.
Qed.

(** X3.  The portfolio totals shown above the provider table add up the
    rows of the table in their order, the order in which the providers
    first appear: [invested] is the sum over the providers of each
    provider's amounts sent, the inner and the outer sum both added in
    order from 0, and [repaid] likewise; [cases] is the number of records
    that have a provider.  Records without a provider are in none of the
    three. *)
Theorem portfolio_totals (data : list FundData.t) :
  let t := Providers.totals (Providers.fetchProviderData data) in
  let names := JsArray.unique String.eqb (Providers.providersOf data) in
  Providers.invested t
  = Js.sum
      (map (fun k => Js.sum
                       (map Providers.sent
                          (filter (Providers.attributedTo k) data)))
         names)
  /\ Providers.repaid t
     = Js.sum
         (map (fun k => Js.sum
                          (map Providers.repaidAmount
                             (filter (Providers.attributedTo k) data)))
            names)
  /\ Providers.cases t = List.length (filter Providers.hasProvider data).
Proof.
  intros t names. subst t names. unfold Providers.totals.
  destruct (totals_in_order (Providers.fetchProviderData data)
              {| Providers.invested := 0; Providers.repaid := 0;
                 Providers.cases := 0 |}) as [H1 [H2 H3]].
  simpl in H1, H2, H3.
  rewrite <- fetch_names, !map_map.
  split; [|split].
  - rewrite H1. unfold Js.sum at 1. f_equal.
    apply map_ext_in. intros p Hp.
    apply (bucket_totals_in_order p data Hp).
  - rewrite H2. unfold Js.sum at 1. f_equal.
    apply map_ext_in. intros p Hp.
    apply (bucket_totals_in_order p data Hp).
  - rewrite H3, (map_fetchProviderData Providers.case_count).
    unfold Providers.aggregate. now rewrite aggregate_count_total.
Qed.

Lemma StronglySorted_app_cross {A} (R : A -> A -> Prop) (l1 l2 : list A) :
  StronglySorted R (l1 ++ l2) ->
  forall x y, In x l1 -> In y l2 -> R x y.
Proof.
  induction l1 as [|a l1 IH]; simpl; intros H x y Hx Hy.
  - destruct Hx.
  - inversion H as [|? ? Hs Hf]; subst. destruct Hx as [<-|Hx].
    + rewrite Forall_forall in Hf. apply Hf. apply in_or_app. now right.
    + now apply IH.
Qed.

(** X4.  Sorted by invested, repaid or multiple, the provider list is the
    matching rows of the table arranged from the largest value to the
    smallest, and the chart takes its first ten: at most ten rows, each a
    row of the table that matches the search, and no row left out has a
    larger value than a row shown. *)
Theorem top_providers_are_largest (matches : string -> string -> bool)
  (localeCompare : string -> string -> Q)
  (providers : list Providers.ProviderData) (searchTerm : string)
  (sortBy : Providers.SortBy) :
  sortBy <> Providers.SortName ->
  let all :=
    Providers.filteredProviders matches localeCompare providers searchTerm
      sortBy in
  let top :=
    Providers.topProviders matches localeCompare providers searchTerm sortBy in
  (List.length top <= 10)%nat
  /\ Permutation all
       (filter (fun p : Providers.ProviderData =>
                  matches (Providers.provider_name_per_tbr p) searchTerm)
          providers)
  /\ StronglySorted (fun a b => sortKey sortBy b <= sortKey sortBy a) all
  /\ all = top ++ skipn 10 all
  /\ (forall p q, In p top -> In q (skipn 10 all) ->
        sortKey sortBy q <= sortKey sortBy p)
  /\ (forall p, In p top ->
        In p providers
        /\ matches (Providers.provider_name_per_tbr p) searchTerm = true).
Proof.
  intros Hname all top.
  assert (Hperm : Permutation all
            (filter (fun p : Providers.ProviderData =>
                       matches (Providers.provider_name_per_tbr p) searchTerm)
               providers))
    by apply sort_Permutation.
  assert (Hsorted : StronglySorted
                      (fun a b => sortKey sortBy b <= sortKey sortBy a) all).
  { apply sort_Sorted.
    - intros x y H. destruct sortBy; simpl in *; try congruence; lra.
    - intros x y H. destruct sortBy; simpl in *; try congruence; lra.
    - intros x y z H1 H2. lra. }
  assert (Hsplit : all = top ++ skipn 10 all)
    by (symmetry; apply firstn_skipn).
  repeat split.
  - apply firstn_le_length.
  - exact Hperm.
  - exact Hsorted.
  - exact Hsplit.
  - intros p q Hp Hq. rewrite Hsplit in Hsorted.
    exact (StronglySorted_app_cross _ _ _ Hsorted p q Hp Hq).
  - assert (Hall : In p all) by (rewrite Hsplit; apply in_or_app; now left).
    apply (Permutation_in _ Hperm) in Hall. now apply filter_In in Hall.
  - assert (Hall : In p all) by (rewrite Hsplit; apply in_or_app; now left).
    apply (Permutation_in _ Hperm) in Hall. now apply filter_In in Hall.
Qed.

Lemma top_providers_are_largest_witness :
  (List.length
     (Providers.topProviders (fun _ _ => true) (fun _ _ => 0%Q)
        (Providers.fetchProviderData
           [sampleRecord 1000 500 None None; tenMonthRecord])
        "" Providers.SortInvested) <= 10)%nat.
Proof.
  refine (proj1 (top_providers_are_largest (fun _ _ => true) (fun _ _ => 0%Q)
                   (Providers.fetchProviderData
                      [sampleRecord 1000 500 None None; tenMonthRecord])
                   "" Providers.SortInvested _)).
  discriminate.
Defined.

(** ** Scoring, continued *)

Lemma monthKey_eqb_eq (a b : JsDate.monthKey) :
  JsDate.monthKey_eqb a b = true <-> a = b.
Proof.
  destruct a as [y1 m1], b as [y2 m2]. unfold JsDate.monthKey_eqb. simpl.
  rewrite andb_true_iff, Z.eqb_eq. split.
  - intros [-> H]. destruct m1, m2; try discriminate; [|reflexivity].
    apply Z.eqb_eq in H. now subst.
  - intros [= -> ->]. split; [reflexivity|].
    destruct m2; [apply Z.eqb_refl | reflexivity].
Qed.

Lemma analytics_addMonth_upsert mp month record :
  Analytics.addMonth mp month record
  = JsMap.upsert JsDate.monthKey_eqb month
      {| Analytics.invested := 0; Analytics.recovered := 0 |}
      (fun monthData =>
         {| Analytics.invested :=
              Analytics.invested monthData
              + Js.orZero (FundData.total_sent record);
            Analytics.recovered :=
              Analytics.recovered monthData
              + Js.orZero (FundData.total_repaid record) |})
      mp.
Proof.
  unfold Analytics.addMonth.
  apply (upsert_idiom JsDate.monthKey_eqb monthKey_eqb_eq month
           {| Analytics.invested := 0; Analytics.recovered := 0 |}
           (fun monthData =>
              {| Analytics.invested :=
                   Analytics.invested monthData
                   + Js.orZero (FundData.total_sent record);
                 Analytics.recovered :=
                   Analytics.recovered monthData
                   + Js.orZero (FundData.total_repaid record) |}) mp).
Qed.

Lemma analytics_step_ok m record :
  accepted record ->
  Analytics.step m record = inr (analyticsStep m record).
Proof.
  unfold accepted, Providers.hasProvider, Analytics.step, analyticsStep,
    JsDate.toISOMonth, JsMap.has, JsMap.upsert.
  intros Hok. destruct (FundData.provider record) as [k|]; [|reflexivity].
  destruct (JsDate.getTime (FundData.origination_date record)) as [ms|];
    [|now elim (Hok eq_refl)].
  destruct (JsMap.get String.eqb k m) as [a|] eqn:G.
  - rewrite G. reflexivity.
  - rewrite (get_set_same String.eqb string_eqb_eq).
    now rewrite (set_set String.eqb string_eqb_eq).
Qed.

Lemma analytics_forEach_ok data :
  Forall accepted data ->
  forall m, Analytics.forEach data m = inr (fold_left analyticsStep data m).
Proof.
  induction 1 as [|r data Hr Hdata IH]; intros m; simpl.
  - reflexivity.
  - rewrite (analytics_step_ok m r Hr). apply IH.
Qed.

Lemma keys_upsert_length {K V} (eqb : K -> K -> bool) k fresh f
  (m : list (K * V)) :
  (List.length m <= List.length (JsMap.upsert eqb k fresh f m)
   <= S (List.length m))%nat.
Proof.
  unfold JsMap.upsert.
  generalize (f match JsMap.get eqb k m with Some p => p | None => fresh end).
  intros v. induction m as [|[k0 v0] m IH]; simpl.
  - lia.
  - destruct (eqb k k0); simpl; lia.
Qed.

Lemma analyticsAdd_inv record month analytics :
  (AnalyticsInv analytics \/ analytics = Analytics.newProvider
                                           (Analytics.provider analytics)) ->
  AnalyticsInv (analyticsAdd record month analytics).
Proof.
  intros H.
  assert (Hold :
    (List.length (Analytics.monthlyPerformance analytics)
     <= Analytics.caseCount analytics)%nat
    /\ (List.length (Analytics.recoveryTimes analytics)
        <= Analytics.caseCount analytics)%nat
    /\ NoDup (JsMap.keys (Analytics.monthlyPerformance analytics))).
  { destruct H as [[H1 H2 H3]| ->].
    - repeat split; try assumption; lia.
    - simpl. repeat split; try lia. constructor. }
  destruct Hold as [H1 [H2 H3]].
  pose proof (keys_upsert_length JsDate.monthKey_eqb month
                {| Analytics.invested := 0; Analytics.recovered := 0 |}
                (fun monthData =>
                   {| Analytics.invested :=
                        Analytics.invested monthData
                        + Js.orZero (FundData.total_sent record);
                      Analytics.recovered :=
                        Analytics.recovered monthData
                        + Js.orZero (FundData.total_repaid record) |})
                (Analytics.monthlyPerformance analytics)) as Hlen.
  assert (Hpos : (1 <= List.length
                         (Analytics.addMonth
                            (Analytics.monthlyPerformance analytics) month
                            record))%nat).
  { rewrite analytics_addMonth_upsert. unfold JsMap.upsert.
    destruct (Analytics.monthlyPerformance analytics) as [|[k0 v0] mp]; simpl;
      [lia|].
    destruct (JsDate.monthKey_eqb month k0); simpl; lia. }
  constructor; simpl.
  - rewrite analytics_addMonth_upsert in *. lia.
  - destruct (Analytics.recoveryDays record); [rewrite length_app; simpl|]; lia.
  - rewrite analytics_addMonth_upsert.
    now apply (upsert_NoDup JsDate.monthKey_eqb monthKey_eqb_eq).
Qed.

Lemma analyticsStep_inv data :
  forall m,
  Forall AnalyticsInv (JsMap.values m) ->
  Forall AnalyticsInv (JsMap.values (fold_left analyticsStep data m)).
Proof.
  induction data as [|r data IH]; intros m Hm; simpl.
  - assumption.
  - apply IH. unfold analyticsStep.
    destruct (FundData.provider r) as [k|]; [|assumption].
    destruct (JsDate.getTime (FundData.origination_date r)); [|assumption].
    apply (upsert_Forall_fresh String.eqb string_eqb_eq); [assumption| |].
    + apply analyticsAdd_inv. now right.
    + intros a Ha. apply analyticsAdd_inv. now left.
Qed.

(** The object of one provider only sees the records attributed to it. *)
Lemma get_analyticsStep_month k m record :
  JsMap.get String.eqb k (analyticsStep m record)
  = match JsDate.toISOMonth (FundData.origination_date record) with
    | Some month =>
        if Providers.attributedTo k record
        then Some (analyticsAdd record month
                     match JsMap.get String.eqb k m with
                     | Some a => a
                     | None => Analytics.newProvider k
                     end)
        else JsMap.get String.eqb k m
    | None => JsMap.get String.eqb k m
    end.
Proof.
  unfold analyticsStep, Providers.attributedTo, JsDate.toISOMonth.
  destruct (FundData.provider record) as [k'|];
    [|now destruct (JsDate.getTime (FundData.origination_date record))].
  destruct (JsDate.getTime (FundData.origination_date record)) as [ms|];
    [|reflexivity].
  destruct (String.eqb k' k) eqn:E.
  - apply String.eqb_eq in E. subst k'.
    exact (get_upsert_same String.eqb string_eqb_eq k
             (Analytics.newProvider k)
             (analyticsAdd record (JsDate.isoMonth ms)) m).
  - apply (get_upsert_other String.eqb string_eqb_eq).
    intros ->. rewrite String.eqb_refl in E. discriminate.
Qed.

(** The month buckets of a provider are those its records build, one
    record after the other. *)
Lemma get_analytics_months k data :
  forall m,
  match JsMap.get String.eqb k (fold_left analyticsStep data m) with
  | Some a =>
      Analytics.monthlyPerformance a
      = fold_left
          (fun mp r =>
             match JsDate.toISOMonth (FundData.origination_date r) with
             | Some month => Analytics.addMonth mp month r
             | None => mp
             end)
          (filter (Providers.attributedTo k) data)
          (Analytics.monthlyPerformance
             match JsMap.get String.eqb k m with
             | Some a0 => a0
             | None => Analytics.newProvider k
             end)
  | None => True
  end.
Proof.
  induction data as [|r data IH]; intros m; simpl.
  - now destruct (JsMap.get String.eqb k m).
  - specialize (IH (analyticsStep m r)).
    rewrite get_analyticsStep_month in IH.
    destruct (JsMap.get String.eqb k
                (fold_left analyticsStep data (analyticsStep m r)));
      [|exact I].
    rewrite IH.
    destruct (Providers.attributedTo k r); simpl;
      now destruct (JsDate.toISOMonth (FundData.origination_date r)).
Qed.

(** A field of a month bucket that every record of the month adds [h] to
    is the sum of [h] over the records of the month, in record order. *)
Lemma get_months_fold (g : Analytics.MonthPerf -> Q) (h : FundData.t -> Q)
  month (l : list FundData.t) :
  (forall mp mk r b,
      JsMap.get JsDate.monthKey_eqb mk (Analytics.addMonth mp mk r) = Some b ->
      g b = g match JsMap.get JsDate.monthKey_eqb mk mp with
              | Some b0 => b0
              | None => {| Analytics.invested := 0; Analytics.recovered := 0 |}
              end + h r) ->
  forall mp,
  match JsMap.get JsDate.monthKey_eqb month
          (fold_left
             (fun mp r =>
                match JsDate.toISOMonth (FundData.origination_date r) with
                | Some mk => Analytics.addMonth mp mk r
                | None => mp
                end) l mp) with
  | Some b =>
      g b = fold_left Qplus
              (map h (filter
                        (fun r =>
                           match JsDate.toISOMonth
                                   (FundData.origination_date r) with
                           | Some mk => JsDate.monthKey_eqb mk month
                           | None => false
                           end) l))
              (g match JsMap.get JsDate.monthKey_eqb month mp with
                 | Some b0 => b0
                 | None =>
                     {| Analytics.invested := 0; Analytics.recovered := 0 |}
                 end)
      /\ (JsMap.get JsDate.monthKey_eqb month mp <> None
          \/ filter (fun r =>
                       match JsDate.toISOMonth
                               (FundData.origination_date r) with
                       | Some mk => JsDate.monthKey_eqb mk month
                       | None => false
                       end) l <> [])
  | None => True
  end.
Proof.
  intros Hadd. induction l as [|r l IH]; intros mp; simpl.
  - destruct (JsMap.get JsDate.monthKey_eqb month mp); [|exact I].
    split; [reflexivity | left; discriminate].
  - destruct (JsDate.toISOMonth (FundData.origination_date r)) as [mk|];
      [|apply IH].
    specialize (IH (Analytics.addMonth mp mk r)).
    match goal with
    | |- match ?g with _ => _ end => destruct g as [b|]; [|exact I]
    end.
    destruct IH as [IH Hne].
    destruct (JsDate.monthKey_eqb mk month) eqn:E; simpl.
    + apply monthKey_eqb_eq in E. subst mk.
      split; [|right; discriminate]. rewrite IH. f_equal.
      destruct (JsMap.get JsDate.monthKey_eqb month
                  (Analytics.addMonth mp month r)) as [b1|] eqn:G.
      * exact (Hadd mp month r b1 G).
      * rewrite analytics_addMonth_upsert in G.
        rewrite (get_upsert_same JsDate.monthKey_eqb monthKey_eqb_eq) in G.
        discriminate.
    + assert (Hget : JsMap.get JsDate.monthKey_eqb month
                       (Analytics.addMonth mp mk r)
                     = JsMap.get JsDate.monthKey_eqb month mp).
      { rewrite analytics_addMonth_upsert.
        apply (get_upsert_other JsDate.monthKey_eqb monthKey_eqb_eq).
        intros ->.
        rewrite (proj2 (monthKey_eqb_eq month month) eq_refl) in E.
        discriminate. }
      rewrite Hget in IH, Hne. split; assumption.
Qed.

Lemma addMonth_get mp mk r :
  JsMap.get JsDate.monthKey_eqb mk (Analytics.addMonth mp mk r)
  = Some
      {| Analytics.invested :=
           Analytics.invested
             match JsMap.get JsDate.monthKey_eqb mk mp with
             | Some b0 => b0
             | None => {| Analytics.invested := 0; Analytics.recovered := 0 |}
             end
           + Providers.sent r;
         Analytics.recovered :=
           Analytics.recovered
             match JsMap.get JsDate.monthKey_eqb mk mp with
             | Some b0 => b0
             | None => {| Analytics.invested := 0; Analytics.recovered := 0 |}
             end
           + Providers.repaidAmount r |}.
Proof.
  rewrite analytics_addMonth_upsert.
  now rewrite (get_upsert_same JsDate.monthKey_eqb monthKey_eqb_eq).
Qed.

(** X6.  When the analytics loop accepts every record, the object it keeps
    for a provider has at least one month bucket and at most one per case,
    one bucket per month, and at most one recovery time per case; and the
    bucket of a month holds the records of the provider whose origination
    date falls in that month: its [invested] is the sum of their amounts
    sent and its [recovered] the sum of their amounts repaid, added in
    record order from 0, and there is at least one such record. *)
Theorem analytics_month_buckets (data : list FundData.t) :
  Forall accepted data ->
  exists providerAnalytics,
    Analytics.forEach data [] = inr providerAnalytics
    /\ forall k analytics,
         JsMap.get String.eqb k providerAnalytics = Some analytics ->
         (1 <= List.length (Analytics.monthlyPerformance analytics)
          <= Analytics.caseCount analytics)%nat
         /\ (List.length (Analytics.recoveryTimes analytics)
             <= Analytics.caseCount analytics)%nat
         /\ NoDup (JsMap.keys (Analytics.monthlyPerformance analytics))
         /\ forall month b,
              JsMap.get JsDate.monthKey_eqb month
                (Analytics.monthlyPerformance analytics) = Some b ->
              Analytics.invested b
              = Js.sum (map Providers.sent (filter (inMonth k month) data))
              /\ Analytics.recovered b
                 = Js.sum (map Providers.repaidAmount
                             (filter (inMonth k month) data))
              /\ filter (inMonth k month) data <> [].
Proof.
  intros Hok. eexists. split; [apply (analytics_forEach_ok data Hok)|].
  intros k a G.
  pose proof (analyticsStep_inv data [] (Forall_nil _)) as H.
  destruct (get_Forall String.eqb string_eqb_eq _ _ _ _ H G) as [H1 H2 H3].
  split; [exact H1|]. split; [exact H2|]. split; [exact H3|].
  intros month b Hb.
  pose proof (get_analytics_months k data []) as M.
  rewrite G in M. simpl in M. rewrite M in Hb.
  pose proof (get_months_fold Analytics.invested Providers.sent month
                (filter (Providers.attributedTo k) data)) as F1.
  pose proof (get_months_fold Analytics.recovered Providers.repaidAmount month
                (filter (Providers.attributedTo k) data)) as F2.
  assert (A1 : forall mp mk r b0,
            JsMap.get JsDate.monthKey_eqb mk (Analytics.addMonth mp mk r)
            = Some b0 ->
            Analytics.invested b0
            = Analytics.invested
                match JsMap.get JsDate.monthKey_eqb mk mp with
                | Some b1 => b1
                | None =>
                    {| Analytics.invested := 0; Analytics.recovered := 0 |}
                end + Providers.sent r).
  { intros mp mk r b0 E. rewrite addMonth_get in E. now injection E as <-. }
  assert (A2 : forall mp mk r b0,
            JsMap.get JsDate.monthKey_eqb mk (Analytics.addMonth mp mk r)
            = Some b0 ->
            Analytics.recovered b0
            = Analytics.recovered
                match JsMap.get JsDate.monthKey_eqb mk mp with
                | Some b1 => b1
                | None =>
                    {| Analytics.invested := 0; Analytics.recovered := 0 |}
                end + Providers.repaidAmount r).
  { intros mp mk r b0 E. rewrite addMonth_get in E. now injection E as <-. }
  specialize (F1 A1 []). specialize (F2 A2 []).
  rewrite Hb in F1, F2. simpl in F1, F2.
  rewrite filter_andb in F1, F2.
  destruct F1 as [F1 [F|F]]; [now elim F|]. destruct F2 as [F2 _].
  split; [exact F1|]. split; [exact F2 | exact F].
Qed.

Lemma analytics_month_buckets_witness :
  exists providerAnalytics,
    Analytics.forEach [tenMonthRecord; sampleRecord 1000 500 None None] []
    = inr providerAnalytics.
Proof.
  destruct (analytics_month_buckets
              [tenMonthRecord; sampleRecord 1000 500 None None])
    as [m [Hm _]].
  - repeat constructor; intros _; discriminate.
  - now exists m.
Defined.

Lemma get_analyticsStep k m record :
  accepted record ->
  match JsMap.get String.eqb k (analyticsStep m record) with
  | Some a' =>
      if Providers.attributedTo k record
      then exists month,
             a' = analyticsAdd record month
                    match JsMap.get String.eqb k m with
                    | Some a => a
                    | None => Analytics.newProvider k
                    end
      else JsMap.get String.eqb k m = Some a'
  | None =>
      Providers.attributedTo k record = false
      /\ JsMap.get String.eqb k m = None
  end.
Proof.
  unfold accepted, Providers.hasProvider, analyticsStep, Providers.attributedTo.
  intros Hok. destruct (FundData.provider record) as [k'|].
  - destruct (JsDate.getTime (FundData.origination_date record)) as [ms|];
      [|now elim (Hok eq_refl)].
    destruct (String.eqb k' k) eqn:E.
    + apply String.eqb_eq in E. subst k'.
      rewrite (get_upsert_same String.eqb string_eqb_eq). eauto.
    + rewrite (get_upsert_other String.eqb string_eqb_eq)
        by (intros ->; rewrite String.eqb_refl in E; discriminate).
      destruct (JsMap.get String.eqb k m); auto.
  - destruct (JsMap.get String.eqb k m); auto.
Qed.

Lemma get_analytics_totals k data :
  Forall accepted data ->
  forall m,
  (forall a, JsMap.get String.eqb k m = Some a -> Analytics.provider a = k) ->
  match JsMap.get String.eqb k (fold_left analyticsStep data m) with
  | Some a =>
      Analytics.provider a = k
      /\ Analytics.totalInvested a
         == match JsMap.get String.eqb k m with
            | Some a0 => Analytics.totalInvested a0 | None => 0 end
            + Qsum (map Providers.sent (filter (Providers.attributedTo k) data))
      /\ Analytics.caseCount a
         = (match JsMap.get String.eqb k m with
            | Some a0 => Analytics.caseCount a0 | None => 0 end
            + List.length (filter (Providers.attributedTo k) data))%nat
  | None => True
  end.
Proof.
  induction 1 as [|r data Hr Hdata IH]; intros m Hm; simpl.
  - destruct (JsMap.get String.eqb k m) as [a|] eqn:G; [|exact I].
    repeat split; [now apply Hm | ring | lia].
  - pose proof (get_analyticsStep k m r Hr) as Hstep.
    assert (Hm' : forall a, JsMap.get String.eqb k (analyticsStep m r) = Some a ->
                            Analytics.provider a = k).
    { intros a Ha. rewrite Ha in Hstep.
      destruct (Providers.attributedTo k r).
      - destruct Hstep as [month ->]. simpl.
        destruct (JsMap.get String.eqb k m) as [a0|] eqn:G; [now apply Hm|].
        reflexivity.
      - now apply Hm. }
    specialize (IH (analyticsStep m r) Hm').
    destruct (JsMap.get String.eqb k (fold_left analyticsStep data (analyticsStep m r)))
      as [a|]; [|exact I].
    destruct IH as [IH1 [IH2 IH3]]. split; [exact IH1|].
    destruct (JsMap.get String.eqb k (analyticsStep m r)) as [a1|].
    + destruct (Providers.attributedTo k r).
      * destruct Hstep as [month ->]. simpl in IH2, IH3. simpl.
        unfold Providers.sent at 1. split.
        -- rewrite IH2. destruct (JsMap.get String.eqb k m); simpl; ring.
        -- rewrite IH3. destruct (JsMap.get String.eqb k m); simpl; lia.
      * rewrite Hstep. split; [rewrite IH2; ring | rewrite IH3; lia].
    + destruct Hstep as [-> ->]. split; [rewrite IH2; ring | rewrite IH3; lia].
Qed.




(** X7.  For a provider whose average recovery time is a number, the risk
    score lies between 0 and 100, the performance score is at most 100 and,
    when the recovered total is not negative, at least 0; an efficiency
    score that is a number is at most 100. *)
Theorem score_ranges (sqrt : Q -> Q) (analytics : Analytics.Provider)
  (avg : Q) :
  Analytics.avgRecoveryTime analytics = Js.fin avg ->
  exists risk perf,
    Analytics.a_riskScore (Analytics.score sqrt analytics) = Js.fin risk
    /\ 0 <= risk <= 100
    /\ Analytics.a_performanceScore (Analytics.score sqrt analytics)
       = Js.fin perf
    /\ perf <= 100
    /\ (0 <= Analytics.totalRecovered analytics -> 0 <= perf)
    /\ (forall e,
          Analytics.a_efficiency (Analytics.score sqrt analytics) = Js.fin e ->
          e <= 100).
Proof.
  intros Havg. simpl. rewrite Havg, riskScore_fin, performanceScore_fin.
  set (r := Analytics.recoveryRate analytics).
  set (risk := Qmax 0 (Qmin 100 ((1 - r) * 50 + Qmin (avg / 365) 1 * 50))).
  assert (Hrisk : 0 <= risk <= 100).
  { split; [apply Q.le_max_l|]. apply Q.max_lub; [lra | apply Q.le_min_l]. }
  do 2 eexists. split; [reflexivity|]. split; [exact Hrisk|].
  split; [reflexivity|]. split; [apply Q.le_min_l|]. split.
  - intros Hrec.
    assert (Hr : 0 <= r).
    { subst r. unfold Analytics.recoveryRate.
      destruct (Js.Qlt_bool 0 (Analytics.totalInvested analytics)) eqn:E;
        [|lra].
      apply Qlt_bool_iff in E. apply Qle_shift_div_l; [assumption | lra]. }
    assert (Hv : 0 <= Qmin (inject_Z (Z.of_nat (Analytics.caseCount analytics))
                          / 10) 1).
    { apply Q.min_glb; [|lra]. apply Qle_shift_div_l; [lra|].
      rewrite Qmult_0_l. change 0 with (inject_Z 0). rewrite <- Zle_Qle. lia. }
    apply Q.min_glb; [lra|].
    assert (E : risk / 100 == risk * (1 # 100)) by field.
    rewrite E. nra.
  - intros e He. unfold Analytics.efficiency in He.
    destruct (Analytics.recoveryVelocity (Js.fin r) (Js.fin avg)) as [v|];
      [|discriminate].
    destruct (Analytics.consistency sqrt (Analytics.monthlyRates analytics))
      as [c|]; [|discriminate].
    simpl in He. injection He as <-. apply Q.le_min_l.
Qed.

Lemma score_ranges_witness :
  exists risk,
    Analytics.a_riskScore
      (Analytics.score (fun x => x) (sampleProvider 1500 1000 2))
    = Js.fin risk
    /\ 0 <= risk <= 100.
Proof.
  destruct (score_ranges (fun x => x) (sampleProvider 1500 1000 2) 365
              eq_refl) as [risk [perf [H1 [H2 _]]]].
  exists risk. split; assumption.
Defined.

Lemma fold_add_from_NaN (l : list Js.num) :
  fold_left Js.add l Js.NaN = Js.NaN.
Proof. induction l as [|y l IH]; simpl; [reflexivity | exact IH]. Qed.

Lemma fold_add_NaN (l : list Js.num) :
  forall x, In Js.NaN l -> fold_left Js.add l x = Js.NaN.
Proof.
  induction l as [|y l IH]; intros x; simpl.
  - tauto.
  - intros [->|H].
    + destruct x; apply fold_add_from_NaN.
    + now apply IH.
Qed.

Lemma NaN_score sqrt analytics :
  In Js.NaN (Analytics.recoveryTimes analytics) ->
  let s := Analytics.score sqrt analytics in
  Analytics.a_riskScore s = Js.NaN
  /\ Analytics.a_performanceScore s = Js.NaN
  /\ Analytics.a_recoveryVelocity s = Js.fin 0
  /\ Analytics.a_efficiency s = Js.NaN
  /\ Analytics.a_investmentGrade s = "F"%string.
Proof.
  intros Hin.
  assert (Havg : Analytics.avgRecoveryTime analytics = Js.NaN).
  { unfold Analytics.avgRecoveryTime.
    destruct (Analytics.recoveryTimes analytics) as [|t l] eqn:E;
      [destruct Hin|].
    rewrite <- E in *. replace (0 <? List.length (Analytics.recoveryTimes analytics))%nat
      with true by (rewrite E; reflexivity).
    now rewrite (fold_add_NaN _ (Js.fin 0) Hin). }
  simpl. rewrite Havg. repeat split.
  unfold Analytics.efficiency. simpl.
  now destruct (Analytics.consistency sqrt (Analytics.monthlyRates analytics)).
Qed.

Lemma NaN_persists k data :
  Forall accepted data ->
  forall m,
  (exists a0, JsMap.get String.eqb k m = Some a0
              /\ In Js.NaN (Analytics.recoveryTimes a0))
  \/ (exists r, In r data /\ Providers.attributedTo k r = true
                /\ Analytics.recoveryDays r = Some Js.NaN) ->
  exists a, JsMap.get String.eqb k (fold_left analyticsStep data m) = Some a
            /\ In Js.NaN (Analytics.recoveryTimes a).
Proof.
  induction 1 as [|r data Hr Hdata IH]; intros m H; simpl.
  - destruct H as [H|[r [[] _]]]. exact H.
  - apply IH. pose proof (get_analyticsStep k m r Hr) as Hstep.
    destruct H as [[a0 [G Hin]]|[r' [[<-|Hin] [Hatt Hnan]]]].
    + left. rewrite G in Hstep.
      destruct (JsMap.get String.eqb k (analyticsStep m r)) as [a1|].
      * exists a1. split; [reflexivity|].
        destruct (Providers.attributedTo k r).
        -- destruct Hstep as [month ->]. simpl.
           destruct (Analytics.recoveryDays r);
             [apply in_or_app; now left | assumption].
        -- injection Hstep as <-. assumption.
      * destruct Hstep; discriminate.
    + left. rewrite Hatt in Hstep.
      destruct (JsMap.get String.eqb k (analyticsStep m r)) as [a1|].
      * exists a1. split; [reflexivity|]. destruct Hstep as [month ->].
        simpl. rewrite Hnan. apply in_or_app. right. now left.
      * destruct Hstep; discriminate.
    + right. exists r'. auto.
Qed.

(** X8.  Among records that the analytics loop accepts (every record with
    a provider has an origination date with a time value), a record that
    has a provider, whose origination date is a date string that parses and
    whose repayment date is a non-empty string that is not a date does not
    stop the analytics page: its recovery time is [NaN], and its provider
    is scored with a [NaN] risk score and performance score, a recovery
    velocity of 0 and the grade F, whatever the other accepted records
    are. *)
Theorem unparsable_repayment_grades_F (sqrt : Q -> Q)
  (data : list FundData.t) (record : FundData.t) (k : string) (ms : Z) :
  Forall accepted data ->
  In record data ->
  FundData.provider record = Some k ->
  FundData.origination_date record = JsDate.Parsed ms ->
  FundData.repayment_date record = JsDate.Unparsable ->
  Analytics.recoveryDays record = Some Js.NaN
  /\ exists out s,
    Analytics.fetchAnalyticsData sqrt data = inr out
    /\ In s out
    /\ Analytics.a_provider s = k
    /\ Analytics.a_riskScore s = Js.NaN
    /\ Analytics.a_performanceScore s = Js.NaN
    /\ Analytics.a_recoveryVelocity s = Js.fin 0
    /\ Analytics.a_investmentGrade s = "F"%string.
Proof.
  intros Hok Hin Hk Ho Hr.
  assert (Hdays : Analytics.recoveryDays record = Some Js.NaN)
    by (unfold Analytics.recoveryDays; now rewrite Ho, Hr).
  split; [exact Hdays|].
  unfold Analytics.fetchAnalyticsData.
  rewrite (analytics_forEach_ok data Hok []).
  destruct (NaN_persists k data Hok []) as [a [G Hnan]].
  { right. exists record. split; [assumption|]. split.
    - unfold Providers.attributedTo. rewrite Hk. apply String.eqb_refl.
    - exact Hdays. }
  pose proof (get_analytics_totals k data Hok []) as T. rewrite G in T.
  destruct T as [Hname _]; [discriminate|].
  destruct (NaN_score sqrt a Hnan) as [H1 [H2 [H3 [_ H5]]]].
  exists (map (Analytics.score sqrt)
            (JsMap.values (fold_left analyticsStep data []))),
    (Analytics.score sqrt a).
  split; [reflexivity|]. split.
  - apply in_map. apply (get_In String.eqb string_eqb_eq) in G.
    change a with (snd (k, a)). now apply in_map.
  - repeat split; assumption.
Qed.

Lemma unparsable_repayment_grades_F_witness :
  exists out,
    Analytics.fetchAnalyticsData (fun x => x)
      [{| FundData.provider_name_per_tbr := Some "X"%string;
          FundData.total_sent := Some 100;
          FundData.total_repaid := Some 50;
          FundData.case_status := None;
          FundData.repaid := None;
          FundData.origination_date := JsDate.Parsed 0;
          FundData.repayment_date := JsDate.Unparsable |}]
    = inr out.
Proof.
  destruct (unparsable_repayment_grades_F (fun x => x)
              [{| FundData.provider_name_per_tbr := Some "X"%string;
                  FundData.total_sent := Some 100;
                  FundData.total_repaid := Some 50;
                  FundData.case_status := None;
                  FundData.repaid := None;
                  FundData.origination_date := JsDate.Parsed 0;
                  FundData.repayment_date := JsDate.Unparsable |}]
              _ "X" 0
              ltac:(repeat constructor; intros _; discriminate)
              (or_introl eq_refl) eq_refl eq_refl eq_refl)
    as [_ [out [s [H _]]]].
  now exists out.
Defined.

Lemma div_nat_num (x : Q) (n : nat) :
  (0 < n)%nat ->
  Js.div (Js.fin x) (Analytics.nat_num n)
  = Js.fin (x / inject_Z (Z.of_nat n)).
Proof.
  intros Hn. unfold Js.div, Analytics.nat_num, Js.fin.
  destruct (Qeq_bool (inject_Z (Z.of_nat n)) 0) eqn:E; [|reflexivity].
  apply Qeq_bool_eq in E. change 0 with (inject_Z 0) in E.
  apply (proj1 (inject_Z_injective _ _)) in E. lia.
Qed.

Lemma variance_fold_fin (avgRate : Q) (rates : list Q) :
  forall s, exists t,
    fold_left (fun sum rate =>
                 Js.add sum (Js.pow (Js.sub (Js.fin rate) (Js.fin avgRate)) 2))
      rates (Js.fin s) = Js.fin t.
Proof.
  induction rates as [|r rates IH]; intros s; simpl.
  - now exists s.
  - apply IH.
Qed.

Lemma consistency_fin (sqrt : Q -> Q) (rates : list Q) :
  rates <> [] ->
  exists variance,
    Analytics.consistency sqrt rates
    = Js.fin (Qmax 0 (100 - sqrt variance * 100)).
Proof.
  intros Hne. unfold Analytics.consistency.
  assert (Hlen : (0 < List.length rates)%nat)
    by (destruct rates; [congruence | simpl; lia]).
  rewrite (div_nat_num _ _ Hlen).
  destruct (variance_fold_fin (Js.sum rates / inject_Z (Z.of_nat (List.length rates)))
              rates 0) as [t Ht].
  unfold Js.fin in *. rewrite Ht.
  change (Some t) with (Js.fin t). rewrite (div_nat_num _ _ Hlen).
  eexists. reflexivity.
Qed.

(** X9.  When the analytics loop accepts every record, the consistency
    score of every provider is a number between 0 and 100: every provider
    has at least one month bucket, so neither the mean nor the variance of
    its monthly rates divides by zero.  (The square root is assumed
    non-negative.) *)
Theorem consistency_in_range (sqrt : Q -> Q) (data : list FundData.t) :
  (forall x, 0 <= sqrt x) ->
  Forall accepted data ->
  exists out,
    Analytics.fetchAnalyticsData sqrt data = inr out
    /\ forall s, In s out ->
         exists c, Analytics.a_consistency s = Js.fin c /\ 0 <= c <= 100.
Proof.
  intros Hsqrt Hok. unfold Analytics.fetchAnalyticsData.
  rewrite (analytics_forEach_ok data Hok []).
  eexists. split; [reflexivity|].
  intros s Hin. apply in_map_iff in Hin. destruct Hin as [a [<- Hin]].
  pose proof (analyticsStep_inv data [] (Forall_nil _)) as H.
  rewrite Forall_forall in H. destruct (H a Hin) as [[Hm _] _ _].
  assert (Hne : Analytics.monthlyRates a <> []).
  { unfold Analytics.monthlyRates, JsMap.values.
    destruct (Analytics.monthlyPerformance a); simpl in *; [lia | discriminate]. }
  destruct (consistency_fin sqrt _ Hne) as [v Hv].
  simpl. rewrite Hv. eexists. split; [reflexivity|]. split.
  - apply Q.le_max_l.
  - apply Q.max_lub; [lra|]. specialize (Hsqrt v). lra.
Qed.

Lemma consistency_in_range_witness :
  exists out,
    Analytics.fetchAnalyticsData (fun _ => 0)
      [tenMonthRecord; sampleRecord 1000 500 None None] = inr out.
Proof.
  destruct (consistency_in_range (fun _ => 0)
              [tenMonthRecord; sampleRecord 1000 500 None None])
    as [out [H _]].
  - intros x. apply Qle_refl.
  - repeat constructor; intros _; discriminate.
  - now exists out.
Defined.

(** X10.  A provider with a single month bucket has variance 0 and so a
    consistency score of 100, for a square root that is 0 at 0. *)
Theorem consistency_single_month (sqrt : Q -> Q)
  (analytics : Analytics.Provider) :
  (forall x, x == 0 -> sqrt x == 0) ->
  List.length (Analytics.monthlyPerformance analytics) = 1%nat ->
  Js.eqv (Analytics.a_consistency (Analytics.score sqrt analytics))
         (Js.fin 100).
Proof.
  intros Hsqrt Hlen. simpl. unfold Analytics.monthlyRates, JsMap.values.
  destruct (Analytics.monthlyPerformance analytics) as [|[k m] [|e l]];
    try discriminate.
  simpl map. set (r := if Js.Qlt_bool 0 (Analytics.invested m)
                       then Analytics.recovered m / Analytics.invested m
                       else 0).
  unfold Analytics.consistency, Js.sum. cbn.
  rewrite Hsqrt.
  - rewrite Q.max_r; [ring | lra].
  - unfold Qpower. simpl. field.
Qed.

Lemma consistency_single_month_witness :
  Js.eqv
    (Analytics.a_consistency
       (Analytics.score (fun x => x)
          {| Analytics.provider := "X"%string;
             Analytics.totalInvested := 100;
             Analytics.totalRecovered := 50;
             Analytics.caseCount := 1;
             Analytics.recoveryTimes := [];
             Analytics.monthlyPerformance :=
               [((2024%Z, Some 1%Z),
                 {| Analytics.invested := 100; Analytics.recovered := 50 |})]
          |}))
    (Js.fin 100).
Proof.
  apply consistency_single_month; [intros x H; exact H | reflexivity].
Defined.

(** *** The grade chart *)

Lemma get_gradeStep g acc item :
  JsMap.get String.eqb g (gradeStep acc item)
  = if String.eqb (Analytics.a_investmentGrade item) g
    then Some (match JsMap.get String.eqb g acc with
               | Some c => c | None => 0 end + 1)%nat
    else JsMap.get String.eqb g acc.
Proof.
  unfold gradeStep. destruct (String.eqb (Analytics.a_investmentGrade item) g) eqn:E.
  - apply String.eqb_eq in E. subst g.
    apply (get_set_same String.eqb string_eqb_eq).
  - apply (get_set_other String.eqb string_eqb_eq).
    intros H. rewrite H, String.eqb_refl in E. discriminate.
Qed.

Lemma gradeStep_sum acc item :
  list_sum (JsMap.values (gradeStep acc item))
  = S (list_sum (JsMap.values acc)).
Proof.
  unfold gradeStep.
  pose proof (natsum_set String.eqb (fun c : nat => c)
                (Analytics.a_investmentGrade item)
                (match JsMap.get String.eqb
                         (Analytics.a_investmentGrade item) acc with
                 | Some count => count | None => 0 end + 1)%nat acc) as Hs.
  rewrite !map_id in Hs.
  destruct (JsMap.get String.eqb (Analytics.a_investmentGrade item) acc); lia.
Qed.

Lemma gradeDistribution_fold (l : list Analytics.AnalyticsData) :
  forall acc,
  NoDup (JsMap.keys acc) ->
  Forall (fun c => (1 <= c)%nat) (JsMap.values acc) ->
  NoDup (JsMap.keys (fold_left gradeStep l acc))
  /\ Forall (fun c => (1 <= c)%nat) (JsMap.values (fold_left gradeStep l acc))
  /\ list_sum (JsMap.values (fold_left gradeStep l acc))
     = (list_sum (JsMap.values acc) + List.length l)%nat
  /\ forall g,
       match JsMap.get String.eqb g (fold_left gradeStep l acc) with
       | Some c => c | None => 0%nat end
       = (match JsMap.get String.eqb g acc with
          | Some c0 => c0 | None => 0 end
          + List.length
              (filter (fun a => String.eqb (Analytics.a_investmentGrade a) g)
                 l))%nat.
Proof.
  induction l as [|item l IH]; intros acc Hnd Hpos; simpl.
  - repeat split; try assumption; try lia.
  - assert (Hnd' : NoDup (JsMap.keys (gradeStep acc item)))
      by now apply (keys_set_NoDup String.eqb string_eqb_eq).
    assert (Hpos' : Forall (fun c => (1 <= c)%nat)
                      (JsMap.values (gradeStep acc item)))
      by (apply values_set_Forall; [assumption | lia]).
    destruct (IH _ Hnd' Hpos') as [H1 [H2 [H3 H4]]].
    repeat split; try assumption.
    + rewrite H3, gradeStep_sum. lia.
    + intros g. rewrite H4, get_gradeStep.
      destruct (String.eqb (Analytics.a_investmentGrade item) g); simpl; lia.
Qed.

Lemma list_sum_Permutation (l1 l2 : list nat) :
  Permutation l1 l2 -> list_sum l1 = list_sum l2.
Proof. induction 1; simpl; lia. Qed.

(** X11.  The grade chart counts every scored provider once: the counts of
    its bars add up to the number of providers, each grade has one bar, a
    bar's count is the number of providers with that grade and is at least
    1, and the percentage of a bar is a number, its count divided by the
    number of providers and then multiplied by 100. *)
Theorem grade_chart_counts (localeCompare : string -> string -> Q)
  (analyticsData : list Analytics.AnalyticsData) :
  let bars := Analytics.gradeData localeCompare analyticsData in
  list_sum (map Analytics.count bars) = List.length analyticsData
  /\ NoDup (map Analytics.grade bars)
  /\ (forall d, In d bars ->
        (1 <= Analytics.count d)%nat
        /\ Analytics.count d
           = List.length
               (filter (fun a => String.eqb (Analytics.a_investmentGrade a)
                                   (Analytics.grade d)) analyticsData)
        /\ Analytics.percentage d
           = Js.fin (inject_Z (Z.of_nat (Analytics.count d))
                     / inject_Z (Z.of_nat (List.length analyticsData))
                     * 100)).
Proof.
  intros bars. subst bars. unfold Analytics.gradeData.
  set (dist := Analytics.gradeDistribution analyticsData).
  set (mk := fun entry : string * nat =>
               {| Analytics.grade := fst entry;
                  Analytics.count := snd entry;
                  Analytics.percentage :=
                    Js.mul (Js.div (Analytics.nat_num (snd entry))
                              (Analytics.nat_num (List.length analyticsData)))
                      (Js.fin 100) |}).
  set (cmp := fun a b => localeCompare (Analytics.grade a) (Analytics.grade b)).
  pose proof (sort_Permutation cmp (map mk dist)) as Hperm.
  destruct (gradeDistribution_fold analyticsData [] (NoDup_nil _)
              (Forall_nil _)) as [Hnd [Hpos [Hsum Hget]]].
  change (fold_left gradeStep analyticsData [])
    with (Analytics.gradeDistribution analyticsData) in Hnd, Hpos, Hsum, Hget.
  fold dist in Hnd, Hpos, Hsum, Hget. simpl in Hsum.
  assert (Hcount : map Analytics.count (map mk dist) = JsMap.values dist)
    by (rewrite map_map; reflexivity).
  assert (Hgrade : map Analytics.grade (map mk dist) = JsMap.keys dist)
    by (rewrite map_map; reflexivity).
  assert (Hbar : forall d, In d (JsArray.sort cmp (map mk dist)) ->
            (1 <= Analytics.count d)%nat
            /\ Analytics.count d
               = List.length
                   (filter (fun a => String.eqb (Analytics.a_investmentGrade a)
                                       (Analytics.grade d)) analyticsData)
            /\ Analytics.percentage d
               = Js.fin (inject_Z (Z.of_nat (Analytics.count d))
                         / inject_Z (Z.of_nat (List.length analyticsData))
                         * 100)).
  { intros d Hd. apply (Permutation_in _ Hperm) in Hd.
    apply in_map_iff in Hd. destruct Hd as [[g c] [<- Hin]]. simpl.
    assert (Hc1 : (1 <= c)%nat).
    { rewrite Forall_forall in Hpos. apply Hpos.
      change c with (snd (g, c)). now apply in_map. }
    apply (In_get String.eqb string_eqb_eq _ _ _ Hnd) in Hin.
    pose proof (Hget g) as Hc. rewrite Hin in Hc. simpl in Hc.
    split; [exact Hc1|]. split; [exact Hc|].
    assert (Hlen : (0 < List.length analyticsData)%nat).
    { destruct analyticsData; [simpl in Hc; lia | simpl; lia]. }
    pose proof (div_nat_num (inject_Z (Z.of_nat c)) _ Hlen) as Hd.
    unfold Js.div, Analytics.nat_num, Js.fin in Hd.
    destruct (Qeq_bool (inject_Z (Z.of_nat (List.length analyticsData))) 0);
      [discriminate | reflexivity]. }
  repeat split.
  - rewrite (list_sum_Permutation _ _ (Permutation_map Analytics.count Hperm)).
    now rewrite Hcount.
  - apply (Permutation_NoDup
             (Permutation_sym (Permutation_map Analytics.grade Hperm))).
    now rewrite Hgrade.
  - now apply Hbar.
  - now apply Hbar.
  - now apply Hbar.
Qed.

(** ** Collection curves, continued *)

Lemma loop_get record monthsSince (k : nat) providerCurve (m : nat) :
  JsMap.get Nat.eqb m
    (fold_left (Curves.addMonth record monthsSince) (seq 0 k) providerCurve)
  = if (m <? k)%nat
    then Some (addCase record monthsSince m
                 match JsMap.get Nat.eqb m providerCurve with
                 | Some d => d
                 | None => Curves.newMonthData
                 end)
    else JsMap.get Nat.eqb m providerCurve.
Proof.
  induction k as [|k IH].
  - reflexivity.
  - rewrite seq_S, fold_left_app. simpl fold_left. rewrite addMonth_upsert.
    destruct (Nat.eq_dec k m) as [->|Hne].
    + rewrite (get_upsert_same Nat.eqb nat_eqb_eq), IH.
      replace (m <? m)%nat with false by (symmetry; apply Nat.ltb_irrefl).
      replace (m <? S m)%nat with true by (symmetry; apply Nat.ltb_lt; lia).
      reflexivity.
    + rewrite (get_upsert_other Nat.eqb nat_eqb_eq) by assumption.
      rewrite IH.
      destruct (m <? k)%nat eqn:E1; destruct (m <? S k)%nat eqn:E2;
        try reflexivity.
      * apply Nat.ltb_lt in E1. apply Nat.ltb_ge in E2. lia.
      * apply Nat.ltb_ge in E1. apply Nat.ltb_lt in E2. lia.
Qed.

Lemma months_bound monthsSince :
  exists k, Curves.months monthsSince = seq 0 k /\ (k <= 37)%nat.
Proof.
  destruct monthsSince as [n|]; simpl.
  - eexists. split; [reflexivity | lia].
  - exists 0%nat. split; [reflexivity | lia].
Qed.

Lemma recoveryProgress_start monthsSince :
  Curves.positive monthsSince = true ->
  Curves.recoveryProgress 0 monthsSince == 0.
Proof.
  destruct monthsSince as [n|]; simpl; [|discriminate].
  intros Hn. apply Z.ltb_lt in Hn.
  assert (E : inject_Z 0 / inject_Z n == 0).
  { unfold Qdiv. change (inject_Z 0) with 0. ring. }
  rewrite E. apply Q.min_l. lra.
Qed.

Lemma addCase_start record monthsSince d :
  Curves.totalRecovered d == 0 ->
  Curves.totalRecovered (addCase record monthsSince 0 d) == 0.
Proof.
  intros H. unfold addCase.
  cbn [Curves.totalRecovered].
  destruct (Js.truthyNum (FundData.total_repaid record)); simpl; [|exact H].
  destruct (Curves.positive monthsSince) eqn:P; [|exact H].
  rewrite (recoveryProgress_start _ P), H. ring.
Qed.

Lemma loop_CurveInv record monthsSince (k : nat) providerCurve :
  (k <= 37)%nat ->
  CurveInv providerCurve ->
  CurveInv (fold_left (Curves.addMonth record monthsSince) (seq 0 k)
              providerCurve).
Proof.
  intros Hk [Hc Hl Hs Hcases Hdec].
  destruct (loop_contiguous record monthsSince k providerCurve Hc) as [Hc' Hl'].
  constructor.
  - exact Hc'.
  - rewrite Hl'. lia.
  - intros d. rewrite loop_get.
    destruct (0 <? k)%nat; [|apply Hs].
    intros [= <-]. apply addCase_start.
    destruct (JsMap.get Nat.eqb 0%nat providerCurve) as [d0|] eqn:G;
      [now apply Hs | reflexivity].
  - intros m d. rewrite loop_get.
    destruct (m <? k)%nat; [|apply Hcases].
    intros [= <-]. simpl. lia.
  - intros m. unfold casesAt. rewrite !loop_get.
    specialize (Hdec m). unfold casesAt in Hdec.
    destruct (S m <? k)%nat eqn:E1; destruct (m <? k)%nat eqn:E2.
    + simpl.
      destruct (JsMap.get Nat.eqb (S m) providerCurve);
        destruct (JsMap.get Nat.eqb m providerCurve); simpl in *; lia.
    + apply Nat.ltb_lt in E1. apply Nat.ltb_ge in E2. lia.
    + simpl.
      destruct (JsMap.get Nat.eqb (S m) providerCurve);
        destruct (JsMap.get Nat.eqb m providerCurve); simpl in *; lia.
    + exact Hdec.
Qed.

Lemma CurveInv_nil : CurveInv [].
Proof.
  constructor.
  - reflexivity.
  - simpl. lia.
  - intros d H. discriminate.
  - intros m d H. discriminate.
  - intros m. reflexivity.
Qed.

Lemma accumulate_CurveInv data :
  forall clock curveMap,
  Forall CurveInv (JsMap.values curveMap) ->
  Forall CurveInv (JsMap.values (Curves.accumulate clock data curveMap)).
Proof.
  induction data as [|r data IH]; intros clock curveMap H; simpl.
  - assumption.
  - apply IH. rewrite curve_step_upsert.
    destruct (FundData.provider r) as [k|]; [|assumption].
    apply (upsert_Forall String.eqb string_eqb_eq);
      [assumption | apply CurveInv_nil |].
    intros c Hc.
    destruct (months_bound (Curves.monthsSince (clock 0%nat) r))
      as [n [-> Hn]].
    now apply loop_CurveInv.
Qed.

(** The points of the output, traced back to their bucket. *)
Lemma In_fetchCurveData clock data pt :
  In pt (Curves.fetchCurveData clock data) ->
  exists providerCurve i d,
    JsMap.get String.eqb (Curves.provider pt)
      (Curves.accumulate clock data []) = Some providerCurve
    /\ CurveInv providerCurve
    /\ nth_error (curvePoints (Curves.provider pt) 0 providerCurve) i = Some pt
    /\ Curves.month pt = i
    /\ JsMap.get Nat.eqb i providerCurve = Some d
    /\ Curves.recoveryRate pt = Curves.rate d
    /\ Curves.cases pt = Curves.caseCount d.
Proof.
  unfold Curves.fetchCurveData, Curves.toCurves. rewrite toCurves_fold. simpl.
  set (curveMap := Curves.accumulate clock data []).
  assert (Hnd : NoDup (JsMap.keys curveMap))
    by (apply accumulate_NoDup; constructor).
  assert (Hinv : Forall CurveInv (JsMap.values curveMap))
    by (apply accumulate_CurveInv; constructor).
  intros Hin. apply in_flat_map in Hin. destruct Hin as [[k c] [Hkc Hpt]].
  simpl in Hpt.
  assert (Hprov : Curves.provider pt = k).
  { clear -Hpt. revert Hpt. generalize 0. induction c as [|[m d] c IH];
      simpl; intros q H; [destruct H|].
    destruct H as [<-|H]; [reflexivity | eauto]. }
  subst k.
  assert (Hc : CurveInv c).
  { rewrite Forall_forall in Hinv. apply Hinv.
    change c with (snd (Curves.provider pt, c)). now apply in_map. }
  apply In_nth_error in Hpt. destruct Hpt as [i Hi].
  destruct (curvePoints_nth _ _ _ _ _ Hi) as [d [H1 [H2 [H3 _]]]].
  assert (Hm : Curves.month pt = i).
  { pose proof (map_nth_error fst _ _ H1) as Hk. fold (JsMap.keys c) in Hk.
    rewrite (cinv_contiguous _ Hc) in Hk. simpl in Hk.
    assert (Hlt : (i < List.length c)%nat)
      by (apply nth_error_Some; congruence).
    rewrite (nth_error_nth' _ 0%nat) in Hk by (rewrite length_seq; exact Hlt).
    rewrite seq_nth in Hk by exact Hlt. simpl in Hk. congruence. }
  exists c, i, d.
  split; [now apply (In_get String.eqb string_eqb_eq)|].
  split; [exact Hc|]. split; [exact Hi|]. split; [exact Hm|].
  split; [|split; assumption].
  apply (In_get Nat.eqb nat_eqb_eq).
  - rewrite (cinv_contiguous _ Hc). apply seq_NoDup.
  - rewrite <- Hm. eapply nth_error_In; eassumption.
Qed.

(** X12.  No curve goes past month 36: every point has a month of at most
    36, so a provider has at most 37 points, however old its cases are. *)
Theorem curve_months_capped (clock : nat -> Z) (data : list FundData.t) :
  (forall pt, In pt (Curves.fetchCurveData clock data) ->
     (Curves.month pt <= 36)%nat)
  /\ forall p,
       (List.length (Curves.pointsOf p (Curves.fetchCurveData clock data))
        <= 37)%nat.
Proof.
  split.
  - intros pt Hin.
    destruct (In_fetchCurveData clock data pt Hin)
      as [c [i [d [_ [Hc [Hi [Hm _]]]]]]].
    assert (Hlt : (i < List.length (curvePoints (Curves.provider pt) 0 c))%nat)
      by (apply nth_error_Some; congruence).
    rewrite <- (length_map Curves.month), curvePoints_month, keys_length in Hlt.
    pose proof (cinv_length _ Hc). lia.
  - intros p. unfold Curves.fetchCurveData.
    rewrite pointsOf_toCurves by (apply accumulate_NoDup; constructor).
    destruct (JsMap.get String.eqb p (Curves.accumulate clock data []))
      as [c|] eqn:G; [|simpl; lia].
    rewrite <- (length_map Curves.month), curvePoints_month, keys_length.
    apply cinv_length.
    exact (get_Forall String.eqb string_eqb_eq _ _ _ _
             (accumulate_CurveInv data clock [] (Forall_nil _)) G).
Qed.

(** X13.  Every curve starts at zero: the point of month 0 of any provider
    has a recovery rate of 0 and a cumulative recovery of 0, whatever was
    repaid. *)
Theorem curve_starts_at_zero (clock : nat -> Z) (data : list FundData.t) :
  forall pt, In pt (Curves.fetchCurveData clock data) ->
    Curves.month pt = 0%nat ->
    Curves.recoveryRate pt == 0 /\ Curves.cumulativeRecovery pt == 0.
Proof.
  intros pt Hin H0.
  destruct (In_fetchCurveData clock data pt Hin)
    as [c [i [d [_ [Hc [Hi [Hm [Hd [Hr _]]]]]]]]].
  rewrite H0 in Hm. subst i.
  assert (Hrate : Curves.recoveryRate pt == 0).
  { rewrite Hr. unfold Curves.rate.
    destruct (Js.Qlt_bool 0 (Curves.totalInvested d)); [|reflexivity].
    rewrite (cinv_start _ Hc d Hd). unfold Qdiv. ring. }
  split; [exact Hrate|].
  destruct (curvePoints_nth _ _ _ _ _ Hi) as [d' [_ [_ [_ H4]]]].
  rewrite H4.
  assert (Hfirst : firstn 1 (curvePoints (Curves.provider pt) 0 c) = [pt]).
  { destruct (curvePoints (Curves.provider pt) 0 c) as [|x l];
      [discriminate|].
    simpl in Hi. injection Hi as ->. reflexivity. }
  rewrite Hfirst. simpl. rewrite Hrate. ring.
Qed.

Lemma curve_starts_at_zero_witness :
  let pt := {| Curves.month := 0;
               Curves.provider := "X";
               Curves.recoveryRate := 0 # 1000;
               Curves.cumulativeRecovery := 0 # 1000;
               Curves.cases := 1 |} in
  In pt (Curves.fetchCurveData (fun _ => 0%Z) [tenMonthRecord])
  /\ Curves.recoveryRate pt == 0.
Proof.
  intros pt.
  assert (Hin : In pt (Curves.fetchCurveData (fun _ => 0%Z) [tenMonthRecord]))
    by (vm_compute; left; reflexivity).
  split; [exact Hin|].
  exact (proj1 (curve_starts_at_zero (fun _ => 0%Z) [tenMonthRecord] pt Hin
                  eq_refl)).
Defined.

Lemma curve_nth_get (c : Curves.ProviderCurve) i m d :
  contiguous c ->
  nth_error c i = Some (m, d) ->
  m = i /\ JsMap.get Nat.eqb i c = Some d.
Proof.
  intros Hc H.
  assert (Hm : m = i).
  { pose proof (map_nth_error fst _ _ H) as Hk. fold (JsMap.keys c) in Hk.
    rewrite Hc in Hk. simpl in Hk.
    assert (Hlt : (i < List.length c)%nat)
      by (apply nth_error_Some; congruence).
    rewrite (nth_error_nth' _ 0%nat) in Hk by (rewrite length_seq; exact Hlt).
    rewrite seq_nth in Hk by exact Hlt. simpl in Hk. congruence. }
  split; [exact Hm|]. subst m.
  apply (In_get Nat.eqb nat_eqb_eq).
  - rewrite Hc. apply seq_NoDup.
  - eapply nth_error_In; eassumption.
Qed.

Lemma pointsOf_fetch clock data p :
  Curves.pointsOf p (Curves.fetchCurveData clock data)
  = match JsMap.get String.eqb p (Curves.accumulate clock data []) with
    | Some providerCurve => curvePoints p 0 providerCurve
    | None => []
    end.
Proof.
  unfold Curves.fetchCurveData.
  apply pointsOf_toCurves. apply accumulate_NoDup. constructor.
Qed.

(** X14.  Along the curve of a provider the number of cases never grows:
    every point counts at least one case, and a point counts at most as
    many cases as the point of the month before. *)
Theorem curve_cases_never_grow (clock : nat -> Z) (data : list FundData.t)
  (p : string) :
  let pts := Curves.pointsOf p (Curves.fetchCurveData clock data) in
  (forall pt, In pt pts -> (1 <= Curves.cases pt)%nat)
  /\ forall i a b,
       nth_error pts i = Some a -> nth_error pts (S i) = Some b ->
       (Curves.cases b <= Curves.cases a)%nat.
Proof.
  intros pts. subst pts. rewrite pointsOf_fetch.
  destruct (JsMap.get String.eqb p (Curves.accumulate clock data []))
    as [c|] eqn:G.
  - pose proof (get_Forall String.eqb string_eqb_eq _ _ _ _
                  (accumulate_CurveInv data clock [] (Forall_nil _)) G) as Hc.
    assert (Hpt : forall i a,
              nth_error (curvePoints p 0 c) i = Some a ->
              exists d, JsMap.get Nat.eqb i c = Some d
                        /\ Curves.cases a = Curves.caseCount d).
    { intros i a Hi.
      destruct (curvePoints_nth _ _ _ _ _ Hi) as [d [H1 [_ [H3 _]]]].
      destruct (curve_nth_get c i _ d (cinv_contiguous _ Hc) H1) as [_ Hg].
      now exists d. }
    split.
    + intros pt Hin. apply In_nth_error in Hin. destruct Hin as [i Hi].
      destruct (Hpt i pt Hi) as [d [Hg ->]]. exact (cinv_cases _ Hc i d Hg).
    + intros i a b Ha Hb.
      destruct (Hpt i a Ha) as [da [Hga ->]].
      destruct (Hpt (S i) b Hb) as [db [Hgb ->]].
      pose proof (cinv_decreasing _ Hc i) as Hd. unfold casesAt in Hd.
      now rewrite Hga, Hgb in Hd.
  - split; [intros pt [] | intros [|i] a b H; discriminate].
Qed.

(** *** Non-negative amounts *)

Lemma recoveryProgress_nonneg month monthsSince :
  Curves.positive monthsSince = true ->
  0 <= Curves.recoveryProgress month monthsSince.
Proof.
  destruct monthsSince as [n|]; simpl; [|discriminate].
  intros Hn. apply Z.ltb_lt in Hn. apply Q.min_glb; [|lra].
  apply Qle_shift_div_l.
  - change 0 with (inject_Z 0). now rewrite <- Zlt_Qlt.
  - rewrite Qmult_0_l. change 0 with (inject_Z 0). rewrite <- Zle_Qle. lia.
Qed.

Lemma accumulate_recoveredNonneg data :
  Forall (fun r => 0 <= Js.orZero (FundData.total_repaid r)) data ->
  forall clock curveMap,
  Forall recoveredNonneg (JsMap.values curveMap) ->
  Forall recoveredNonneg (JsMap.values (Curves.accumulate clock data curveMap)).
Proof.
  induction data as [|r data IH]; intros Hdata clock curveMap H; simpl.
  - assumption.
  - inversion Hdata as [|? ? Hr Hrest]; subst.
    apply IH; [assumption|]. rewrite curve_step_upsert.
    destruct (FundData.provider r) as [k|]; [|assumption].
    apply (upsert_Forall String.eqb string_eqb_eq);
      [assumption | constructor |].
    generalize (Curves.months (Curves.monthsSince (clock 0%nat) r)).
    intros l. induction l as [|m l IHl]; intros c Hc; simpl.
    + assumption.
    + apply IHl. rewrite addMonth_upsert.
      apply (upsert_Forall_fresh Nat.eqb nat_eqb_eq); [assumption | |].
      * unfold addCase. cbn [Curves.totalRecovered Curves.newMonthData].
        destruct (Js.truthyNum (FundData.total_repaid r)); simpl; [|lra].
        destruct (Curves.positive (Curves.monthsSince (clock 0%nat) r)) eqn:P;
          [|lra].
        pose proof (recoveryProgress_nonneg m _ P). nra.
      * intros d Hd. unfold addCase. cbn [Curves.totalRecovered].
        destruct (Js.truthyNum (FundData.total_repaid r)); simpl; [|lra].
        destruct (Curves.positive (Curves.monthsSince (clock 0%nat) r)) eqn:P;
          [|lra].
        pose proof (recoveryProgress_nonneg m _ P). nra.
Qed.

Lemma rate_nonneg d : 0 <= Curves.totalRecovered d -> 0 <= Curves.rate d.
Proof.
  intros H. unfold Curves.rate.
  destruct (Js.Qlt_bool 0 (Curves.totalInvested d)) eqn:E; [|lra].
  apply Qlt_bool_iff in E.
  assert (0 <= Curves.totalRecovered d / Curves.totalInvested d)
    by (apply Qle_shift_div_l; [assumption | lra]).
  lra.
Qed.

Lemma curvePoints_next p providerCurve :
  forall cumulative i a b,
  nth_error (curvePoints p cumulative providerCurve) i = Some a ->
  nth_error (curvePoints p cumulative providerCurve) (S i) = Some b ->
  Curves.cumulativeRecovery b
  == Curves.cumulativeRecovery a + Curves.recoveryRate b.
Proof.
  induction providerCurve as [|[m d] rest IH]; intros cumulative i a b Ha Hb.
  - destruct i; discriminate.
  - destruct i as [|i].
    + simpl in Ha. injection Ha as <-. simpl in Hb.
      destruct rest as [|[m' d'] rest]; [discriminate|].
      simpl in Hb. injection Hb as <-. simpl. reflexivity.
    + simpl in Ha, Hb. eapply IH; eassumption.
Qed.

(** X15.  When no amount repaid is negative, no recovery rate is negative,
    and the cumulative recovery of a provider never decreases from one
    month to the next. *)
Theorem curve_rates_nonnegative (clock : nat -> Z) (data : list FundData.t) :
  Forall (fun r => 0 <= Js.orZero (FundData.total_repaid r)) data ->
  (forall pt, In pt (Curves.fetchCurveData clock data) ->
     0 <= Curves.recoveryRate pt)
  /\ forall p i a b,
       nth_error (Curves.pointsOf p (Curves.fetchCurveData clock data)) i
       = Some a ->
       nth_error (Curves.pointsOf p (Curves.fetchCurveData clock data)) (S i)
       = Some b ->
       Curves.cumulativeRecovery a <= Curves.cumulativeRecovery b.
Proof.
  intros Hdata.
  pose proof (accumulate_recoveredNonneg data Hdata clock [] (Forall_nil _))
    as Hnn.
  assert (Hrate : forall pt, In pt (Curves.fetchCurveData clock data) ->
                             0 <= Curves.recoveryRate pt).
  { intros pt Hin.
    destruct (In_fetchCurveData clock data pt Hin)
      as [c [i [d [G [_ [_ [_ [Hd [-> _]]]]]]]]].
    apply rate_nonneg.
    pose proof (get_Forall String.eqb string_eqb_eq _ _ _ _ Hnn G) as Hc.
    exact (get_Forall Nat.eqb nat_eqb_eq _ _ _ _ Hc Hd). }
  split; [exact Hrate|].
  intros p i a b Ha Hb.
  assert (Hin : In b (Curves.fetchCurveData clock data)).
  { apply nth_error_In in Hb. unfold Curves.pointsOf in Hb.
    now apply filter_In in Hb. }
  rewrite pointsOf_fetch in Ha, Hb.
  destruct (JsMap.get String.eqb p (Curves.accumulate clock data []))
    as [c|]; [|destruct i; discriminate].
  rewrite (curvePoints_next _ _ _ _ _ _ Ha Hb).
  specialize (Hrate b Hin). lra.
Qed.

Lemma curve_rates_nonnegative_witness :
  Forall (fun r => 0 <= Js.orZero (FundData.total_repaid r))
    [tenMonthRecord; ongoingRecord]
  /\ forall pt,
       In pt (Curves.fetchCurveData (fun _ => 0%Z)
                [tenMonthRecord; ongoingRecord]) ->
       0 <= Curves.recoveryRate pt.
Proof.
  assert (H : Forall (fun r => 0 <= Js.orZero (FundData.total_repaid r))
                [tenMonthRecord; ongoingRecord])
    by (repeat constructor; vm_compute; discriminate).
  split; [exact H|].
  exact (proj1 (curve_rates_nonnegative (fun _ => 0%Z)
                  [tenMonthRecord; ongoingRecord] H)).
Defined.

(** *** Cases that span no month *)

Lemma set_same {V} k (v : V) (m : list (string * V)) :
  JsMap.get String.eqb k m = Some v -> JsMap.set String.eqb k v m = m.
Proof.
  induction m as [|[k0 v0] m IH]; simpl; [discriminate|].
  destruct (String.eqb k k0) eqn:E.
  - now intros [= ->].
  - intros H. now rewrite IH.
Qed.

Lemma get_app_absent {V} k (m : list (string * V)) k' v :
  JsMap.get String.eqb k (m ++ [(k', v)])
  = match JsMap.get String.eqb k m with
    | Some x => Some x
    | None => if String.eqb k k' then Some v else None
    end.
Proof.
  induction m as [|[k0 v0] m IH]; simpl; [reflexivity|].
  now destruct (String.eqb k k0).
Qed.

(** X16.  A case that spans no month adds nothing to the curves: when the
    elapsed months are not a number (a date does not parse) or are
    negative (repaid before it originated), the record changes no month
    bucket of any provider and the points stay the same. *)
Theorem case_without_months_adds_nothing (now : Z)
  (curveMap : Curves.CurveMap) (record : FundData.t) :
  Curves.monthsSince now record = None
  \/ (exists n, Curves.monthsSince now record = Some n /\ (n < 0)%Z) ->
  Curves.toCurves (Curves.step now curveMap record) = Curves.toCurves curveMap
  /\ forall p m,
       Curves.bucketOf (Curves.step now curveMap record) p m
       = Curves.bucketOf curveMap p m.
Proof.
  intros H.
  assert (Hmonths : Curves.months (Curves.monthsSince now record) = []).
  { destruct H as [->|[n [-> Hn]]]; [reflexivity|]. simpl.
    replace (Z.to_nat (Z.min n 36 + 1)) with 0%nat by lia. reflexivity. }
  rewrite curve_step_upsert, Hmonths.
  destruct (FundData.provider record) as [k|]; [|auto].
  unfold JsMap.upsert. simpl fold_left.
  match goal with
  | |- context [match ?g with Some _ => _ | None => _ end] =>
      destruct g as [c|] eqn:G
  end.
  - rewrite (set_same _ _ _ G). auto.
  - rewrite (set_absent String.eqb _ _ _ G). split.
    + unfold Curves.toCurves. rewrite fold_left_app. reflexivity.
    + intros p m. unfold Curves.bucketOf. rewrite get_app_absent.
      destruct (JsMap.get String.eqb p curveMap) as [c|] eqn:Gp;
        [reflexivity|].
      now destruct (String.eqb p k).
Qed.

Lemma case_without_months_adds_nothing_witness :
  Curves.toCurves (Curves.step 0 [] invalidDateRecord) = Curves.toCurves [].
Proof.
  exact (proj1 (case_without_months_adds_nothing 0 [] invalidDateRecord
                  (or_introl eq_refl))).
Defined.

(** *** The selection of providers and months *)

Lemma filter_comm {A} (f g : A -> bool) (l : list A) :
  filter f (filter g l) = filter g (filter f l).
Proof.
  induction l as [|x l IH]; simpl; [reflexivity|].
  destruct (g x) eqn:G; destruct (f x) eqn:F; simpl;
    rewrite ?G, ?F, IH; reflexivity.
Qed.

Lemma filter_month_firstn (l : list Curves.CurveData) :
  forall off b,
  map Curves.month l = seq off (List.length l) ->
  filter (fun d => (Curves.month d <=? b)%nat) l = firstn (S b - off) l.
Proof.
  induction l as [|x l IH]; intros off b H.
  - now rewrite firstn_nil.
  - simpl in H. injection H as Hx Hl. simpl filter. rewrite Hx.
    rewrite (IH (S off) b Hl).
    destruct (off <=? b)%nat eqn:E.
    + apply Nat.leb_le in E.
      replace (S b - off)%nat with (S (b - off)) by lia.
      replace (S b - S off)%nat with (b - off)%nat by lia. reflexivity.
    + apply Nat.leb_gt in E.
      replace (S b - off)%nat with 0%nat by lia.
      replace (S b - S off)%nat with 0%nat by lia. reflexivity.
Qed.

Lemma pointsOf_months clock data p :
  map Curves.month (Curves.pointsOf p (Curves.fetchCurveData clock data))
  = seq 0 (List.length
             (Curves.pointsOf p (Curves.fetchCurveData clock data))).
Proof.
  rewrite pointsOf_fetch.
  destruct (JsMap.get String.eqb p (Curves.accumulate clock data []))
    as [c|] eqn:G; [|reflexivity].
  pose proof (get_Forall String.eqb string_eqb_eq _ _ _ _
                (accumulate_contiguous data clock [] (Forall_nil _)) G) as Hc.
  rewrite <- (length_map Curves.month), curvePoints_month, keys_length.
  exact Hc.
Qed.

(** X17.  The provider and time-range selection cuts each curve at the
    front: for a selected provider (or any provider when nothing is
    selected) a range of 6, 12 or 24 months keeps exactly its first 7, 13
    or 25 points and the range "all" keeps them all; a provider that is
    not selected keeps none. *)
Theorem time_range_keeps_first_months (clock : nat -> Z)
  (data : list FundData.t) (selectedProviders : list string)
  (timeRange : Curves.TimeRange) (p : string) :
  let all := Curves.pointsOf p (Curves.fetchCurveData clock data) in
  Curves.pointsOf p
    (Curves.filteredData selectedProviders timeRange
       (Curves.fetchCurveData clock data))
  = if (List.length selectedProviders =? 0)%nat
       || existsb (String.eqb p) selectedProviders
    then match rangeBound timeRange with
         | Some b => firstn (S b) all
         | None => all
         end
    else [].
Proof.
  intros all. subst all.
  pose proof (pointsOf_months clock data p) as Hmonths.
  set (curves := Curves.fetchCurveData clock data) in *.
  unfold Curves.filteredData, Curves.pointsOf in *.
  rewrite filter_comm.
  set (pts := filter (fun c => String.eqb (Curves.provider c) p) curves) in *.
  set (sel := ((List.length selectedProviders =? 0)%nat
               || existsb (String.eqb p) selectedProviders)).
  assert (Hext : filter (fun d => Curves.inProviders selectedProviders d
                                  && Curves.inTimeRange timeRange d) pts
                 = filter (fun d => sel && Curves.inTimeRange timeRange d) pts).
  { apply filter_ext_in. intros d Hd. subst pts. apply filter_In in Hd.
    destruct Hd as [_ Hp]. apply String.eqb_eq in Hp.
    unfold Curves.inProviders. subst sel. now rewrite Hp. }
  rewrite Hext. destruct sel; simpl.
  - destruct timeRange; simpl;
      try (rewrite (filter_month_firstn pts 0 _ Hmonths); reflexivity).
    clear. induction pts as [|x l IH]; simpl; [reflexivity | now rewrite IH].
  - clear. induction pts as [|x l IH]; simpl; [reflexivity | exact IH].
Qed.

(** *** The average curve *)

Lemma fold_min_In (xs : list Q) :
  forall x, In (fold_left Qmin xs x) (x :: xs).
Proof.
  induction xs as [|y xs IH]; intros x; simpl.
  - now left.
  - destruct (IH (Qmin x y)) as [H|H]; [|now right; right].
    rewrite <- H. unfold Qmin, GenericMinMax.gmin.
    destruct (x ?= y); [now left | now left | right; now left].
Qed.

Lemma fold_max_In (xs : list Q) :
  forall x, In (fold_left Qmax xs x) (x :: xs).
Proof.
  induction xs as [|y xs IH]; intros x; simpl.
  - now left.
  - destruct (IH (Qmax x y)) as [H|H]; [|now right; right].
    rewrite <- H. unfold Qmax, GenericMinMax.gmax.
    destruct (x ?= y); [now left | right; now left | now left].
Qed.

Lemma fold_min_le (xs : list Q) :
  forall x, fold_left Qmin xs x <= x
            /\ Forall (fun y => fold_left Qmin xs x <= y) xs.
Proof.
  induction xs as [|y xs IH]; intros x; simpl.
  - split; [apply Qle_refl | constructor].
  - destruct (IH (Qmin x y)) as [H1 H2]. split.
    + eapply Qle_trans; [exact H1 | apply Q.le_min_l].
    + constructor; [|exact H2].
      eapply Qle_trans; [exact H1 | apply Q.le_min_r].
Qed.

Lemma fold_max_ge (xs : list Q) :
  forall x, x <= fold_left Qmax xs x
            /\ Forall (fun y => y <= fold_left Qmax xs x) xs.
Proof.
  induction xs as [|y xs IH]; intros x; simpl.
  - split; [apply Qle_refl | constructor].
  - destruct (IH (Qmax x y)) as [H1 H2]. split.
    + eapply Qle_trans; [apply Q.le_max_l | exact H1].
    + constructor; [|exact H2].
      eapply Qle_trans; [apply Q.le_max_r | exact H1].
Qed.

(** [Math.min] and [Math.max] of a list that is not empty pick elements of
    the list, below and above all the others. *)
Lemma min_max_attained (xs : list Q) :
  xs <> [] ->
  exists lo hi,
    Curves.minOf xs = Some lo /\ Curves.maxOf xs = Some hi
    /\ In lo xs /\ In hi xs
    /\ Forall (fun x => lo <= x) xs /\ Forall (fun x => x <= hi) xs.
Proof.
  intros Hne. destruct xs as [|x xs]; [congruence|].
  destruct (fold_min_le xs x) as [L1 L2].
  destruct (fold_max_ge xs x) as [M1 M2].
  do 2 eexists. split; [reflexivity|]. split; [reflexivity|].
  split; [apply fold_min_In|]. split; [apply fold_max_In|].
  split; now constructor.
Qed.

Lemma StronglySorted_le_lt (l : list nat) :
  StronglySorted le l -> NoDup l -> StronglySorted lt l.
Proof.
  induction 1 as [|x l Hs IH Hx]; intros Hnd; constructor.
  - apply IH. now inversion Hnd.
  - inversion Hnd as [|? ? Hni _]; subst. rewrite Forall_forall in *.
    intros y Hy. specialize (Hx y Hy).
    assert (x <> y) by (intros ->; contradiction). lia.
Qed.

Lemma monthsArray_spec (filteredData : list Curves.CurveData) :
  StronglySorted lt (Curves.monthsArray filteredData)
  /\ forall m, In m (Curves.monthsArray filteredData)
               <-> In m (map Curves.month filteredData).
Proof.
  unfold Curves.monthsArray.
  set (cmp := fun a b : nat => inject_Z (Z.of_nat a) - inject_Z (Z.of_nat b)).
  set (u := JsArray.unique Nat.eqb (map Curves.month filteredData)).
  pose proof (sort_Permutation cmp u) as Hperm.
  destruct (fold_add_spec Nat.eqb nat_eqb_eq (map Curves.month filteredData)
              [] (NoDup_nil _)) as [Hnd Hin].
  fold (JsArray.unique Nat.eqb (map Curves.month filteredData)) in Hnd, Hin.
  fold u in Hnd, Hin.
  split.
  - apply StronglySorted_le_lt.
    + apply (sort_Sorted cmp le).
      * intros x y H. unfold cmp in H.
        assert (inject_Z (Z.of_nat x) <= inject_Z (Z.of_nat y)) by lra.
        rewrite <- Zle_Qle in H0. lia.
      * intros x y H. unfold cmp in H.
        assert (inject_Z (Z.of_nat y) <= inject_Z (Z.of_nat x)) by lra.
        rewrite <- Zle_Qle in H0. lia.
      * intros x y z. lia.
    + exact (Permutation_NoDup (Permutation_sym Hperm) Hnd).
  - intros m. split.
    + intros H. apply (Permutation_in _ Hperm) in H. apply Hin in H.
      destruct H as [[]|H]. exact H.
    + intros H. apply (Permutation_in _ (Permutation_sym Hperm)).
      apply Hin. now right.
Qed.

(** X18.  The average curve has one point per month that occurs in the
    filtered data, in strictly increasing month order.  Each point is made
    from at least one record, so its average does not divide by zero: it is
    the sum of the values shown for the month, added in the order of the
    data from 0, divided by their number.  The minimum and the maximum of
    the point are two of these values, the minimum at most and the maximum
    at least every one of them. *)
Theorem average_curve_points (viewType : Curves.ViewType)
  (filteredData : list Curves.CurveData) :
  let ac := Curves.averageCurve viewType filteredData in
  StronglySorted lt (map Curves.av_month ac)
  /\ (forall m, In m (map Curves.av_month ac)
                <-> exists d, In d filteredData /\ Curves.month d = m)
  /\ forall e, In e ac ->
       let xs := map (Curves.shown viewType)
                   (filter (fun d => (Curves.month d =? Curves.av_month e)%nat)
                      filteredData) in
       xs <> []
       /\ Curves.av_average e
          = Js.fin (Js.sum xs / inject_Z (Z.of_nat (List.length xs)))
       /\ exists lo hi,
            Curves.av_min e = Some lo /\ Curves.av_max e = Some hi
            /\ In lo xs /\ In hi xs
            /\ Forall (fun x => lo <= x) xs
            /\ Forall (fun x => x <= hi) xs.
Proof.
  intros ac. subst ac. unfold Curves.averageCurve.
  destruct (monthsArray_spec filteredData) as [Hsorted Hin].
  rewrite map_map. simpl. rewrite map_id.
  split; [exact Hsorted|]. split.
  - intros m. rewrite Hin, in_map_iff. split; intros [d [H1 H2]]; eauto.
  - intros e He. apply in_map_iff in He. destruct He as [m [<- Hm]].
    apply Hin in Hm. apply in_map_iff in Hm. destruct Hm as [d0 [Hd0 Hin0]].
    cbn [Curves.av_month Curves.av_average Curves.av_min Curves.av_max].
    set (monthRecords := filter (fun d => (Curves.month d =? m)%nat)
                           filteredData).
    set (xs := map (Curves.shown viewType) monthRecords).
    assert (Hne : xs <> []).
    { assert (In d0 monthRecords)
        by (apply filter_In; split; [assumption | now apply Nat.eqb_eq]).
      subst xs. destruct monthRecords; [contradiction | discriminate]. }
    assert (Hlen : Qeq_bool (inject_Z (Z.of_nat (List.length monthRecords))) 0
                   = false).
    { destruct (Qeq_bool (inject_Z (Z.of_nat (List.length monthRecords))) 0)
        eqn:E; [|reflexivity].
      apply Qeq_bool_eq in E. change 0 with (inject_Z 0) in E.
      apply (proj1 (inject_Z_injective _ _)) in E.
      subst xs. destruct monthRecords; [now elim Hne | simpl in E; lia]. }
    split; [exact Hne|]. split.
    + unfold Js.div, Js.fin. rewrite Hlen. subst xs.
      rewrite length_map. unfold Js.sum.
      destruct viewType; rewrite fold_left_map_plus; reflexivity.
    + exact (min_max_attained xs Hne).
Qed.

Lemma average_curve_points_witness :
  let ac := Curves.averageCurve Curves.Monthly
              (Curves.fetchCurveData (fun _ => 0%Z)
                 [tenMonthRecord; otherProviderRecord]) in
  exists e lo hi,
    In e ac /\ Curves.av_month e = 5%nat
    /\ Curves.av_min e = Some lo /\ Curves.av_max e = Some hi
    /\ lo == 25 /\ hi == 50.
Proof.
  intros ac.
  assert (Hin : exists e, In e ac /\ Curves.av_month e = 5%nat
                          /\ Curves.av_min e = Some (25000 # 1000)
                          /\ Curves.av_max e = Some (50000 # 1000)).
  { eexists. split; [|split; [|split]].
    - vm_compute. do 5 right. left. reflexivity.
    - reflexivity.
    - reflexivity.
    - reflexivity. }
  destruct Hin as [e [Hin [Hm [Hlo Hhi]]]].
  destruct (proj2 (proj2 (average_curve_points Curves.Monthly
              (Curves.fetchCurveData (fun _ => 0%Z)
                 [tenMonthRecord; otherProviderRecord]))) e Hin)
    as [_ [_ [lo [hi [H1 [H2 _]]]]]].
  exists e, lo, hi. split; [exact Hin|]. split; [exact Hm|].
  split; [exact H1|]. split; [exact H2|].
  rewrite Hlo in H1. rewrite Hhi in H2.
  injection H1 as <-. injection H2 as <-. split; reflexivity.
Defined.
